(** * amp-wrapped: the usage collector and the stats calculator

    A shallow embedding of [collector.ts] (the usage collector) and
    [stats.ts] (the stats calculator), followed by the properties of the
    specification that are settled against them.

    Modelling conventions.
    - JavaScript strings are [string]s (sequences of 8-bit code units; the
      model ids, URIs and date keys of the program are ASCII).
    - JavaScript numbers that hold counts, token totals and millisecond
      time values are [Z]; they are exact in the source as long as they
      stay below 2^53.  Percentages are exact rationals ([Q]).  Module
      [Float64] gives the collector with its sums rounded as the engine
      rounds them, and is shown to agree with the exact reading while
      the token total stays within 2^53.
    - A [Map<string, V>] is an association list in insertion order with
      unique keys; a [Set<string>] is a duplicate-free list in insertion
      order.
    - The ambient wall clock ([Date.now()], [new Date()]) and the local
      time zone are fields of an explicit environment. *)

From Stdlib Require Import ZArith QArith Qround SpecFloat List Bool Lia Ascii String.
From Stdlib Require Import DecimalString Decimal DecimalZ.
From Stdlib Require Import Permutation Sorted.
Import ListNotations.

Open Scope string_scope.
Open Scope Z_scope.

(** ** The JavaScript runtime: strings, arrays, maps and sets *)

Module JS.

(** [s.startsWith(p)] *)
Fixpoint startsWith (s p : string) {struct p} : bool :=
  match p with
  | EmptyString => true
  | String b p' =>
      match s with
      | EmptyString => false
      | String a s' => if Ascii.eqb a b then startsWith s' p' else false
      end
  end.

(** [s.includes(p)] *)
Fixpoint includes (s p : string) : bool :=
  if startsWith s p then true
  else match s with
       | EmptyString => false
       | String _ s' => includes s' p
       end.

(** [s.indexOf(p)], scanning from position [i]; [-1] when absent. *)
Fixpoint indexOfFrom (i : Z) (s p : string) : Z :=
  if startsWith s p then i
  else match s with
       | EmptyString => -1
       | String _ s' => indexOfFrom (i + 1) s' p
       end.

Definition indexOf (s p : string) : Z := indexOfFrom 0 s p.

(** The characters of [s] from position [n] on. *)
Fixpoint drop (n : nat) (s : string) : string :=
  match n, s with
  | O, _ => s
  | S _, EmptyString => EmptyString
  | S n', String _ s' => drop n' s'
  end.

(** The first [n] characters of [s]. *)
Fixpoint take (n : nat) (s : string) : string :=
  match n, s with
  | O, _ => EmptyString
  | S _, EmptyString => EmptyString
  | S n', String a s' => String a (take n' s')
  end.

(** [s.substring(a, b)]: both indices are clamped to [0, length] and
    swapped when out of order. *)
Definition substring (s : string) (a b : Z) : string :=
  let len := Z.of_nat (String.length s) in
  let a' := Z.min (Z.max a 0) len in
  let b' := Z.min (Z.max b 0) len in
  let lo := Z.min a' b' in
  let hi := Z.max a' b' in
  take (Z.to_nat (hi - lo)) (drop (Z.to_nat lo) s).

(** [s.slice(a)] for a non-negative [a]. *)
Definition sliceFrom (s : string) (a : nat) : string := drop a s.

(** [s.replace(pat, rep)] with a string pattern: only the first
    occurrence is replaced. *)
Fixpoint replace (s pat rep : string) : string :=
  if startsWith s pat then rep ++ drop (String.length pat) s
  else match s with
       | EmptyString => EmptyString
       | String a s' => String a (replace s' pat rep)
       end.

(** [s.split(c)] for a one-character separator. *)
Fixpoint split (s : string) (c : ascii) : list string :=
  match s with
  | EmptyString => [EmptyString]
  | String a s' =>
      if Ascii.eqb a c then EmptyString :: split s' c
      else match split s' c with
           | h :: t => String a h :: t
           | [] => [String a EmptyString]
           end
  end.

(** [parts.join(sep)] *)
Definition join (parts : list string) (sep : string) : string :=
  String.concat sep parts.

(** [parts.slice(0, -1)] *)
Definition sliceButLast {A} (parts : list A) : list A := removelast parts.

(** [String(n)] for an integer [n]. *)
Definition Number_toString (n : Z) : string :=
  NilZero.string_of_int (Z.to_int n).

(** [s.padStart(2, "0")] *)
Definition padStart2 (s : string) : string :=
  match String.length s with
  | O => "00" ++ s
  | S O => "0" ++ s
  | _ => s
  end.

(** [c.toUpperCase()] on one code unit (ASCII letters). *)
Definition upperChar (c : ascii) : ascii :=
  let n := nat_of_ascii c in
  if (97 <=? n)%nat && (n <=? 122)%nat then ascii_of_nat (n - 32) else c.

(** [s.charAt(0).toUpperCase() + s.slice(1)] *)
Definition capitalize (s : string) : string :=
  match s with
  | EmptyString => EmptyString
  | String a s' => String (upperChar a) s'
  end.

(** [Array.prototype.sort(cmp)]: a stable sort; [a] stays in front of
    [b] unless [cmp a b > 0]. *)
Fixpoint insertSorted {A} (cmp : A -> A -> Z) (x : A) (l : list A) : list A :=
  match l with
  | [] => [x]
  | y :: l' => if cmp x y <=? 0 then x :: l else y :: insertSorted cmp x l'
  end.

Definition Array_sort {A} (cmp : A -> A -> Z) (l : list A) : list A :=
  fold_right (insertSorted cmp) [] l.

(** The default comparison of [Array.prototype.sort()] on strings:
    code-unit order. *)
Definition defaultCompare (a b : string) : Z :=
  match String.compare a b with
  | Lt => -1
  | Eq => 0
  | Gt => 1
  end.

(** [Math.round(a / d)] for integers [a] and [d > 0]: the quotient
    rounded to the nearest integer, halves upwards. *)
Definition Math_round_div (a d : Z) : Z := (2 * a + d) / (2 * d).

(** [Math.floor(a / d)] for integers [a] and [d > 0]. *)
Definition Math_floor_div (a d : Z) : Z := a / d.

(** [x || 0] on an optional number. *)
Definition orZero (x : option Z) : Z :=
  match x with
  | Some v => if v =? 0 then 0 else v
  | None => 0
  end.

(** *** [Map<string, V>] *)

Definition Map (V : Type) : Type := list (string * V).

Fixpoint Map_get {V} (m : Map V) (k : string) : option V :=
  match m with
  | [] => None
  | (k', v) :: m' => if String.eqb k' k then Some v else Map_get m' k
  end.

Definition Map_has {V} (m : Map V) (k : string) : bool :=
  match Map_get m k with Some _ => true | None => false end.

(** [m.set(k, v)]: an existing key keeps its position, a new key goes
    to the end. *)
Fixpoint Map_set {V} (m : Map V) (k : string) (v : V) : Map V :=
  match m with
  | [] => [(k, v)]
  | (k', v') :: m' =>
      if String.eqb k' k then (k', v) :: m' else (k', v') :: Map_set m' k v
  end.

Definition Map_keys {V} (m : Map V) : list string := map fst m.

Definition Map_size {V} (m : Map V) : Z := Z.of_nat (List.length m).

(** *** [Set<string>] *)

Definition StrSet : Type := list string.

Definition Set_has (s : StrSet) (x : string) : bool :=
  existsb (String.eqb x) s.

Definition Set_add (s : StrSet) (x : string) : StrSet :=
  if Set_has s x then s else (s ++ [x])%list.

Definition Set_size (s : StrSet) : Z := Z.of_nat (List.length s).

End JS.

(** ** stats.ts: provider resolution *)

Module Provider.
Import JS.

Definition resolveProviderId (modelId : string) : string :=
  if startsWith modelId "claude" then "anthropic"
  else if startsWith modelId "gpt" || startsWith modelId "o1" || startsWith modelId "o3"
  then "openai"
  else if startsWith modelId "gemini" then "google"
  else if includes modelId "mistral" || includes modelId "mixtral" then "mistral"
  else if includes modelId "llama" then "meta"
  else if includes modelId "deepseek" then "deepseek"
  else "unknown".

End Provider.


(** ** The JavaScript runtime: [Date]

    A [Date] object is its time value, an integer count of milliseconds
    since 1970-01-01T00:00:00Z.  Calendar fields follow the proleptic
    Gregorian calendar.  The ambient state of the runtime is explicit: the
    successive readings of the wall clock and the local time zone. *)

Module Dates.
Import JS.

Definition MS_PER_DAY : Z := 24 * 60 * 60 * 1000.

(** The civil date [(year, month, day)], months and days counted from 1,
    of a day number counted from 1970-01-01. *)
Definition civil_from_days (z : Z) : Z * Z * Z :=
  let z := z + 719468 in
  let era := z / 146097 in
  let doe := z - era * 146097 in
  let yoe := (doe - doe / 1460 + doe / 36524 - doe / 146096) / 365 in
  let doy := doe - (365 * yoe + yoe / 4 - yoe / 100) in
  let mp := (5 * doy + 2) / 153 in
  let d := doy - (153 * mp + 2) / 5 + 1 in
  let m := if mp <? 10 then mp + 3 else mp - 9 in
  let y := yoe + era * 400 in
  (if m <=? 2 then y + 1 else y, m, d).

(** The day number of a civil date. *)
Definition days_from_civil (y m d : Z) : Z :=
  let y := if m <=? 2 then y - 1 else y in
  let era := y / 400 in
  let yoe := y - era * 400 in
  let doy := (153 * (if 2 <? m then m - 3 else m + 9) + 2) / 5 + d - 1 in
  let doe := yoe * 365 + yoe / 4 - yoe / 100 + doy in
  era * 146097 + doe - 719468.

Definition isLeapYear (y : Z) : bool :=
  (y mod 4 =? 0) && (negb (y mod 100 =? 0) || (y mod 400 =? 0)).

Definition daysInMonth (y m : Z) : Z :=
  if m =? 2 then (if isLeapYear y then 29 else 28)
  else if (m =? 4) || (m =? 6) || (m =? 9) || (m =? 11) then 30
  else 31.

(** The ambient state a run of the program reads: [clock k] is the value
    of the [k]-th reading of the wall clock, [tzOffset t] the offset of
    local time from UTC, in milliseconds, at the instant [t]. *)
Record Env : Type := {
  clock : nat -> Z;
  tzOffset : Z -> Z
}.

(** Computations that read the wall clock thread the number of readings
    made so far. *)
Definition Clock (A : Type) : Type := nat -> A * nat.

Definition ret {A} (a : A) : Clock A := fun n => (a, n).

Definition bind {A B} (c : Clock A) (k : A -> Clock B) : Clock B :=
  fun n => let '(a, n') := c n in k a n'.

(** [Date.now()], and the time value of [new Date()]. *)
Definition Date_now (env : Env) : Clock Z := fun n => (clock env n, S n).

(** The local day number of a time value. *)
Definition localDay (env : Env) (t : Z) : Z := (t + tzOffset env t) / MS_PER_DAY.

Definition getFullYear (env : Env) (t : Z) : Z :=
  let '(y, _, _) := civil_from_days (localDay env t) in y.

Definition getMonth (env : Env) (t : Z) : Z :=
  let '(_, m, _) := civil_from_days (localDay env t) in m - 1.

Definition getDate (env : Env) (t : Z) : Z :=
  let '(_, _, d) := civil_from_days (localDay env t) in d.

(** 1970-01-01 was a Thursday. *)
Definition getDay (env : Env) (t : Z) : Z := (localDay env t + 4) mod 7.

(** [formatDateKey], the same function in collector.ts and stats.ts. *)
Definition formatDateKey (env : Env) (date : Z) : string :=
  let year := getFullYear env date in
  let month := padStart2 (Number_toString (getMonth env date + 1)) in
  let day := padStart2 (Number_toString (getDate env date)) in
  Number_toString year ++ "-" ++ month ++ "-" ++ day.

(** The date key of a day number: what [formatDateKey] prints for any
    time value of that local day. *)
Definition dateKeyOfDay (n : Z) : string :=
  let '(y, m, d) := civil_from_days n in
  Number_toString y ++ "-" ++ padStart2 (Number_toString m) ++ "-"
    ++ padStart2 (Number_toString d).

Definition yearOfDay (n : Z) : Z := let '(y, _, _) := civil_from_days n in y.

Definition digitValue (c : ascii) : option Z :=
  let n := Z.of_nat (nat_of_ascii c) in
  if (48 <=? n) && (n <=? 57) then Some (n - 48) else None.

Definition digits2 (a b : ascii) : option Z :=
  match digitValue a, digitValue b with
  | Some x, Some y => Some (10 * x + y)
  | _, _ => None
  end.

Definition digits4 (a b c d : ascii) : option Z :=
  match digits2 a b, digits2 c d with
  | Some x, Some y => Some (100 * x + y)
  | _, _ => None
  end.

(** The fields of a date-only string [YYYY-MM-DD] that names a day of the
    calendar. *)
Definition parseDateKey (s : string) : option (Z * Z * Z) :=
  match s with
  | String y1 (String y2 (String y3 (String y4 (String "-"
      (String m1 (String m2 (String "-" (String d1 (String d2 EmptyString))))))))) =>
      match digits4 y1 y2 y3 y4, digits2 m1 m2, digits2 d1 d2 with
      | Some y, Some m, Some d =>
          if (1 <=? m) && (m <=? 12) && (1 <=? d) && (d <=? daysInMonth y m)
          then Some (y, m, d) else None
      | _, _, _ => None
      end
  | _ => None
  end.

(** [new Date(s).getTime()]: a date-only string is midnight UTC of that
    day; [None] is the time value [NaN] of an invalid date.  Only the
    date-only form of the ECMAScript date-time format is modelled, which
    is the form of the keys the collector writes; what an engine makes of
    any other string is its own affair and is taken as invalid. *)
Definition Date_parse (s : string) : option Z :=
  match parseDateKey s with
  | Some (y, m, d) => Some (days_from_civil y m d * MS_PER_DAY)
  | None => None
  end.

End Dates.


(** ** collector.ts *)

Module Collector.
Import JS Dates.

Record AmpThreadUsage : Type := {
  model : option string;
  inputTokens : option Z;
  outputTokens : option Z;
  cacheReadInputTokens : option Z;
  credits : option Z
}.

Inductive Role : Type := user | assistant.

Record AmpMessage : Type := {
  role : Role;
  usage : option AmpThreadUsage;
  (** [fileMentions?.files], each file by its [uri] *)
  fileMentionFiles : option (list string)
}.

Record AmpThread : Type := {
  id : string;
  created : Z;
  messages : list AmpMessage
}.

Record AmpUsageSummary : Type := {
  totalInputTokens : Z;
  totalOutputTokens : Z;
  totalCacheReadTokens : Z;
  totalTokens : Z;
  totalCredits : Z;
  modelTokenTotals : Map Z;
  modelCreditTotals : Map Z;
  firstTimestamp : option Z;
  dailyActivity : Map Z;
  totalMessages : Z;
  totalSessions : Z;
  projects : StrSet
}.

Definition projectIndicators : list string :=
  ["/src/"; "/lib/"; "/app/"; "/components/"; "/pages/"].

(** The loop over [projectIndicators]: the first indicator, in the order
    of the list, that occurs in [path] decides. *)
Fixpoint findIndicator (path : string) (indicators : list string) : option string :=
  match indicators with
  | [] => None
  | indicator :: rest =>
      let idx := indexOf path indicator in
      if negb (idx =? -1) then Some (substring path 0 idx)
      else findIndicator path rest
  end.

Definition extractProjectPath (uri : string) : option string :=
  if negb (startsWith uri "file://") then None
  else
    let path := replace uri "file://" EmptyString in
    match findIndicator path projectIndicators with
    | Some project => Some project
    | None =>
        let parts := split path "/"%char in
        if 4 <=? Z.of_nat (List.length parts)
        then Some (join (sliceButLast parts) "/")
        else None
    end.

(** The body of the loop over [message.fileMentions.files]. *)
Definition addProject (projects : StrSet) (uri : string) : StrSet :=
  match extractProjectPath uri with
  | Some projectPath =>
      if String.eqb projectPath EmptyString then projects else Set_add projects projectPath
  | None => projects
  end.

(** The body of the loop over [thread.messages]. *)
Definition processMessage (acc : AmpUsageSummary) (message : AmpMessage)
  : AmpUsageSummary :=
  let acc1 :=
    match role message with
    | user =>
        {| totalInputTokens := totalInputTokens acc;
           totalOutputTokens := totalOutputTokens acc;
           totalCacheReadTokens := totalCacheReadTokens acc;
           totalTokens := totalTokens acc;
           totalCredits := totalCredits acc;
           modelTokenTotals := modelTokenTotals acc;
           modelCreditTotals := modelCreditTotals acc;
           firstTimestamp := firstTimestamp acc;
           dailyActivity := dailyActivity acc;
           totalMessages := totalMessages acc + 1;
           totalSessions := totalSessions acc;
           projects :=
             match fileMentionFiles message with
             | Some files => fold_left addProject files (projects acc)
             | None => projects acc
             end |}
    | assistant => acc
    end in
  match role message, usage message with
  | assistant, Some usage =>
      let model :=
        match model usage with
        | Some m => if String.eqb m EmptyString then "unknown" else m
        | None => "unknown"
        end in
      let input := orZero (inputTokens usage) in
      let output := orZero (outputTokens usage) in
      let cacheRead := orZero (cacheReadInputTokens usage) in
      let credits := orZero (credits usage) in
      let entryTotal := input + output + cacheRead in
      let counted := negb (String.eqb model EmptyString) && negb (String.eqb model "unknown") in
      {| totalInputTokens := totalInputTokens acc1 + input;
         totalOutputTokens := totalOutputTokens acc1 + output;
         totalCacheReadTokens := totalCacheReadTokens acc1 + cacheRead;
         totalTokens := totalTokens acc1 + entryTotal;
         totalCredits := totalCredits acc1 + credits;
         modelTokenTotals :=
           if counted
           then Map_set (modelTokenTotals acc1) model
                  (orZero (Map_get (modelTokenTotals acc1) model) + entryTotal)
           else modelTokenTotals acc1;
         modelCreditTotals :=
           if counted
           then Map_set (modelCreditTotals acc1) model
                  (orZero (Map_get (modelCreditTotals acc1) model) + credits)
           else modelCreditTotals acc1;
         firstTimestamp := firstTimestamp acc1;
         dailyActivity := dailyActivity acc1;
         totalMessages := totalMessages acc1;
         totalSessions := totalSessions acc1;
         projects := projects acc1 |}
  | _, _ => acc1
  end.

(** The body of the loop over the thread files.  A file that cannot be
    read or parsed ([None]) is skipped by the [catch]. *)
Definition processThread (env : Env) (year : Z) (acc : AmpUsageSummary)
  (file : option AmpThread) : AmpUsageSummary :=
  match file with
  | None => acc
  | Some thread =>
      let threadDate := created thread in
      if negb (getFullYear env threadDate =? year) then acc
      else
        let dateKey := formatDateKey env threadDate in
        let acc1 :=
          {| totalInputTokens := totalInputTokens acc;
             totalOutputTokens := totalOutputTokens acc;
             totalCacheReadTokens := totalCacheReadTokens acc;
             totalTokens := totalTokens acc;
             totalCredits := totalCredits acc;
             modelTokenTotals := modelTokenTotals acc;
             modelCreditTotals := modelCreditTotals acc;
             firstTimestamp :=
               match firstTimestamp acc with
               | None => Some threadDate
               | Some first => if threadDate <? first then Some threadDate else Some first
               end;
             dailyActivity :=
               Map_set (dailyActivity acc) dateKey
                 (orZero (Map_get (dailyActivity acc) dateKey) + 1);
             totalMessages := totalMessages acc;
             totalSessions := totalSessions acc + 1;
             projects := projects acc |} in
        fold_left processMessage (messages thread) acc1
  end.

Definition emptySummary : AmpUsageSummary :=
  {| totalInputTokens := 0;
     totalOutputTokens := 0;
     totalCacheReadTokens := 0;
     totalTokens := 0;
     totalCredits := 0;
     modelTokenTotals := [];
     modelCreditTotals := [];
     firstTimestamp := None;
     dailyActivity := [];
     totalMessages := 0;
     totalSessions := 0;
     projects := [] |}.

(** [collectAmpUsageSummary(year)] over the contents of the thread files
    in the order [listThreadFiles] returns them. *)
Definition collectAmpUsageSummary (env : Env) (threadFiles : list (option AmpThread))
  (year : Z) : AmpUsageSummary :=
  fold_left (processThread env year) threadFiles emptySummary.

End Collector.


(** ** collector.ts in the arithmetic of the engine

    The totals are JavaScript numbers, that is IEEE 754 doubles.  A sum
    of two doubles that hold integers is the integer nearest to the exact
    sum among the doubles, ties going to the even significand; it is the
    exact sum while that stays within 2^53.  This module is the loop of
    the collector again, with every addition of a token or credit amount
    rounded that way.  The counters and the day counts grow by 1 for each
    thread or message and stay exact.  (Sums at or beyond 2^1024, which
    the engine gives as [Infinity], and amounts with a fractional part
    are outside this reading.) *)

Module Float64.
Import JS Dates Collector.

(** The double nearest to the integer [z], ties to even: 53 bits of
    significand are kept. *)
Definition roundDouble (z : Z) : Z :=
  let a := Z.abs z in
  let ulp := 2 ^ Z.max 0 (Z.log2 a - 52) in
  let q := a / ulp in
  let r := a mod ulp in
  let up := (ulp <? 2 * r) || ((2 * r =? ulp) && Z.odd q) in
  Z.sgn z * ((if up then q + 1 else q) * ulp).

(** [a + b] on two numbers that hold integers. *)
Definition Number_add (a b : Z) : Z := roundDouble (a + b).

(** The body of the loop over [thread.messages]. *)
Definition processMessage (acc : AmpUsageSummary) (message : AmpMessage)
  : AmpUsageSummary :=
  let acc1 :=
    match role message with
    | user =>
        {| totalInputTokens := totalInputTokens acc;
           totalOutputTokens := totalOutputTokens acc;
           totalCacheReadTokens := totalCacheReadTokens acc;
           totalTokens := totalTokens acc;
           totalCredits := totalCredits acc;
           modelTokenTotals := modelTokenTotals acc;
           modelCreditTotals := modelCreditTotals acc;
           firstTimestamp := firstTimestamp acc;
           dailyActivity := dailyActivity acc;
           totalMessages := totalMessages acc + 1;
           totalSessions := totalSessions acc;
           projects :=
             match fileMentionFiles message with
             | Some files => fold_left addProject files (projects acc)
             | None => projects acc
             end |}
    | assistant => acc
    end in
  match role message, usage message with
  | assistant, Some usage =>
      let model :=
        match model usage with
        | Some m => if String.eqb m EmptyString then "unknown" else m
        | None => "unknown"
        end in
      let input := orZero (inputTokens usage) in
      let output := orZero (outputTokens usage) in
      let cacheRead := orZero (cacheReadInputTokens usage) in
      let credits := orZero (credits usage) in
      let entryTotal := Number_add (Number_add input output) cacheRead in
      let counted := negb (String.eqb model EmptyString) && negb (String.eqb model "unknown") in
      {| totalInputTokens := Number_add (totalInputTokens acc1) input;
         totalOutputTokens := Number_add (totalOutputTokens acc1) output;
         totalCacheReadTokens := Number_add (totalCacheReadTokens acc1) cacheRead;
         totalTokens := Number_add (totalTokens acc1) entryTotal;
         totalCredits := Number_add (totalCredits acc1) credits;
         modelTokenTotals :=
           if counted
           then Map_set (modelTokenTotals acc1) model
                  (Number_add (orZero (Map_get (modelTokenTotals acc1) model))
                     entryTotal)
           else modelTokenTotals acc1;
         modelCreditTotals :=
           if counted
           then Map_set (modelCreditTotals acc1) model
                  (Number_add (orZero (Map_get (modelCreditTotals acc1) model))
                     credits)
           else modelCreditTotals acc1;
         firstTimestamp := firstTimestamp acc1;
         dailyActivity := dailyActivity acc1;
         totalMessages := totalMessages acc1;
         totalSessions := totalSessions acc1;
         projects := projects acc1 |}
  | _, _ => acc1
  end.

(** The body of the loop over the thread files. *)
Definition processThread (env : Env) (year : Z) (acc : AmpUsageSummary)
  (file : option AmpThread) : AmpUsageSummary :=
  match file with
  | None => acc
  | Some thread =>
      let threadDate := created thread in
      if negb (getFullYear env threadDate =? year) then acc
      else
        let dateKey := formatDateKey env threadDate in
        let acc1 :=
          {| totalInputTokens := totalInputTokens acc;
             totalOutputTokens := totalOutputTokens acc;
             totalCacheReadTokens := totalCacheReadTokens acc;
             totalTokens := totalTokens acc;
             totalCredits := totalCredits acc;
             modelTokenTotals := modelTokenTotals acc;
             modelCreditTotals := modelCreditTotals acc;
             firstTimestamp :=
               match firstTimestamp acc with
               | None => Some threadDate
               | Some first => if threadDate <? first then Some threadDate else Some first
               end;
             dailyActivity :=
               Map_set (dailyActivity acc) dateKey
                 (orZero (Map_get (dailyActivity acc) dateKey) + 1);
             totalMessages := totalMessages acc;
             totalSessions := totalSessions acc + 1;
             projects := projects acc |} in
        fold_left processMessage (messages thread) acc1
  end.

(** [collectAmpUsageSummary(year)] *)
Definition collectAmpUsageSummary (env : Env) (threadFiles : list (option AmpThread))
  (year : Z) : AmpUsageSummary :=
  fold_left (processThread env year) threadFiles emptySummary.

End Float64.


(** ** stats.ts *)

Module Stats.
Import JS Dates Collector Provider.

Notation "x <- c1 ;; c2" := (bind c1 (fun x => c2))
  (at level 61, c1 at next level, right associativity).

Record AmpModelStats : Type := {
  model_id : string;
  model_name : string;
  model_providerId : string;
  model_count : Z;
  model_percentage : Q;
  model_credits : Z
}.

Record AmpProviderStats : Type := {
  provider_id : string;
  provider_name : string;
  provider_count : Z;
  provider_percentage : Q
}.

Record AmpWeekdayActivity : Type := {
  weekday_counts : list Z;
  weekday_mostActiveDay : Z;
  weekday_mostActiveDayName : string;
  weekday_maxCount : Z
}.

Record MostActiveDay : Type := {
  day_date : string;
  day_count : Z;
  (** [None] when the key does not name a day of the calendar *)
  day_formattedDate : option string
}.

Record Streaks : Type := {
  streaks_maxStreak : Z;
  streaks_currentStreak : Z;
  streaks_maxStreakDays : StrSet
}.

Record AmpCodeStats : Type := {
  year : Z;
  firstSessionDate : Z;
  daysSinceFirstSession : Z;
  totalSessions : Z;
  totalMessages : Z;
  totalProjects : Z;
  totalInputTokens : Z;
  totalOutputTokens : Z;
  totalTokens : Z;
  totalCacheReadTokens : Z;
  cacheHitRate : Q;
  totalCredits : Z;
  hasCredits : bool;
  topModels : list AmpModelStats;
  topProviders : list AmpProviderStats;
  maxStreak : Z;
  currentStreak : Z;
  maxStreakDays : StrSet;
  dailyActivity : Map Z;
  mostActiveDay : option MostActiveDay;
  weekdayActivity : AmpWeekdayActivity
}.

Definition modelNames : Map string :=
  [ ("claude-opus-4-5-20251101", "Opus 4.5");
    ("claude-sonnet-4-5-20250929", "Sonnet 4.5");
    ("claude-sonnet-4-20250514", "Sonnet 4");
    ("claude-haiku-4-5-20251001", "Haiku 4.5");
    ("claude-3-5-sonnet-20241022", "Sonnet 3.5");
    ("claude-3-5-haiku-20241022", "Haiku 3.5");
    ("claude-3-opus-20240229", "Opus 3");
    ("claude-3-sonnet-20240229", "Sonnet 3");
    ("claude-3-haiku-20240307", "Haiku 3");
    ("gpt-4o", "GPT-4o");
    ("gpt-4o-mini", "GPT-4o Mini");
    ("gpt-4-turbo", "GPT-4 Turbo");
    ("gpt-5", "GPT-5");
    ("gpt-5.1", "GPT-5.1");
    ("o1-preview", "o1 Preview");
    ("o1-mini", "o1 Mini");
    ("o3-mini", "o3 Mini");
    ("gemini-2.0-flash", "Gemini 2.0 Flash");
    ("gemini-3-flash-preview", "Gemini 3 Flash");
    ("gemini-1.5-pro", "Gemini 1.5 Pro");
    ("deepseek-chat", "DeepSeek Chat");
    ("deepseek-coder", "DeepSeek Coder") ].

(** The table is read by its own entries only. *)
Definition getModelDisplayName (modelId : string) : string :=
  match Map_get modelNames modelId with
  | Some name => name
  | None =>
      let fallback := capitalize modelId in
      if startsWith modelId "claude-" then
        match split (replace modelId "claude-" EmptyString) "-"%char with
        | part0 :: version :: _ => capitalize part0 ++ " " ++ version
        | _ => fallback
        end
      else fallback
  end.

Definition providerNames : Map string :=
  [ ("anthropic", "Anthropic"); ("openai", "OpenAI"); ("google", "Google");
    ("mistral", "Mistral"); ("meta", "Meta"); ("deepseek", "DeepSeek");
    ("unknown", "Other") ].

Definition getProviderDisplayName (providerId : string) : string :=
  match Map_get providerNames providerId with
  | Some name => name
  | None => providerId
  end.

(** [totalTokens > 0 ? (count / totalTokens) * 100 : 0] *)
Definition percentageOf (count totalTokens : Z) : Q :=
  if 0 <? totalTokens then (inject_Z count / inject_Z totalTokens) * 100 else 0.

(** The body of the loop over [modelTokenTotals.entries()]. *)
Definition modelStep (usageSummary : AmpUsageSummary)
  (acc : list AmpModelStats * Map Z) (entry : string * Z)
  : list AmpModelStats * Map Z :=
  let '(modelStats, providerCounts) := acc in
  let '(modelId, tokens) := entry in
  if tokens <=? 0 then acc
  else
    let providerId := resolveProviderId modelId in
    let credits := orZero (Map_get (modelCreditTotals usageSummary) modelId) in
    let providerCounts' :=
      Map_set providerCounts providerId
        (orZero (Map_get providerCounts providerId) + tokens) in
    ((modelStats ++
        [ {| model_id := modelId;
             model_name := getModelDisplayName modelId;
             model_providerId := providerId;
             model_count := tokens;
             model_percentage :=
               percentageOf tokens (Collector.totalTokens usageSummary);
             model_credits := credits |} ])%list,
     providerCounts').

Definition buildModelStats (usageSummary : AmpUsageSummary)
  : list AmpModelStats * Map Z :=
  fold_left (modelStep usageSummary) (modelTokenTotals usageSummary) ([], []).

Definition rankModels (modelStats : list AmpModelStats) : list AmpModelStats :=
  firstn 3 (Array_sort (fun a b => model_count b - model_count a) modelStats).

Definition rankProviders (totalTokens : Z) (providerCounts : Map Z)
  : list AmpProviderStats :=
  map (fun '(id, count) =>
         {| provider_id := id;
            provider_name := getProviderDisplayName id;
            provider_count := count;
            provider_percentage := percentageOf count totalTokens |})
      (firstn 3 (Array_sort (fun a b => snd b - snd a) providerCounts)).

Definition updateAt (i : nat) (f : Z -> Z) (l : list Z) : list Z :=
  firstn i l ++ match skipn i l with
                | [] => []
                | x :: rest => f x :: rest
                end.

(** The body of the loop that fills [weekdayCounts]; an invalid date has
    no weekday and leaves the seven slots alone. *)
Definition weekdayStep (env : Env) (weekdayCounts : list Z) (entry : string * Z)
  : list Z :=
  let '(entryDate, messageCount) := entry in
  match Date_parse entryDate with
  | Some t => updateAt (Z.to_nat (getDay env t)) (fun c => c + messageCount) weekdayCounts
  | None => weekdayCounts
  end.

Definition WEEKDAY_NAMES_FULL : list string :=
  ["Sunday"; "Monday"; "Tuesday"; "Wednesday"; "Thursday"; "Friday"; "Saturday"].

Definition buildWeekdayActivity (counts : list Z) : AmpWeekdayActivity :=
  let '(mostActiveDay, maxCount) :=
    fold_left
      (fun '(best, mx) i =>
         if nth i counts 0 >? mx then (i, nth i counts 0) else (best, mx))
      (seq 0 7) (0%nat, 0) in
  {| weekday_counts := counts;
     weekday_mostActiveDay := Z.of_nat mostActiveDay;
     weekday_mostActiveDayName := nth mostActiveDay WEEKDAY_NAMES_FULL EmptyString;
     weekday_maxCount := maxCount |}.

Definition monthNames : list string :=
  ["Jan"; "Feb"; "Mar"; "Apr"; "May"; "Jun"; "Jul"; "Aug"; "Sep"; "Oct"; "Nov"; "Dec"].

(** The month name and day of a key that names a calendar day. *)
Definition formatMonthDay (key : string) : option string :=
  match parseDateKey key with
  | Some (y, m, d) =>
      if 100 <=? y
      then Some (nth (Z.to_nat (m - 1)) monthNames EmptyString ++ " " ++ Number_toString d)
      else None
  | None => None
  end.

Definition findMostActiveDay (dailyActivity : Map Z) : option MostActiveDay :=
  if Map_size dailyActivity =? 0 then None
  else
    let '(maxDate, maxCount) :=
      fold_left
        (fun '(maxDate, maxCount) '(date, count) =>
           if count >? maxCount then (date, count) else (maxDate, maxCount))
        dailyActivity (EmptyString, 0) in
    if String.eqb maxDate EmptyString then None
    else Some {| day_date := maxDate;
                 day_count := maxCount;
                 day_formattedDate := formatMonthDay maxDate |}.

(** [cacheRead > 0 ? (cacheRead / (cacheRead + input)) * 100 : 0] *)
Definition cacheHitRateOf (usageSummary : AmpUsageSummary) : Q :=
  if 0 <? Collector.totalCacheReadTokens usageSummary
  then (inject_Z (Collector.totalCacheReadTokens usageSummary)
        / inject_Z (Collector.totalCacheReadTokens usageSummary
                    + Collector.totalInputTokens usageSummary)) * 100
  else 0.

(** The state of the loop of [calculateStreaks] over [activeDates]. *)
Record StreakState : Type := {
  st_maxStreak : Z;
  st_tempStreak : Z;
  st_tempStreakStart : nat;
  st_maxStreakStart : nat;
  st_maxStreakEnd : nat
}.

(** [Math.round((curr.getTime() - prev.getTime()) / (1000*60*60*24))];
    [None] is [NaN]. *)
Definition diffDays (prev curr : string) : option Z :=
  match Date_parse prev, Date_parse curr with
  | Some prevDate, Some currDate =>
      Some (Math_round_div (currDate - prevDate) (1000 * 60 * 60 * 24))
  | _, _ => None
  end.

Definition isOne (x : option Z) : bool :=
  match x with
  | Some v => v =? 1
  | None => false
  end.

(** The body of the loop [for (let i = 1; i < activeDates.length; i++)]. *)
Definition streakStep (activeDates : list string) (st : StreakState) (i : nat)
  : StreakState :=
  if isOne (diffDays (nth (i - 1) activeDates EmptyString) (nth i activeDates EmptyString))
  then
    let tempStreak := st_tempStreak st + 1 in
    if tempStreak >? st_maxStreak st
    then {| st_maxStreak := tempStreak;
            st_tempStreak := tempStreak;
            st_tempStreakStart := st_tempStreakStart st;
            st_maxStreakStart := st_tempStreakStart st;
            st_maxStreakEnd := i |}
    else {| st_maxStreak := st_maxStreak st;
            st_tempStreak := tempStreak;
            st_tempStreakStart := st_tempStreakStart st;
            st_maxStreakStart := st_maxStreakStart st;
            st_maxStreakEnd := st_maxStreakEnd st |}
  else {| st_maxStreak := st_maxStreak st;
          st_tempStreak := 1;
          st_tempStreakStart := i;
          st_maxStreakStart := st_maxStreakStart st;
          st_maxStreakEnd := st_maxStreakEnd st |}.

Definition initialStreakState : StreakState :=
  {| st_maxStreak := 1;
     st_tempStreak := 1;
     st_tempStreakStart := 0;
     st_maxStreakStart := 0;
     st_maxStreakEnd := 0 |}.

Definition streakLoop (activeDates : list string) : StreakState :=
  fold_left (streakStep activeDates) (seq 1 (List.length activeDates - 1))
    initialStreakState.

(** [for (let i = maxStreakStart; i <= maxStreakEnd; i++) maxStreakDays.add(activeDates[i])] *)
Definition collectStreakDays (activeDates : list string) (st : StreakState) : StrSet :=
  fold_left (fun days i => Set_add days (nth i activeDates EmptyString))
    (seq (st_maxStreakStart st) (st_maxStreakEnd st + 1 - st_maxStreakStart st)) [].

(** The year's dates of the map, sorted. *)
Definition activeDatesOf (dailyActivity : Map Z) (year : Z) : list string :=
  Array_sort defaultCompare
    (filter (fun date => startsWith date (Number_toString year))
       (Map_keys dailyActivity)).

(** The [while (true)] loop of [countStreakBackwards]; [fuel] bounds the
    number of iterations and [None] means the bound was reached before
    the loop left. *)
Fixpoint countStreakLoop (env : Env) (fuel : nat) (dailyActivity : Map Z)
  (streak checkDate : Z) : option Z :=
  match fuel with
  | O => None
  | S fuel' =>
      let checkDate := checkDate - 24 * 60 * 60 * 1000 in
      if Map_has dailyActivity (formatDateKey env checkDate)
      then countStreakLoop env fuel' dailyActivity (streak + 1) checkDate
      else Some streak
  end.

Definition countStreakBackwards (env : Env) (fuel : nat) (dailyActivity : Map Z)
  (startDate : Z) : option Z :=
  countStreakLoop env fuel dailyActivity 1 startDate.

(** Lines 202-209 of stats.ts: the clock is read for [today], again for
    [yesterday], and a third time for the start of the backward walk. *)
Definition currentStreakOf (env : Env) (fuel : nat) (dailyActivity : Map Z)
  : Clock (option Z) :=
  now1 <- Date_now env ;;
  let today := formatDateKey env now1 in
  now2 <- Date_now env ;;
  let yesterday := formatDateKey env (now2 - 24 * 60 * 60 * 1000) in
  if Map_has dailyActivity today then
    now3 <- Date_now env ;;
    ret (countStreakBackwards env fuel dailyActivity now3)
  else if Map_has dailyActivity yesterday then
    now3 <- Date_now env ;;
    ret (countStreakBackwards env fuel dailyActivity (now3 - 24 * 60 * 60 * 1000))
  else ret (Some 0).

Definition calculateStreaks (env : Env) (fuel : nat) (dailyActivity : Map Z)
  (year : Z) : Clock (option Streaks) :=
  let activeDates := activeDatesOf dailyActivity year in
  if Z.of_nat (List.length activeDates) =? 0
  then ret (Some {| streaks_maxStreak := 0;
                    streaks_currentStreak := 0;
                    streaks_maxStreakDays := [] |})
  else
    let st := streakLoop activeDates in
    let maxStreakDays := collectStreakDays activeDates st in
    current <- currentStreakOf env fuel dailyActivity ;;
    ret (match current with
         | Some currentStreak =>
             Some {| streaks_maxStreak := st_maxStreak st;
                     streaks_currentStreak := currentStreak;
                     streaks_maxStreakDays := maxStreakDays |}
         | None => None
         end).

(** Lines 7-84 of [calculateAmpStats]: everything after the summary has
    been collected. *)
Definition calculateStats (env : Env) (fuel : nat) (usageSummary : AmpUsageSummary)
  (year : Z) : Clock (option AmpCodeStats) :=
  let dailyActivity := Collector.dailyActivity usageSummary in
  let weekdayCounts :=
    fold_left (weekdayStep env) dailyActivity [0; 0; 0; 0; 0; 0; 0] in
  let '(modelStats, providerCounts) := buildModelStats usageSummary in
  let totalTokens := Collector.totalTokens usageSummary in
  let topModels := rankModels modelStats in
  let topProviders := rankProviders totalTokens providerCounts in
  streaks <- calculateStreaks env fuel dailyActivity year ;;
  let mostActiveDay := findMostActiveDay dailyActivity in
  let weekdayActivity := buildWeekdayActivity weekdayCounts in
  let cacheHitRate := cacheHitRateOf usageSummary in
  firstSessionDate <-
    match Collector.firstTimestamp usageSummary with
    | Some first => ret first
    | None => Date_now env
    end ;;
  now <- Date_now env ;;
  let daysSinceFirstSession :=
    Math_floor_div (now - firstSessionDate) (1000 * 60 * 60 * 24) in
  ret (match streaks with
       | None => None
       | Some s =>
           Some {| year := year;
                   firstSessionDate := firstSessionDate;
                   daysSinceFirstSession := daysSinceFirstSession;
                   totalSessions := Collector.totalSessions usageSummary;
                   totalMessages := Collector.totalMessages usageSummary;
                   totalProjects := Set_size (projects usageSummary);
                   totalInputTokens := Collector.totalInputTokens usageSummary;
                   totalOutputTokens := Collector.totalOutputTokens usageSummary;
                   totalTokens := Collector.totalTokens usageSummary;
                   totalCacheReadTokens := Collector.totalCacheReadTokens usageSummary;
                   cacheHitRate := cacheHitRate;
                   totalCredits := Collector.totalCredits usageSummary;
                   hasCredits := Collector.totalCredits usageSummary >? 0;
                   topModels := topModels;
                   topProviders := topProviders;
                   maxStreak := streaks_maxStreak s;
                   currentStreak := streaks_currentStreak s;
                   maxStreakDays := streaks_maxStreakDays s;
                   dailyActivity := dailyActivity;
                   mostActiveDay := mostActiveDay;
                   weekdayActivity := weekdayActivity |}
       end).

(** [calculateAmpStats(year)] *)
Definition calculateAmpStats (env : Env) (fuel : nat)
  (threadFiles : list (option AmpThread)) (year : Z) : Clock (option AmpCodeStats) :=
  let usageSummary := collectAmpUsageSummary env threadFiles year in
  calculateStats env fuel usageSummary year.

End Stats.


(** ** image/template.tsx and image/heatmap.tsx: what is computed for the card

    Of the components only the numbers they compute are modelled: the
    heights of the bars of the weekly chart, the largest count of the
    heatmap and the count of a cell, and the month labels above the
    heatmap.  Fractions and pixel positions are exact rationals. *)

Module Template.
Import JS Dates Stats.

Definition BAR_HEIGHT : Z := 100.

(** [Math.round(x)]: the nearest integer, halves upwards. *)
Definition Math_round (x : Q) : Z := Qfloor (x + (1 # 2))%Q.

(** The height of one bar of [WeeklyBarChart]. *)
Definition barHeight (maxCount count : Z) : Z :=
  let heightPercent :=
    if 0 <? maxCount then (inject_Z count / inject_Z maxCount)%Q else 0%Q in
  Z.max 8 (Math_round (heightPercent * inject_Z BAR_HEIGHT)%Q).

(** [counts.map((count, i) => ...)] of [WeeklyBarChart]: for each bar
    its height and whether it is highlighted. *)
Definition WeeklyBarChart (weekdayActivity : AmpWeekdayActivity)
  : list (Z * bool) :=
  map (fun '(i, count) =>
         (barHeight (weekday_maxCount weekdayActivity) count,
          Z.of_nat i =? weekday_mostActiveDay weekdayActivity))
      (combine (seq 0 (List.length (weekday_counts weekdayActivity)))
         (weekday_counts weekdayActivity)).

(** [counts.length > 0 ? Math.max(...counts) : 0] of
    [AmpActivityHeatmap]. *)
Definition heatmapMaxCount (dailyActivity : Map Z) : Z :=
  match map snd dailyActivity with
  | [] => 0
  | count :: counts => fold_left Z.max counts count
  end.

(** [dateStr ? dailyActivity.get(dateStr) || 0 : 0] of [DayCell];
    [None] is a null cell. *)
Definition cellCount (dailyActivity : Map Z) (dateStr : option string) : Z :=
  match dateStr with
  | Some s => if String.eqb s EmptyString then 0 else orZero (Map_get dailyActivity s)
  | None => 0
  end.

(** The white space [parseInt] skips, among the code units below 256. *)
Definition isWhiteSpace (c : ascii) : bool :=
  let n := nat_of_ascii c in
  ((9 <=? n)%nat && (n <=? 13)%nat) || (n =? 32)%nat || (n =? 160)%nat.

Fixpoint trimStart (s : string) : string :=
  match s with
  | EmptyString => EmptyString
  | String c s' => if isWhiteSpace c then trimStart s' else s
  end.

(** The value of the longest prefix of decimal digits; [None] when
    there is no digit. *)
Fixpoint digitsPrefix (acc : option Z) (s : string) : option Z :=
  match s with
  | EmptyString => acc
  | String c s' =>
      match digitValue c with
      | Some d =>
          digitsPrefix
            (Some (10 * match acc with Some a => a | None => 0 end + d)) s'
      | None => acc
      end
  end.

(** [parseInt(s, 10)]; [None] is [NaN]. *)
Definition parseInt10 (s : string) : option Z :=
  match trimStart s with
  | String "-" rest => option_map Z.opp (digitsPrefix None rest)
  | String "+" rest => digitsPrefix None rest
  | s' => digitsPrefix None s'
  end.

(** [parseInt(dateStr.split("-")[1], 10) - 1]; a missing second part is
    [undefined], which [parseInt] reads as [NaN]. *)
Definition monthOf (dateStr : string) : option Z :=
  match split dateStr "-"%char with
  | _ :: part :: _ => option_map (fun v => v - 1) (parseInt10 part)
  | _ => None
  end.

(** The first entry of a week that is neither null nor empty. *)
Fixpoint firstDate (week : list (option string)) : option string :=
  match week with
  | [] => None
  | Some dateStr :: week' =>
      if String.eqb dateStr EmptyString then firstDate week' else Some dateStr
  | None :: week' => firstDate week'
  end.

Record MonthLabel : Type := {
  (** [None] is [NaN] *)
  label_month : option Z;
  label_x : Q
}.

(** [a !== b] on numbers: [NaN] differs from everything. *)
Definition strictNotEqual (a b : option Z) : bool :=
  match a, b with
  | Some x, Some y => negb (x =? y)
  | _, _ => true
  end.

(** The loop of [getMonthLabels] from the week [weekIndex] on. *)
Fixpoint monthLabelsFrom (weekIndex : Z) (lastMonth : option Z)
  (weeks : list (list (option string))) (cellSize gap : Q) : list MonthLabel :=
  match weeks with
  | [] => []
  | week :: weeks' =>
      match firstDate week with
      | Some dateStr =>
          let month := monthOf dateStr in
          if strictNotEqual month lastMonth
          then {| label_month := month;
                  label_x := (inject_Z weekIndex * (cellSize + gap))%Q |}
               :: monthLabelsFrom (weekIndex + 1) month weeks' cellSize gap
          else monthLabelsFrom (weekIndex + 1) lastMonth weeks' cellSize gap
      | None => monthLabelsFrom (weekIndex + 1) lastMonth weeks' cellSize gap
      end
  end.

Definition getMonthLabels (weeks : list (list (option string)))
  (cellSize gap : Q) : list MonthLabel :=
  monthLabelsFrom 0 (Some (-1)) weeks cellSize gap.

End Template.

(** * Properties *)

Import JS Dates Collector Provider Stats.

(** ** Strings *)

Section StringFacts.

(** [s] begins with [p]. *)
Definition StartsWith (s p : string) : Prop := exists rest, s = p ++ rest.

(** [p] occurs in [s]. *)
Definition Contains (s p : string) : Prop := exists pre post, s = pre ++ p ++ post.

Lemma append_nil_r (s : string) : s ++ EmptyString = s.
Proof. induction s as [|a s IH]; simpl; [reflexivity | now rewrite IH]. Qed.

Lemma append_assoc (a b c : string) : (a ++ b) ++ c = a ++ (b ++ c).
Proof. induction a as [|x a IH]; simpl; [reflexivity | now rewrite IH]. Qed.

Lemma length_append (a b : string) :
  String.length (a ++ b) = (String.length a + String.length b)%nat.
Proof. induction a as [|x a IH]; simpl; [reflexivity | now rewrite IH]. Qed.

Lemma startsWith_spec (s p : string) : startsWith s p = true <-> StartsWith s p.
Proof.
  revert s. induction p as [|b p IH]; intros s; simpl.
  - split; [intros _; now exists s | reflexivity].
  - destruct s as [|a s].
    + split; [discriminate | intros [rest H]; discriminate].
    + destruct (Ascii.eqb_spec a b) as [->|Hab].
      * rewrite IH. split; intros [rest H]; exists rest.
        -- now rewrite H.
        -- now injection H.
      * split; [discriminate | intros [rest H]; injection H; intros; contradiction].
Qed.

Lemma startsWith_false (s p : string) : startsWith s p = false <-> ~ StartsWith s p.
Proof.
  rewrite <- startsWith_spec. destruct (startsWith s p); split; congruence.
Qed.

Lemma includes_spec (s p : string) : includes s p = true <-> Contains s p.
Proof.
  induction s as [|a s IH]; simpl.
  - destruct (startsWith EmptyString p) eqn:E.
    + split; [intros _ | reflexivity].
      apply startsWith_spec in E. destruct E as [rest E].
      exists EmptyString, rest. exact E.
    + split; [discriminate |].
      intros [pre [post H]]. apply startsWith_false in E. exfalso. apply E.
      destruct pre; [| discriminate]. simpl in H. now exists post.
  - destruct (startsWith (String a s) p) eqn:E.
    + split; [intros _ | reflexivity].
      apply startsWith_spec in E. destruct E as [rest E].
      exists EmptyString, rest. exact E.
    + rewrite IH. split.
      * intros [pre [post H]]. exists (String a pre), post. simpl. now rewrite H.
      * intros [pre [post H]]. destruct pre as [|x pre].
        -- apply startsWith_false in E. exfalso. apply E. now exists post.
        -- simpl in H. injection H as _ H. now exists pre, post.
Qed.

Lemma includes_false (s p : string) : includes s p = false <-> ~ Contains s p.
Proof.
  rewrite <- includes_spec. destruct (includes s p); split; congruence.
Qed.

End StringFacts.

(** ** Provider resolution *)

Section ProviderRules.

Inductive Rule : Type :=
| Prefix (p : string)
| Substring (p : string).

Definition ruleHolds (r : Rule) (modelId : string) : Prop :=
  match r with
  | Prefix p => StartsWith modelId p
  | Substring p => Contains modelId p
  end.

(** The rules of the specification, in the order they are checked. *)
Definition providerRules : list (Rule * string) :=
  [ (Prefix "claude", "anthropic");
    (Prefix "gpt", "openai"); (Prefix "o1", "openai"); (Prefix "o3", "openai");
    (Prefix "gemini", "google");
    (Substring "mistral", "mistral"); (Substring "mixtral", "mistral");
    (Substring "llama", "meta");
    (Substring "deepseek", "deepseek") ].

(** [resolvesTo rules modelId p]: the first rule of [rules] that holds of
    [modelId] names the provider [p]; [unknown] when none holds. *)
Inductive resolvesTo : list (Rule * string) -> string -> string -> Prop :=
| resolves_none modelId : resolvesTo [] modelId "unknown"
| resolves_here r p rules modelId :
    ruleHolds r modelId -> resolvesTo ((r, p) :: rules) modelId p
| resolves_later r p rules modelId q :
    ~ ruleHolds r modelId -> resolvesTo rules modelId q ->
    resolvesTo ((r, p) :: rules) modelId q.

Lemma resolvesTo_functional rules modelId p q :
  resolvesTo rules modelId p -> resolvesTo rules modelId q -> p = q.
Proof.
  intros Hp. revert q. induction Hp; intros q' Hq; inversion Hq; subst;
    try reflexivity; try contradiction.
  now apply IHHp.
Qed.

Ltac prefix_rule p E :=
  match goal with
  | |- context [startsWith ?s p] =>
      destruct (startsWith s p) eqn:E;
      [apply startsWith_spec in E | apply startsWith_false in E];
      cbv beta iota delta [orb];
      [now apply resolves_here | apply resolves_later; [exact E |]]
  end.

Ltac substring_rule p E :=
  match goal with
  | |- context [includes ?s p] =>
      destruct (includes s p) eqn:E;
      [apply includes_spec in E | apply includes_false in E];
      cbv beta iota delta [orb];
      [now apply resolves_here | apply resolves_later; [exact E |]]
  end.

(** C8. Provider resolution applies the rules in order: starts-with
    claude, anthropic; starts-with gpt, o1 or o3, openai; starts-with
    gemini, google; contains mistral or mixtral, mistral; contains llama,
    meta; contains deepseek, deepseek; otherwise unknown.  So "gpt-4o"
    resolves to "openai" and "mystery-llm" to "unknown". *)
Theorem resolveProviderId_rules :
  (forall modelId, resolvesTo providerRules modelId (resolveProviderId modelId))
  /\ resolveProviderId "gpt-4o" = "openai"
  /\ resolveProviderId "mystery-llm" = "unknown".
Proof.
  split; [| split; reflexivity].
  intros modelId. unfold resolveProviderId, providerRules.
  prefix_rule "claude" E1.
  prefix_rule "gpt" E2.
  prefix_rule "o1" E3.
  prefix_rule "o3" E4.
  prefix_rule "gemini" E5.
  substring_rule "mistral" E6.
  substring_rule "mixtral" E7.
  substring_rule "llama" E8.
  substring_rule "deepseek" E9.
  apply resolves_none.
Qed.

End ProviderRules.

(** ** The calendar *)

Section CalendarFacts.

Lemma civil_from_days_month_day (z : Z) :
  let '(y, m, d) := civil_from_days z in
  1 <= m <= 12 /\ 1 <= d <= 31.
Proof.
  unfold civil_from_days.
  set (z' := z + 719468). set (era := z' / 146097).
  set (doe := z' - era * 146097).
  assert (Hdoe : 0 <= doe < 146097) by (subst doe era; Z.div_mod_to_equations; lia).
  clearbody doe. clear z' era.
  set (yoe := (doe - doe / 1460 + doe / 36524 - doe / 146096) / 365).
  set (doy := doe - (365 * yoe + yoe / 4 - yoe / 100)).
  assert (Hdoy : 0 <= doy <= 365)
    by (subst doy yoe; Z.div_mod_to_equations; lia).
  clearbody doy. clear Hdoe.
  set (mp := (5 * doy + 2) / 153).
  assert (Hmp : 0 <= mp <= 11) by (subst mp; Z.div_mod_to_equations; lia).
  destruct (mp <? 10) eqn:E; [apply Z.ltb_lt in E | apply Z.ltb_ge in E];
    (split; [lia |]); subst mp; Z.div_mod_to_equations; lia.
Qed.

Lemma days_from_civil_from_days (z : Z) :
  let '(y, m, d) := civil_from_days z in days_from_civil y m d = z.
Proof.
  unfold civil_from_days, days_from_civil.
  set (z' := z + 719468). set (era := z' / 146097).
  set (doe := z' - era * 146097).
  assert (Hdoe : 0 <= doe < 146097) by (subst doe era; Z.div_mod_to_equations; lia).
  assert (Hz : z = era * 146097 + doe - 719468) by (subst doe z'; lia).
  clearbody doe. clearbody era. clear z'.
  set (yoe := (doe - doe / 1460 + doe / 36524 - doe / 146096) / 365).
  assert (Hyoe : 0 <= yoe <= 399) by (subst yoe; Z.div_mod_to_equations; lia).
  set (doy := doe - (365 * yoe + yoe / 4 - yoe / 100)).
  assert (Hdoy : 0 <= doy <= 365)
    by (subst doy yoe; Z.div_mod_to_equations; lia).
  assert (Hdoe' : doe = yoe * 365 + yoe / 4 - yoe / 100 + doy) by (subst doy; lia).
  clearbody doy. clearbody yoe. clear Hdoe.
  set (mp := (5 * doy + 2) / 153).
  assert (Hmp : 0 <= mp <= 11) by (subst mp; Z.div_mod_to_equations; lia).
  set (m := if mp <? 10 then mp + 3 else mp - 9).
  assert (Hm : (if 2 <? m then m - 3 else m + 9) = mp).
  { subst m. destruct (mp <? 10) eqn:E;
      [apply Z.ltb_lt in E | apply Z.ltb_ge in E].
    - destruct (2 <? mp + 3) eqn:E2; [lia | apply Z.ltb_ge in E2; lia].
    - destruct (2 <? mp - 9) eqn:E2; [apply Z.ltb_lt in E2; lia | lia]. }
  rewrite Hm.
  assert (Hy : (if m <=? 2
                then (if m <=? 2 then yoe + era * 400 + 1 else yoe + era * 400) - 1
                else (if m <=? 2 then yoe + era * 400 + 1 else yoe + era * 400))
               = yoe + era * 400) by (destruct (m <=? 2); lia).
  rewrite Hy.
  assert (Hera : (yoe + era * 400) / 400 = era) by (Z.div_mod_to_equations; lia).
  rewrite Hera.
  replace (yoe + era * 400 - era * 400) with yoe by lia.
  subst mp. Z.div_mod_to_equations; lia.
Qed.

Lemma leap_day_year doe :
  0 <= doe < 146097 ->
  let yoe := (doe - doe / 1460 + doe / 36524 - doe / 146096) / 365 in
  let doy := doe - (365 * yoe + yoe / 4 - yoe / 100) in
  doy = 365 ->
  (yoe + 1) mod 4 = 0 /\ ((yoe + 1) mod 100 <> 0 \/ (yoe + 1) mod 400 = 0).
Proof.
  intros H yoe doy. subst doy yoe. Z.div_mod_to_equations; lia.
Qed.

Lemma isLeapYear_shift y era : isLeapYear (y + era * 400) = isLeapYear y.
Proof.
  unfold isLeapYear.
  replace ((y + era * 400) mod 4) with (y mod 4) by (Z.div_mod_to_equations; lia).
  replace ((y + era * 400) mod 100) with (y mod 100) by (Z.div_mod_to_equations; lia).
  replace ((y + era * 400) mod 400) with (y mod 400) by (Z.div_mod_to_equations; lia).
  reflexivity.
Qed.

Lemma civil_from_days_valid (z : Z) :
  let '(y, m, d) := civil_from_days z in
  1 <= m <= 12 /\ 1 <= d <= daysInMonth y m.
Proof.
  unfold civil_from_days.
  set (z' := z + 719468). set (era := z' / 146097).
  set (doe := z' - era * 146097).
  assert (Hdoe : 0 <= doe < 146097) by (subst doe era; Z.div_mod_to_equations; lia).
  clearbody doe. clearbody era. clear z'.
  pose proof (leap_day_year doe Hdoe) as Hleap. cbv zeta in Hleap.
  set (yoe := (doe - doe / 1460 + doe / 36524 - doe / 146096) / 365) in *.
  set (doy := doe - (365 * yoe + yoe / 4 - yoe / 100)) in *.
  assert (Hdoy : 0 <= doy <= 365)
    by (subst doy yoe; Z.div_mod_to_equations; lia).
  clearbody doy. clearbody yoe. clear Hdoe.
  set (mp := (5 * doy + 2) / 153).
  assert (Hmp : 0 <= mp <= 11) by (subst mp; Z.div_mod_to_equations; lia).
  assert (Hd : 1 <= doy - (153 * mp + 2) / 5 + 1 <= 31
               /\ (mp = 1 \/ mp = 3 \/ mp = 6 \/ mp = 8 -> doy - (153 * mp + 2) / 5 + 1 <= 30)
               /\ (mp = 11 -> doy - (153 * mp + 2) / 5 + 1 <= 29)
               /\ (mp = 11 -> doy - (153 * mp + 2) / 5 + 1 = 29 -> doy = 365))
    by (subst mp; Z.div_mod_to_equations; lia).
  set (d := doy - (153 * mp + 2) / 5 + 1) in *. clearbody d.
  clearbody mp.
  assert (Hcases : mp = 0 \/ mp = 1 \/ mp = 2 \/ mp = 3 \/ mp = 4 \/ mp = 5 \/ mp = 6
                   \/ mp = 7 \/ mp = 8 \/ mp = 9 \/ mp = 10 \/ mp = 11) by lia.
  destruct Hd as (Hd1 & Hd30 & Hd29 & Hd365).
  repeat (destruct Hcases as [-> | Hcases]); try subst mp;
    match goal with
    | |- context [if ?c <? 10 then ?a else ?b] =>
        let v := eval vm_compute in (if c <? 10 then a else b) in
        change (if c <? 10 then a else b) with v
    end;
    unfold daysInMonth;
    repeat match goal with
           | |- context [Z.eqb (Zpos ?a) (Zpos ?b)] =>
               let v := eval vm_compute in (Z.eqb (Zpos a) (Zpos b)) in
               change (Z.eqb (Zpos a) (Zpos b)) with v
           | |- context [Z.leb (Zpos ?a) (Zpos ?b)] =>
               let v := eval vm_compute in (Z.leb (Zpos a) (Zpos b)) in
               change (Z.leb (Zpos a) (Zpos b)) with v
           end;
    cbv beta iota delta [orb];
    try (split; lia).
  - split; [lia |]. split; [lia |].
    replace (yoe + era * 400 + 1) with (yoe + 1 + era * 400) by lia.
    rewrite isLeapYear_shift.
    destruct (isLeapYear (yoe + 1)) eqn:E; [apply Hd29; reflexivity |].
    assert (d <= 29) by (apply Hd29; reflexivity).
    destruct (Z.eq_dec d 29) as [E29 | ]; [| lia].
    exfalso. specialize (Hd365 eq_refl E29). specialize (Hleap Hd365).
    unfold isLeapYear in E. destruct Hleap as [H4 [H100 | H400]].
    + rewrite H4 in E. simpl in E. apply Z.eqb_neq in H100. rewrite H100 in E. discriminate.
    + rewrite H4, H400 in E. simpl in E. rewrite orb_true_r in E. discriminate.
Qed.

End CalendarFacts.

(** ** Date keys *)

Section DateKeyFacts.

(** [f] holds of the [n] integers from [z] on. *)
Fixpoint all_from (n : nat) (z : Z) (f : Z -> bool) : bool :=
  match n with
  | O => true
  | S k => f z && all_from k (z + 1) f
  end.

Lemma all_from_spec (f : Z -> bool) (n : nat) (z : Z) :
  all_from n z f = true ->
  forall k, z <= k < z + Z.of_nat n -> f k = true.
Proof.
  revert z. induction n as [|n IH]; intros z H k Hk.
  - simpl in Hk. lia.
  - simpl in H. apply andb_true_iff in H. destruct H as [Hz Hrest].
    destruct (Z.eq_dec k z) as [-> | Hne]; [exact Hz |].
    apply (IH (z + 1) Hrest). lia.
Qed.

Definition digitChar (v : Z) : ascii := ascii_of_nat (48 + Z.to_nat v).

(** Two and four decimal digits. *)
Definition fmt2 (m : Z) : string :=
  String (digitChar (m / 10)) (String (digitChar (m mod 10)) EmptyString).

Definition fmt4 (y : Z) : string := fmt2 (y / 100) ++ fmt2 (y mod 100).

Definition fmt2_ok (m : Z) : bool :=
  String.eqb (padStart2 (Number_toString m)) (fmt2 m).

Definition fmt4_ok (y : Z) : bool := String.eqb (Number_toString y) (fmt4 y).

Definition digits2_ok (m : Z) : bool :=
  match fmt2 m with
  | String a (String b EmptyString) =>
      match digits2 a b with
      | Some v => v =? m
      | None => false
      end
  | _ => false
  end.

Lemma fmt2_checked : all_from (Z.to_nat 100) 0 fmt2_ok = true.
Proof. vm_compute. reflexivity. Qed.

Lemma fmt4_checked : all_from (Z.to_nat 9000) 1000 fmt4_ok = true.
Proof. vm_compute. reflexivity. Qed.

Lemma digits2_checked : all_from (Z.to_nat 100) 0 digits2_ok = true.
Proof. vm_compute. reflexivity. Qed.

Lemma padStart2_fmt2 (m : Z) :
  0 <= m <= 99 -> padStart2 (Number_toString m) = fmt2 m.
Proof.
  intros H. apply String.eqb_eq.
  apply (all_from_spec fmt2_ok (Z.to_nat 100) 0 fmt2_checked m).
  rewrite Z2Nat.id; lia.
Qed.

Lemma Number_toString_fmt4 (y : Z) :
  1000 <= y <= 9999 -> Number_toString y = fmt4 y.
Proof.
  intros H. apply String.eqb_eq.
  apply (all_from_spec fmt4_ok (Z.to_nat 9000) 1000 fmt4_checked y).
  rewrite Z2Nat.id; lia.
Qed.

Lemma digits2_fmt2 (m : Z) :
  0 <= m <= 99 ->
  digits2 (digitChar (m / 10)) (digitChar (m mod 10)) = Some m.
Proof.
  intros H.
  assert (Hm : digits2_ok m = true).
  { apply (all_from_spec digits2_ok (Z.to_nat 100) 0 digits2_checked m).
    rewrite Z2Nat.id; lia. }
  unfold digits2_ok, fmt2 in Hm.
  destruct (digits2 _ _) as [v|]; [| discriminate].
  apply Z.eqb_eq in Hm. now subst.
Qed.

Lemma Number_toString_inj (a b : Z) :
  Number_toString a = Number_toString b -> a = b.
Proof.
  unfold Number_toString. intros H.
  assert (R : forall z, NilZero.int_of_string (NilZero.string_of_int (Z.to_int z))
                        = Some (Z.to_int z)).
  { intros z. apply NilZero.isi; destruct z; simpl; try discriminate;
      intros E; injection E as E;
      exact (DecimalPos.Unsigned.to_uint_nonnil _ E). }
  apply DecimalZ.to_int_inj.
  pose proof (R a) as Ra. rewrite H, R in Ra. now injection Ra.
Qed.

Lemma append_inj_suffix (a b s t : string) :
  String.length s = String.length t -> a ++ s = b ++ t -> a = b /\ s = t.
Proof.
  revert b. induction a as [|x a IH]; intros b Hlen H.
  - destruct b as [|y b]; [now split |].
    simpl in H. apply (f_equal String.length) in H.
    simpl in H. rewrite length_append in H. lia.
  - destruct b as [|y b].
    + simpl in H. apply (f_equal String.length) in H.
      simpl in H. rewrite length_append in H. lia.
    + simpl in H. injection H as -> H.
      destruct (IH b Hlen H) as [-> ->]. now split.
Qed.

Lemma formatDateKey_dateKeyOfDay (env : Env) (t : Z) :
  formatDateKey env t = dateKeyOfDay (localDay env t).
Proof.
  unfold formatDateKey, dateKeyOfDay, getFullYear, getMonth, getDate.
  destruct (civil_from_days (localDay env t)) as [[y m] d].
  now replace (m - 1 + 1) with m by lia.
Qed.

(** The key of a day shows its civil date in fixed-width month and day. *)
Lemma dateKeyOfDay_shape (n : Z) :
  let '(y, m, d) := civil_from_days n in
  dateKeyOfDay n = Number_toString y ++ "-" ++ fmt2 m ++ "-" ++ fmt2 d.
Proof.
  unfold dateKeyOfDay.
  pose proof (civil_from_days_month_day n) as H.
  destruct (civil_from_days n) as [[y m] d]. destruct H as [Hm Hd].
  now rewrite !padStart2_fmt2 by lia.
Qed.

Lemma fmt2_inj (a b : Z) : 0 <= a <= 99 -> 0 <= b <= 99 -> fmt2 a = fmt2 b -> a = b.
Proof.
  intros Ha Hb H.
  pose proof (digits2_fmt2 a Ha) as Da. pose proof (digits2_fmt2 b Hb) as Db.
  unfold fmt2 in H. injection H as H1 H2. rewrite H1, H2 in Da. congruence.
Qed.

Lemma dateKeyOfDay_inj (n n' : Z) : dateKeyOfDay n = dateKeyOfDay n' -> n = n'.
Proof.
  intros H.
  pose proof (dateKeyOfDay_shape n) as S1. pose proof (dateKeyOfDay_shape n') as S2.
  pose proof (civil_from_days_month_day n) as V1.
  pose proof (civil_from_days_month_day n') as V2.
  pose proof (days_from_civil_from_days n) as R1.
  pose proof (days_from_civil_from_days n') as R2.
  destruct (civil_from_days n) as [[y m] d].
  destruct (civil_from_days n') as [[y' m'] d'].
  rewrite S1, S2 in H.
  replace (Number_toString y ++ "-" ++ fmt2 m ++ "-" ++ fmt2 d)
    with (Number_toString y ++ ("-" ++ fmt2 m ++ "-" ++ fmt2 d)) in H by reflexivity.
  apply append_inj_suffix in H; [| reflexivity].
  destruct H as [Hy Hrest].
  apply Number_toString_inj in Hy.
  simpl in Hrest. injection Hrest as Hm1 Hm2 Hd1 Hd2.
  assert (Hm : m = m') by (apply fmt2_inj; [lia | lia | unfold fmt2; congruence]).
  assert (Hd : d = d') by (apply fmt2_inj; [lia | lia | unfold fmt2; congruence]).
  subst. reflexivity.
Qed.

(** A key of a four-digit year is a date-only string the runtime parses
    to midnight UTC of its day. *)
Lemma Date_parse_dateKeyOfDay (n : Z) :
  1000 <= yearOfDay n <= 9999 ->
  Date_parse (dateKeyOfDay n) = Some (n * MS_PER_DAY).
Proof.
  unfold yearOfDay. intros Hy.
  pose proof (dateKeyOfDay_shape n) as S1.
  pose proof (civil_from_days_valid n) as V.
  pose proof (days_from_civil_from_days n) as R.
  destruct (civil_from_days n) as [[y m] d]. destruct V as [Hm Hd].
  assert (Hd31 : d <= 31).
  { unfold daysInMonth in Hd.
    destruct (m =? 2); [destruct (isLeapYear y); lia |].
    destruct ((m =? 4) || (m =? 6) || (m =? 9) || (m =? 11)); lia. }
  rewrite S1, Number_toString_fmt4 by lia.
  unfold Date_parse, parseDateKey, fmt4.
  pose proof (digits2_fmt2 (y / 100) ltac:(Z.div_mod_to_equations; lia)) as D1.
  pose proof (digits2_fmt2 (y mod 100) ltac:(Z.div_mod_to_equations; lia)) as D2.
  pose proof (digits2_fmt2 m ltac:(lia)) as D3.
  pose proof (digits2_fmt2 d ltac:(lia)) as D4.
  unfold fmt2 in *. cbn [append].
  unfold digits4. rewrite D1, D2, D3, D4.
  replace (100 * (y / 100) + y mod 100) with y by (Z.div_mod_to_equations; lia).
  replace ((1 <=? m) && (m <=? 12) && (1 <=? d) && (d <=? daysInMonth y m)) with true.
  - now rewrite R.
  - symmetry. rewrite !andb_true_iff. repeat split; apply Z.leb_le; lia.
Qed.

End DateKeyFacts.

(** ** The order of days and of their keys *)

Section DateOrder.

Definition marchYear (y m : Z) : Z := if m <=? 2 then y - 1 else y.
Definition monthIndex (m : Z) : Z := if 2 <? m then m - 3 else m + 9.
Definition yearStart (yy : Z) : Z :=
  let era := yy / 400 in
  let yoe := yy - era * 400 in
  era * 146097 + yoe * 365 + yoe / 4 - yoe / 100.

Lemma days_from_civil_split y m d :
  days_from_civil y m d
  = yearStart (marchYear y m) + (153 * monthIndex m + 2) / 5 + d - 1 - 719468.
Proof. unfold days_from_civil, yearStart, marchYear, monthIndex. lia. Qed.

Lemma yearStart_succ n :
  yearStart (n + 1) = yearStart n + 365 + (if isLeapYear (n + 1) then 1 else 0).
Proof.
  unfold yearStart, isLeapYear.
  destruct (Z.eqb_spec ((n + 1) mod 4) 0) as [H4|H4];
    destruct (Z.eqb_spec ((n + 1) mod 100) 0) as [H100|H100];
    destruct (Z.eqb_spec ((n + 1) mod 400) 0) as [H400|H400];
    cbv beta iota delta [andb orb negb];
    Z.div_mod_to_equations; lia.
Qed.

Lemma yearStart_mono n n' : n <= n' -> yearStart n <= yearStart n'.
Proof.
  intros H. replace n' with (n + Z.of_nat (Z.to_nat (n' - n))) by lia.
  induction (Z.to_nat (n' - n)) as [|k IH].
  - rewrite Z.add_0_r. lia.
  - replace (n + Z.of_nat (S k)) with (n + Z.of_nat k + 1) by lia.
    rewrite yearStart_succ. destruct (isLeapYear _); lia.
Qed.

Lemma dayOfYear_bound y m d :
  1 <= m <= 12 -> 1 <= d <= daysInMonth y m ->
  0 <= (153 * monthIndex m + 2) / 5 + d - 1
    <= 364 + (if isLeapYear (marchYear y m + 1) then 1 else 0).
Proof.
  intros Hm Hd. unfold daysInMonth in Hd. unfold monthIndex, marchYear.
  destruct (Z.eqb_spec m 2) as [->|N2].
  - change (2 <=? 2) with true. change (2 <? 2) with false. cbv iota.
    replace (y - 1 + 1) with y by lia.
    change ((153 * (2 + 9) + 2) / 5) with 337.
    destruct (isLeapYear y); lia.
  - assert (d <= 31) by (destruct (_ || _) in Hd; lia).
    destruct (Z.ltb_spec 2 m); destruct (Z.leb_spec m 2);
      destruct (isLeapYear _); Z.div_mod_to_equations; lia.
Qed.

Lemma doy_mono_aux m d m' d' y :
  1 <= m <= 12 -> 1 <= d <= daysInMonth y m ->
  1 <= m' <= 12 -> 1 <= d' ->
  monthIndex m < monthIndex m' ->
  (153 * monthIndex m + 2) / 5 + d - 1 < (153 * monthIndex m' + 2) / 5 + d' - 1.
Proof.
  intros Hm Hd Hm' Hd' Hlt. unfold monthIndex in *.
  assert (Hd30 : d <= 31 /\ (m = 4 \/ m = 6 \/ m = 9 \/ m = 11 -> d <= 30) /\ (m = 2 -> d <= 29)).
  { unfold daysInMonth in Hd.
    destruct (Z.eqb_spec m 2); [destruct (isLeapYear y); lia |].
    destruct (Z.eqb_spec m 4); [simpl in Hd; lia|].
    destruct (Z.eqb_spec m 6); [simpl in Hd; lia|].
    destruct (Z.eqb_spec m 9); [simpl in Hd; lia|].
    destruct (Z.eqb_spec m 11); [simpl in Hd; lia|].
    simpl in Hd. lia. }
  clear Hd.
  destruct (Z.ltb_spec 2 m); destruct (Z.ltb_spec 2 m');
  (Z.div_mod_to_equations; lia).
Qed.

Lemma days_from_civil_mono y m d y' m' d' :
  1 <= m <= 12 -> 1 <= d <= daysInMonth y m ->
  1 <= m' <= 12 -> 1 <= d' <= daysInMonth y' m' ->
  y < y' \/ (y = y' /\ (m < m' \/ (m = m' /\ d < d'))) ->
  days_from_civil y m d < days_from_civil y' m' d'.
Proof.
  intros Hm Hd Hm' Hd' Hlt. rewrite !days_from_civil_split.
  destruct (Z.eq_dec (marchYear y m) (marchYear y' m')) as [E|NE].
  - rewrite E.
    assert (Hmi : monthIndex m < monthIndex m' \/ (m = m' /\ d < d')).
    { unfold marchYear, monthIndex in *.
      destruct (Z.leb_spec m 2); destruct (Z.leb_spec m' 2);
        destruct (Z.ltb_spec 2 m); destruct (Z.ltb_spec 2 m'); lia. }
    destruct Hmi as [Hmi | [-> Hdd]]; [| lia].
    pose proof (doy_mono_aux m d m' d' y Hm Hd Hm' ltac:(lia) Hmi). lia.
  - assert (Hyy : marchYear y m + 1 <= marchYear y' m').
    { unfold marchYear in *.
      destruct (Z.leb_spec m 2); destruct (Z.leb_spec m' 2); lia. }
    pose proof (yearStart_mono _ _ Hyy) as Hs. rewrite yearStart_succ in Hs.
    pose proof (dayOfYear_bound y m d Hm Hd).
    pose proof (dayOfYear_bound y' m' d' Hm' Hd').
    lia.
Qed.

(** The order of two civil dates: years, then months, then days. *)
Definition compareCivil (a b : Z * Z * Z) : comparison :=
  let '(y, m, d) := a in
  let '(y', m', d') := b in
  match Z.compare y y' with
  | Eq => match Z.compare m m' with
          | Eq => Z.compare d d'
          | c => c
          end
  | c => c
  end.

Lemma compareCivil_days (n n' : Z) :
  compareCivil (civil_from_days n) (civil_from_days n') = Z.compare n n'.
Proof.
  pose proof (civil_from_days_valid n) as V.
  pose proof (civil_from_days_valid n') as V'.
  pose proof (days_from_civil_from_days n) as R.
  pose proof (days_from_civil_from_days n') as R'.
  destruct (civil_from_days n) as [[y m] d].
  destruct (civil_from_days n') as [[y' m'] d'].
  destruct V as [Vm Vd]. destruct V' as [Vm' Vd'].
  unfold compareCivil. symmetry.
  destruct (Z.compare_spec y y') as [Ey|Ly|Gy].
  - subst y'. destruct (Z.compare_spec m m') as [Em|Lm|Gm].
    + subst m'. destruct (Z.compare_spec d d') as [Ed|Ld|Gd].
      * subst d'. apply Z.compare_eq_iff. congruence.
      * apply Z.compare_lt_iff. rewrite <- R, <- R'.
        apply days_from_civil_mono; auto.
      * apply Z.compare_gt_iff. rewrite <- R, <- R'.
        apply days_from_civil_mono; auto.
    + apply Z.compare_lt_iff. rewrite <- R, <- R'.
      apply days_from_civil_mono; auto.
    + apply Z.compare_gt_iff. rewrite <- R, <- R'.
      apply days_from_civil_mono; auto.
  - apply Z.compare_lt_iff. rewrite <- R, <- R'.
    apply days_from_civil_mono; auto.
  - apply Z.compare_gt_iff. rewrite <- R, <- R'.
    apply days_from_civil_mono; auto.
Qed.

Definition digitOrder_ok (k : Z) : bool :=
  match Ascii.compare (digitChar (k / 10)) (digitChar (k mod 10)),
        Z.compare (k / 10) (k mod 10) with
  | Eq, Eq | Lt, Lt | Gt, Gt => true
  | _, _ => false
  end.

Lemma digitOrder_checked : all_from (Z.to_nat 100) 0 digitOrder_ok = true.
Proof. vm_compute. reflexivity. Qed.

Lemma compare_digitChar (a b : Z) :
  0 <= a <= 9 -> 0 <= b <= 9 ->
  Ascii.compare (digitChar a) (digitChar b) = Z.compare a b.
Proof.
  intros Ha Hb.
  assert (H : digitOrder_ok (10 * a + b) = true).
  { apply (all_from_spec digitOrder_ok (Z.to_nat 100) 0 digitOrder_checked).
    rewrite Z2Nat.id; lia. }
  unfold digitOrder_ok in H.
  replace ((10 * a + b) / 10) with a in H by (Z.div_mod_to_equations; lia).
  replace ((10 * a + b) mod 10) with b in H by (Z.div_mod_to_equations; lia).
  destruct (Ascii.compare _ _), (Z.compare a b); congruence.
Qed.

Lemma compare_fmt2_append (a b : Z) (s t : string) :
  0 <= a <= 99 -> 0 <= b <= 99 ->
  String.compare (fmt2 a ++ s) (fmt2 b ++ t)
  = match Z.compare a b with
    | Eq => String.compare s t
    | c => c
    end.
Proof.
  intros Ha Hb. unfold fmt2. cbn [append String.compare].
  rewrite !compare_digitChar by (Z.div_mod_to_equations; lia).
  destruct (Z.compare_spec (a / 10) (b / 10)) as [E1|L1|G1].
  - destruct (Z.compare_spec (a mod 10) (b mod 10)) as [E0|L0|G0].
    + replace (a ?= b) with Eq; [reflexivity |].
      symmetry. apply Z.compare_eq_iff. Z.div_mod_to_equations; lia.
    + replace (a ?= b) with Lt; [reflexivity |].
      symmetry. apply Z.compare_lt_iff. Z.div_mod_to_equations; lia.
    + replace (a ?= b) with Gt; [reflexivity |].
      symmetry. apply Z.compare_gt_iff. Z.div_mod_to_equations; lia.
  - replace (a ?= b) with Lt; [reflexivity |].
    symmetry. apply Z.compare_lt_iff. Z.div_mod_to_equations; lia.
  - replace (a ?= b) with Gt; [reflexivity |].
    symmetry. apply Z.compare_gt_iff. Z.div_mod_to_equations; lia.
Qed.

Lemma compare_fmt4_append (a b : Z) (s t : string) :
  0 <= a <= 9999 -> 0 <= b <= 9999 ->
  String.compare (fmt4 a ++ s) (fmt4 b ++ t)
  = match Z.compare a b with
    | Eq => String.compare s t
    | c => c
    end.
Proof.
  intros Ha Hb. unfold fmt4. rewrite !append_assoc.
  rewrite compare_fmt2_append by (Z.div_mod_to_equations; lia).
  rewrite compare_fmt2_append by (Z.div_mod_to_equations; lia).
  destruct (Z.compare_spec (a / 100) (b / 100)) as [E1|L1|G1].
  - destruct (Z.compare_spec (a mod 100) (b mod 100)) as [E0|L0|G0].
    + replace (a ?= b) with Eq; [reflexivity |].
      symmetry. apply Z.compare_eq_iff. Z.div_mod_to_equations; lia.
    + replace (a ?= b) with Lt; [reflexivity |].
      symmetry. apply Z.compare_lt_iff. Z.div_mod_to_equations; lia.
    + replace (a ?= b) with Gt; [reflexivity |].
      symmetry. apply Z.compare_gt_iff. Z.div_mod_to_equations; lia.
  - replace (a ?= b) with Lt; [reflexivity |].
    symmetry. apply Z.compare_lt_iff. Z.div_mod_to_equations; lia.
  - replace (a ?= b) with Gt; [reflexivity |].
    symmetry. apply Z.compare_gt_iff. Z.div_mod_to_equations; lia.
Qed.

(** The key of a day of a four-digit year. *)
Lemma dateKeyOfDay_fmt (n : Z) :
  1000 <= yearOfDay n <= 9999 ->
  let '(y, m, d) := civil_from_days n in
  dateKeyOfDay n = fmt4 y ++ "-" ++ fmt2 m ++ "-" ++ fmt2 d.
Proof.
  unfold yearOfDay. intros Hy. pose proof (dateKeyOfDay_shape n) as S1.
  destruct (civil_from_days n) as [[y m] d].
  now rewrite S1, Number_toString_fmt4.
Qed.

(** Among days of four-digit years, keys compare as their days do. *)
Lemma compare_dateKeyOfDay (n n' : Z) :
  1000 <= yearOfDay n <= 9999 -> 1000 <= yearOfDay n' <= 9999 ->
  String.compare (dateKeyOfDay n) (dateKeyOfDay n') = Z.compare n n'.
Proof.
  intros Hy Hy'. rewrite <- compareCivil_days.
  pose proof (dateKeyOfDay_fmt n Hy) as S1.
  pose proof (dateKeyOfDay_fmt n' Hy') as S2.
  pose proof (civil_from_days_month_day n) as V.
  pose proof (civil_from_days_month_day n') as V'.
  unfold yearOfDay in Hy, Hy'.
  destruct (civil_from_days n) as [[y m] d].
  destruct (civil_from_days n') as [[y' m'] d'].
  rewrite S1, S2. unfold compareCivil.
  rewrite compare_fmt4_append by lia.
  destruct (y ?= y'); try reflexivity.
  cbn [append String.compare].
  change (Ascii.compare "-"%char "-"%char) with Eq. cbv iota.
  rewrite compare_fmt2_append by lia.
  destruct (m ?= m'); try reflexivity.
  cbn [append String.compare].
  change (Ascii.compare "-"%char "-"%char) with Eq. cbv iota.
  rewrite <- (append_nil_r (fmt2 d)), <- (append_nil_r (fmt2 d')).
  rewrite compare_fmt2_append by lia.
  destruct (d ?= d'); reflexivity.
Qed.

End DateOrder.

(** ** Runs of adjacent elements *)

Section Runs.

Local Open Scope list_scope.

Context {A : Type} (adj : A -> A -> bool).

(** Walk the list from the left: an element adjacent to its predecessor
    extends the current run, any other element starts a new run. *)
Fixpoint runsFrom (finished : list (list A)) (cur : list A) (prev : A)
  (rest : list A) : list (list A) :=
  match rest with
  | [] => finished ++ [cur]
  | x :: rest' =>
      if adj prev x then runsFrom finished (cur ++ [x]) x rest'
      else runsFrom (finished ++ [cur]) [x] x rest'
  end.

Definition runs (l : list A) : list (list A) :=
  match l with
  | [] => []
  | x :: rest => runsFrom [] [x] x rest
  end.

(** Keep the longest run seen; a later run of equal length does not
    replace it. *)
Definition pickLonger (best r : list A) : list A :=
  if (List.length best <? List.length r)%nat then r else best.

Definition longestFirst (rs : list (list A)) : list A :=
  fold_left pickLonger rs [].

(** Every two neighbours of the list are adjacent. *)
Fixpoint chain (l : list A) : Prop :=
  match l with
  | [] => True
  | x :: l' => match l' with
               | [] => True
               | y :: _ => adj x y = true /\ chain l'
               end
  end.

Lemma chain_snoc (l : list A) (d x : A) :
  l <> [] -> chain l -> adj (last l d) x = true -> chain (l ++ [x]).
Proof.
  induction l as [|a l IH]; intros Hne Hc Hadj; [congruence |].
  destruct l as [|b l].
  - simpl in *. auto.
  - change ((a :: b :: l) ++ [x]) with (a :: (b :: l) ++ [x]).
    destruct Hc as [Hab Hc]. split; [exact Hab |].
    apply IH; [discriminate | exact Hc | exact Hadj].
Qed.

Lemma concat_runsFrom finished cur prev rest :
  List.concat (runsFrom finished cur prev rest) = List.concat finished ++ cur ++ rest.
Proof.
  revert finished cur prev. induction rest as [|x rest IH]; intros; simpl.
  - rewrite concat_app. simpl. now rewrite !app_nil_r.
  - destruct (adj prev x); rewrite IH.
    + now rewrite <- app_assoc.
    + rewrite concat_app. simpl. rewrite app_nil_r. now rewrite <- app_assoc.
Qed.

(** The runs of a list are a partition of it into consecutive pieces. *)
Lemma concat_runs (l : list A) : List.concat (runs l) = l.
Proof. destruct l as [|x l]; [reflexivity |]. apply concat_runsFrom. Qed.

Lemma runsFrom_chains finished cur prev rest :
  Forall (fun r => r <> [] /\ chain r) finished ->
  cur <> [] -> chain cur -> last cur prev = prev ->
  Forall (fun r => r <> [] /\ chain r) (runsFrom finished cur prev rest).
Proof.
  revert finished cur prev.
  induction rest as [|x rest IH]; intros finished cur prev Hf Hne Hc Hl; simpl.
  - apply Forall_app. split; [exact Hf |]. constructor; [now split | constructor].
  - destruct (adj prev x) eqn:E.
    + apply IH; [exact Hf | now destruct cur | | now rewrite last_last].
      apply chain_snoc with (d := prev); [exact Hne | exact Hc | now rewrite Hl].
    + apply IH; [| discriminate | exact I | reflexivity].
      apply Forall_app. split; [exact Hf |]. constructor; [now split | constructor].
Qed.

(** Every run is non-empty and made of adjacent neighbours. *)
Lemma runs_chains (l : list A) : Forall (fun r => r <> [] /\ chain r) (runs l).
Proof.
  destruct l as [|x l]; [constructor |].
  apply runsFrom_chains; [constructor | discriminate | exact I | reflexivity].
Qed.

Lemma longestFirst_snoc (rs : list (list A)) (r : list A) :
  longestFirst (rs ++ [r]) = pickLonger (longestFirst rs) r.
Proof. unfold longestFirst. now rewrite fold_left_app. Qed.

Lemma pickLonger_extend (B cur : list A) (x : A) :
  pickLonger B (cur ++ [x])
  = pickLonger (pickLonger B cur) (cur ++ [x]).
Proof.
  unfold pickLonger. rewrite length_app. simpl.
  destruct (List.length B <? List.length cur)%nat eqn:E1.
  - apply Nat.ltb_lt in E1.
    replace (List.length B <? List.length cur + 1)%nat with true
      by (symmetry; apply Nat.ltb_lt; lia).
    replace (List.length cur <? List.length cur + 1)%nat with true
      by (symmetry; apply Nat.ltb_lt; lia).
    reflexivity.
  - reflexivity.
Qed.

Lemma longestFirst_In (rs : list (list A)) :
  rs <> [] -> (forall r, In r rs -> r <> []) -> In (longestFirst rs) rs.
Proof.
  induction rs as [|r rs IH] using rev_ind; intros Hne Hall; [congruence |].
  rewrite longestFirst_snoc. unfold pickLonger.
  destruct (List.length (longestFirst rs) <? List.length r)%nat eqn:E.
  - apply in_or_app. right. now left.
  - apply in_or_app. left. destruct rs as [|r0 rs'].
    + exfalso.
      assert (r <> []) by (apply Hall; apply in_or_app; right; now left).
      destruct r; [congruence | discriminate E].
    + apply IH; [discriminate |].
      intros r' Hr'. apply Hall. apply in_or_app. now left.
Qed.

(** No run is longer than the chosen one. *)
Lemma longestFirst_longest (rs : list (list A)) (r : list A) :
  In r rs -> (List.length r <= List.length (longestFirst rs))%nat.
Proof.
  induction rs as [|r0 rs IH] using rev_ind; intros Hin; [destruct Hin |].
  rewrite longestFirst_snoc. unfold pickLonger.
  apply in_app_or in Hin.
  destruct (List.length (longestFirst rs) <? List.length r0)%nat eqn:E;
    [apply Nat.ltb_lt in E | apply Nat.ltb_ge in E];
    destruct Hin as [Hin | [<- | []]]; try specialize (IH Hin); lia.
Qed.

(** The chosen run is the first of its length: every run before it is
    strictly shorter. *)
Lemma longestFirst_first (rs : list (list A)) :
  rs <> [] -> (forall r, In r rs -> r <> []) ->
  exists before after,
    rs = before ++ longestFirst rs :: after
    /\ forall r, In r before ->
         (List.length r < List.length (longestFirst rs))%nat.
Proof.
  induction rs as [|r0 rs IH] using rev_ind; intros Hne Hall; [congruence |].
  rewrite longestFirst_snoc. unfold pickLonger.
  destruct (List.length (longestFirst rs) <? List.length r0)%nat eqn:E;
    [apply Nat.ltb_lt in E | apply Nat.ltb_ge in E].
  - exists rs, []. split; [reflexivity |].
    intros r Hr. pose proof (longestFirst_longest rs r Hr). lia.
  - destruct rs as [|r1 rs'].
    + exfalso.
      assert (r0 <> []) by (apply Hall; now left).
      destruct r0; [congruence | cbn in E; lia].
    + destruct IH as (before & after & Heq & Hlt); [discriminate | |].
      { intros r Hr. apply Hall. apply in_or_app. now left. }
      exists before, (after ++ [r0]). split; [| exact Hlt].
      rewrite Heq at 1. now rewrite <- app_assoc.
Qed.

End Runs.

Section RunsMap.

Local Open Scope list_scope.

Context {A B : Type} (f : A -> B) (adjA : A -> A -> bool) (adjB : B -> B -> bool).

Lemma runsFrom_map finished cur prev rest :
  Forall (fun a => Forall (fun b => adjB (f a) (f b) = adjA a b) (prev :: rest))
    (prev :: rest) ->
  runsFrom adjB (map (map f) finished) (map f cur) (f prev) (map f rest)
  = map (map f) (runsFrom adjA finished cur prev rest).
Proof.
  revert finished cur prev.
  induction rest as [|x rest IH]; intros finished cur prev H; simpl.
  - now rewrite map_app.
  - assert (E : adjB (f prev) (f x) = adjA prev x).
    { inversion H as [|? ? Hp _]; subst. inversion Hp as [|? ? _ Hp']; subst.
      now inversion Hp'. }
    assert (H' : Forall (fun a => Forall (fun b => adjB (f a) (f b) = adjA a b)
                                    (x :: rest)) (x :: rest)).
    { inversion H as [|? ? _ Ht]; subst.
      eapply Forall_impl; [| exact Ht].
      intros a Ha. now inversion Ha. }
    rewrite E. destruct (adjA prev x).
    + rewrite <- IH by exact H'. now rewrite map_app.
    + rewrite <- IH by exact H'. now rewrite map_app.
Qed.

Lemma runs_map (l : list A) :
  Forall (fun a => Forall (fun b => adjB (f a) (f b) = adjA a b) l) l ->
  runs adjB (map f l) = map (map f) (runs adjA l).
Proof.
  destruct l as [|x l]; [reflexivity |]. intros H.
  apply (runsFrom_map [] [x] x l H).
Qed.

Lemma longestFirst_map (rs : list (list A)) :
  longestFirst (map (map f) rs) = map f (longestFirst rs).
Proof.
  induction rs as [|r rs IH] using rev_ind; [reflexivity |].
  rewrite map_app. simpl. rewrite !longestFirst_snoc, IH.
  unfold pickLonger. rewrite !length_map.
  now destruct (_ <? _)%nat.
Qed.

End RunsMap.

(** ** Sorting *)

Section SortFacts.

Local Open Scope list_scope.

Context {A : Type} (cmp : A -> A -> Z).

Lemma insertSorted_perm (x : A) (l : list A) :
  Permutation (insertSorted cmp x l) (x :: l).
Proof.
  induction l as [|y l IH]; simpl; [reflexivity |].
  destruct (cmp x y <=? 0); [reflexivity |].
  rewrite IH. apply perm_swap.
Qed.

(** Sorting rearranges, it neither drops nor adds. *)
Lemma Array_sort_perm (l : list A) : Permutation (Array_sort cmp l) l.
Proof.
  induction l as [|x l IH]; simpl; [reflexivity |].
  unfold Array_sort in *. simpl. rewrite insertSorted_perm. now constructor.
Qed.

Lemma Array_sort_length (l : list A) :
  List.length (Array_sort cmp l) = List.length l.
Proof. apply Permutation_length, Array_sort_perm. Qed.

Lemma Array_sort_NoDup (l : list A) : NoDup l -> NoDup (Array_sort cmp l).
Proof.
  intros H. eapply Permutation_NoDup; [| exact H].
  symmetry. apply Array_sort_perm.
Qed.

(** [le] is the order the comparison function stands for. *)
Variable le : A -> A -> Prop.
Hypothesis cmp_le : forall a b, cmp a b <= 0 -> le a b.
Hypothesis cmp_gt : forall a b, 0 < cmp a b -> le b a.
Hypothesis le_trans : forall a b c, le a b -> le b c -> le a c.

Lemma insertSorted_sorted (x : A) (l : list A) :
  StronglySorted le l -> StronglySorted le (insertSorted cmp x l).
Proof.
  induction l as [|y l IH]; intros Hs; simpl.
  - constructor; constructor.
  - inversion Hs as [|? ? Hl Hy]; subst.
    destruct (cmp x y <=? 0) eqn:E.
    + apply Z.leb_le in E. constructor; [exact Hs |].
      constructor; [now apply cmp_le |].
      eapply Forall_impl; [| exact Hy].
      intros a Ha. eapply le_trans; [apply cmp_le; exact E | exact Ha].
    + apply Z.leb_gt in E. constructor; [now apply IH |].
      eapply Permutation_Forall; [symmetry; apply insertSorted_perm |].
      constructor; [now apply cmp_gt | exact Hy].
Qed.

Lemma Array_sort_sorted (l : list A) : StronglySorted le (Array_sort cmp l).
Proof.
  induction l as [|x l IH]; [constructor |].
  unfold Array_sort in *. simpl. now apply insertSorted_sorted.
Qed.

End SortFacts.

Section SortMap.

Local Open Scope list_scope.

Context {A B : Type} (f : A -> B) (cmpA : A -> A -> Z) (cmpB : B -> B -> Z).
Variable P : A -> Prop.
Hypothesis cmp_agree :
  forall a b, P a -> P b -> (cmpB (f a) (f b) <=? 0) = (cmpA a b <=? 0).

Lemma insertSorted_map (x : A) (l : list A) :
  P x -> Forall P l ->
  insertSorted cmpB (f x) (map f l) = map f (insertSorted cmpA x l).
Proof.
  intros Hx Hl. induction Hl as [|y l Hy Hl IH]; simpl; [reflexivity |].
  rewrite cmp_agree by assumption.
  destruct (cmpA x y <=? 0); simpl; [reflexivity | now rewrite IH].
Qed.

(** Sorting the images equals mapping the sorted list when the two
    comparisons agree. *)
Lemma Array_sort_map (l : list A) :
  Forall P l -> Array_sort cmpB (map f l) = map f (Array_sort cmpA l).
Proof.
  intros Hl. induction Hl as [|x l Hx Hl IH]; [reflexivity |].
  unfold Array_sort in *. simpl. rewrite IH.
  apply insertSorted_map; [exact Hx |].
  eapply Permutation_Forall; [| exact Hl].
  symmetry. apply (Array_sort_perm cmpA).
Qed.

End SortMap.

(** ** The loop of [calculateStreaks] *)

Section StreakLoop.

Local Open Scope list_scope.

(** The test [diffDays === 1] of the loop. *)
Definition adjacentKeys (a b : string) : bool := isOne (diffDays a b).

(** The elements at indices [a], ..., [b - 1]. *)
Definition slice {A} (l : list A) (a b : nat) : list A := firstn (b - a) (skipn a l).

Lemma skipn_cons_nth {A} (l : list A) (i : nat) (d : A) :
  (i < List.length l)%nat -> skipn i l = nth i l d :: skipn (S i) l.
Proof.
  revert i. induction l as [|x l IH]; intros i Hi; [simpl in Hi; lia |].
  destruct i as [|i]; [reflexivity |].
  simpl in Hi. simpl skipn at 1. rewrite (IH i) by lia. reflexivity.
Qed.

Lemma firstn_S_nth {A} (l : list A) (i : nat) (d : A) :
  (i < List.length l)%nat -> firstn (S i) l = firstn i l ++ [nth i l d].
Proof.
  revert i. induction l as [|x l IH]; intros i Hi; [simpl in Hi; lia |].
  destruct i as [|i]; [reflexivity |].
  simpl in Hi. rewrite !firstn_cons. rewrite (IH i) by lia. reflexivity.
Qed.

Lemma slice_S {A} (l : list A) (a i : nat) (d : A) :
  (a <= i)%nat -> (i < List.length l)%nat ->
  slice l a (S i) = slice l a i ++ [nth i l d].
Proof.
  intros Ha Hi. unfold slice.
  replace (S i - a)%nat with (S (i - a)) by lia.
  rewrite (firstn_S_nth _ _ d) by (rewrite length_skipn; lia).
  rewrite nth_skipn. now replace (a + (i - a))%nat with i by lia.
Qed.

Lemma slice_length {A} (l : list A) (a b : nat) :
  (b <= List.length l)%nat -> List.length (slice l a b) = (b - a)%nat.
Proof. intros H. unfold slice. rewrite length_firstn, length_skipn. lia. Qed.

Lemma slice_one {A} (l : list A) (i : nat) (d : A) :
  (i < List.length l)%nat -> slice l i (S i) = [nth i l d].
Proof.
  intros Hi. unfold slice. replace (S i - i)%nat with 1%nat by lia.
  now rewrite (skipn_cons_nth _ _ d Hi).
Qed.

Lemma slice_nths {A} (l : list A) (a n : nat) (d : A) :
  (a + n <= List.length l)%nat ->
  map (fun i => nth i l d) (seq a n) = slice l a (a + n).
Proof.
  revert a. induction n as [|n IH]; intros a H.
  - unfold slice. now replace (a + 0 - a)%nat with 0%nat by lia.
  - rewrite seq_S, map_app. simpl.
    replace (a + S n)%nat with (S (a + n)) by lia.
    rewrite (slice_S _ _ _ d) by lia. now rewrite IH by lia.
Qed.

Lemma Set_has_In (s : StrSet) (x : string) : Set_has s x = true <-> In x s.
Proof.
  unfold Set_has. rewrite existsb_exists. split.
  - intros [y [Hy E]]. apply String.eqb_eq in E. now subst.
  - intros H. exists x. split; [exact H | apply String.eqb_refl].
Qed.

Lemma fold_Set_add_NoDup (l : list string) (acc : StrSet) :
  NoDup (acc ++ l) -> fold_left Set_add l acc = acc ++ l.
Proof.
  revert acc. induction l as [|x l IH]; intros acc H; simpl.
  - now rewrite app_nil_r.
  - unfold Set_add at 2. destruct (Set_has acc x) eqn:E.
    + exfalso. apply Set_has_In in E.
      apply NoDup_remove_2 in H. apply H. apply in_or_app. now left.
    + rewrite IH; rewrite <- app_assoc; [reflexivity | exact H].
Qed.

Lemma fold_Set_add_nths (l : list string) (a n : nat) :
  NoDup l -> (a + n <= List.length l)%nat ->
  fold_left (fun days i => Set_add days (nth i l EmptyString)) (seq a n) []
  = slice l a (a + n).
Proof.
  intros Hnd Hlen.
  rewrite <- (slice_nths l a n EmptyString) by exact Hlen.
  assert (G : forall (idxs : list nat) acc,
             fold_left (fun days i => Set_add days (nth i l EmptyString)) idxs acc
             = fold_left Set_add (map (fun i => nth i l EmptyString) idxs) acc).
  { induction idxs as [|i idxs IH]; intros acc; [reflexivity | apply IH]. }
  rewrite G. rewrite fold_Set_add_NoDup; [reflexivity |].
  simpl. rewrite (slice_nths l a n EmptyString) by exact Hlen.
  unfold slice. rewrite <- (firstn_skipn a l) in Hnd.
  apply NoDup_app_remove_l in Hnd.
  rewrite <- (firstn_skipn (a + n - a) (skipn a l)) in Hnd.
  now apply NoDup_app_remove_r in Hnd.
Qed.

Ltac proj_simpl :=
  cbn [st_maxStreak st_tempStreak st_tempStreakStart st_maxStreakStart
       st_maxStreakEnd].

Variable dates : list string.

(** What the loop has established once index [k] is processed. *)
Definition LoopInv (k : nat) (st : StreakState) : Prop :=
  exists finished cur,
    runs adjacentKeys dates
    = runsFrom adjacentKeys finished cur (nth k dates EmptyString) (skipn (S k) dates)
    /\ cur = slice dates (st_tempStreakStart st) (S k)
    /\ (st_tempStreakStart st <= k)%nat
    /\ st_tempStreak st = Z.of_nat (S k - st_tempStreakStart st)
    /\ longestFirst (finished ++ [cur])
       = slice dates (st_maxStreakStart st) (S (st_maxStreakEnd st))
    /\ (st_maxStreakStart st <= st_maxStreakEnd st <= k)%nat
    /\ st_maxStreak st = Z.of_nat (S (st_maxStreakEnd st) - st_maxStreakStart st).

Lemma LoopInv_init : dates <> [] -> LoopInv 0 initialStreakState.
Proof.
  intros Hne. unfold LoopInv. destruct dates as [|x rest]; [congruence |].
  exists [], [x]. simpl. repeat split; try reflexivity; lia.
Qed.

Lemma LoopInv_step (k : nat) (st : StreakState) :
  (S k < List.length dates)%nat -> LoopInv k st ->
  LoopInv (S k) (streakStep dates st (S k)).
Proof.
  intros Hk (finished & cur & Hruns & Hcur & Hts & Htemp & Hbest & Hms & Hmax).
  rewrite (skipn_cons_nth dates (S k) EmptyString Hk) in Hruns. simpl runsFrom in Hruns.
  unfold streakStep. replace (S k - 1)%nat with k by lia.
  fold (adjacentKeys (nth k dates EmptyString) (nth (S k) dates EmptyString)).
  assert (Hlc : List.length cur = (S k - st_tempStreakStart st)%nat)
    by (rewrite Hcur; apply slice_length; lia).
  assert (Hlb : List.length (longestFirst (finished ++ [cur]))
                = (S (st_maxStreakEnd st) - st_maxStreakStart st)%nat)
    by (rewrite Hbest; apply slice_length; lia).
  destruct (adjacentKeys (nth k dates EmptyString) (nth (S k) dates EmptyString)) eqn:Eadj.
  - assert (Hcur' : cur ++ [nth (S k) dates EmptyString]
                    = slice dates (st_tempStreakStart st) (S (S k)))
      by (rewrite (slice_S _ _ _ EmptyString) by lia; now rewrite Hcur).
    assert (Hpick : longestFirst (finished ++ [cur ++ [nth (S k) dates EmptyString]])
                    = pickLonger (longestFirst (finished ++ [cur]))
                        (cur ++ [nth (S k) dates EmptyString])).
    { rewrite !longestFirst_snoc. apply pickLonger_extend. }
    destruct (st_tempStreak st + 1 >? st_maxStreak st) eqn:Egt.
    + apply Z.gtb_lt in Egt.
      exists finished, (cur ++ [nth (S k) dates EmptyString]). proj_simpl.
      split; [exact Hruns |]. split; [exact Hcur' |]. split; [lia |].
      split; [lia |]. split; [| split; lia].
      rewrite Hpick. unfold pickLonger. rewrite Hlb, length_app, Hlc.
      replace (_ <? _)%nat with true; [exact Hcur' |].
      symmetry. apply Nat.ltb_lt. cbn [List.length]. lia.
    + assert (Hle : st_tempStreak st + 1 <= st_maxStreak st).
      { destruct (Z.gtb_spec (st_tempStreak st + 1) (st_maxStreak st));
          [discriminate | lia]. }
      exists finished, (cur ++ [nth (S k) dates EmptyString]). proj_simpl.
      split; [exact Hruns |]. split; [exact Hcur' |]. split; [lia |].
      split; [lia |]. split; [| split; lia].
      rewrite Hpick. unfold pickLonger. rewrite Hlb, length_app, Hlc.
      replace (_ <? _)%nat with false; [exact Hbest |].
      symmetry. apply Nat.ltb_ge. cbn [List.length]. lia.
  - exists (finished ++ [cur]), [nth (S k) dates EmptyString]. proj_simpl.
    split; [exact Hruns |].
    split; [symmetry; apply slice_one; exact Hk |]. split; [lia |].
    split; [lia |]. split; [| split; lia].
    rewrite longestFirst_snoc. unfold pickLonger. rewrite Hlb.
    replace (_ <? _)%nat with false; [exact Hbest |].
    symmetry. apply Nat.ltb_ge. cbn [List.length]. lia.
Qed.

Lemma LoopInv_fold (m : nat) :
  dates <> [] -> (m < List.length dates)%nat ->
  LoopInv m (fold_left (streakStep dates) (seq 1 m) initialStreakState).
Proof.
  intros Hne. induction m as [|m IH]; intros Hm.
  - now apply LoopInv_init.
  - rewrite seq_S, fold_left_app. simpl.
    apply LoopInv_step; [exact Hm | apply IH; lia].
Qed.

(** The loop finds the first longest run of adjacent dates: its length
    is [maxStreak] and its members are what [maxStreakDays] receives. *)
Lemma streakLoop_longestFirst :
  dates <> [] -> NoDup dates ->
  st_maxStreak (streakLoop dates)
  = Z.of_nat (List.length (longestFirst (runs adjacentKeys dates)))
  /\ collectStreakDays dates (streakLoop dates)
     = longestFirst (runs adjacentKeys dates).
Proof.
  intros Hne Hnd.
  assert (Hlen : (0 < List.length dates)%nat)
    by (destruct dates; [congruence | simpl; lia]).
  destruct (LoopInv_fold (List.length dates - 1) Hne ltac:(lia))
    as (finished & cur & Hruns & Hcur & Hts & Htemp & Hbest & Hms & Hmax).
  fold (streakLoop dates) in *.
  replace (S (List.length dates - 1)) with (List.length dates) in Hruns by lia.
  rewrite skipn_all in Hruns. simpl in Hruns.
  rewrite Hruns, Hbest.
  split.
  - rewrite slice_length by lia. exact Hmax.
  - unfold collectStreakDays.
    replace (st_maxStreakEnd (streakLoop dates) + 1
             - st_maxStreakStart (streakLoop dates))%nat
      with (S (st_maxStreakEnd (streakLoop dates))
            - st_maxStreakStart (streakLoop dates))%nat by lia.
    rewrite fold_Set_add_nths by (auto; lia).
    f_equal. lia.
Qed.

End StreakLoop.

(** ** The backward walk of [countStreakBackwards] *)

Section BackwardWalk.

Local Open Scope list_scope.

(** A zone whose offset from UTC never changes. *)
Definition FixedOffset (env : Env) (off : Z) : Prop :=
  forall t, tzOffset env t = off.

(** The map has an entry for the day. *)
Definition activeDay (dailyActivity : Map Z) (day : Z) : bool :=
  Map_has dailyActivity (dateKeyOfDay day).

Lemma Map_get_In {V} (m : Map V) (k : string) :
  Map_get m k <> None <-> In k (Map_keys m).
Proof.
  induction m as [|[k' v] m IH]; simpl.
  - split; [congruence | intros []].
  - destruct (String.eqb_spec k' k) as [->|Hne].
    + split; [now left | discriminate].
    + rewrite IH. split; [now right | intros [E | H]; [congruence | exact H]].
Qed.

Lemma Map_has_In {V} (m : Map V) (k : string) :
  Map_has m k = true <-> In k (Map_keys m).
Proof.
  rewrite <- Map_get_In. unfold Map_has.
  destruct (Map_get m k); split; congruence.
Qed.

Lemma localDay_back (env : Env) (off t : Z) :
  FixedOffset env off ->
  localDay env (t - 24 * 60 * 60 * 1000) = localDay env t - 1.
Proof.
  intros H. unfold localDay. rewrite !H. unfold MS_PER_DAY.
  Z.div_mod_to_equations; lia.
Qed.

Lemma NoDup_map_injective {A B} (f : A -> B) (l : list A) :
  (forall a b, f a = f b -> a = b) -> NoDup l -> NoDup (map f l).
Proof.
  intros Hinj H. induction H as [|x l Hx Hl IH]; simpl; constructor; [| exact IH].
  intros Hin. apply in_map_iff in Hin. destruct Hin as [y [E Hy]].
  apply Hinj in E. now subst.
Qed.

(** Days that are all active cannot outnumber the entries of the map. *)
Lemma active_days_bounded (dailyActivity : Map Z) (day : Z) (n : nat) :
  (forall i, 1 <= i <= Z.of_nat n -> activeDay dailyActivity (day - i) = true) ->
  (n <= List.length dailyActivity)%nat.
Proof.
  intros H.
  set (keys := map (fun i => dateKeyOfDay (day - Z.of_nat i)) (seq 1 n)).
  assert (Hlen : List.length keys = n) by (subst keys; now rewrite length_map, length_seq).
  rewrite <- Hlen. replace (List.length dailyActivity)
    with (List.length (Map_keys dailyActivity)) by apply length_map.
  apply NoDup_incl_length.
  - subst keys. apply NoDup_map_injective; [| apply seq_NoDup].
    intros a b E. apply dateKeyOfDay_inj in E. lia.
  - intros k Hk. subst keys. apply in_map_iff in Hk.
    destruct Hk as [i [<- Hi]]. apply in_seq in Hi.
    apply Map_has_In. apply H. lia.
Qed.

(** What the loop returns: it leaves at the first inactive day before
    the start, having counted the active days in between; it runs out of
    fuel only if every day it looked at was active. *)
Lemma countStreakLoop_spec (env : Env) (off : Z) (dailyActivity : Map Z) :
  FixedOffset env off ->
  forall fuel streak checkDate,
    match countStreakLoop env fuel dailyActivity streak checkDate with
    | Some r =>
        exists j, 1 <= j <= Z.of_nat fuel /\ r = streak + j - 1
          /\ (forall i, 1 <= i < j ->
                activeDay dailyActivity (localDay env checkDate - i) = true)
          /\ activeDay dailyActivity (localDay env checkDate - j) = false
    | None =>
        forall i, 1 <= i <= Z.of_nat fuel ->
          activeDay dailyActivity (localDay env checkDate - i) = true
    end.
Proof.
  intros Hfix. induction fuel as [|fuel IH]; intros streak checkDate.
  - simpl. intros i Hi. lia.
  - cbn [countStreakLoop]. rewrite formatDateKey_dateKeyOfDay.
    rewrite (localDay_back env off) by exact Hfix.
    fold (activeDay dailyActivity (localDay env checkDate - 1)).
    destruct (activeDay dailyActivity (localDay env checkDate - 1)) eqn:E.
    + specialize (IH (streak + 1) (checkDate - 24 * 60 * 60 * 1000)).
      rewrite (localDay_back env off) in IH by exact Hfix.
      destruct (countStreakLoop env fuel dailyActivity (streak + 1)
                  (checkDate - 24 * 60 * 60 * 1000)) as [r|].
      * destruct IH as (j & Hj & Hr & Hact & Hgap).
        exists (j + 1). split; [lia |]. split; [lia |]. split.
        -- intros i Hi. destruct (Z.eq_dec i 1) as [->|Hne]; [exact E |].
           replace (localDay env checkDate - i)
             with (localDay env checkDate - 1 - (i - 1)) by lia.
           apply Hact. lia.
        -- replace (localDay env checkDate - (j + 1))
             with (localDay env checkDate - 1 - j) by lia.
           exact Hgap.
      * intros i Hi. destruct (Z.eq_dec i 1) as [->|Hne]; [exact E |].
        replace (localDay env checkDate - i)
          with (localDay env checkDate - 1 - (i - 1)) by lia.
        apply IH. lia.
    + exists 1. split; [lia |]. split; [lia |]. split; [intros i Hi; lia | exact E].
Qed.

(** With more fuel than the map has entries the loop comes to its end. *)
Lemma countStreakLoop_returns (env : Env) (off : Z) (dailyActivity : Map Z)
  (fuel : nat) (streak checkDate : Z) :
  FixedOffset env off -> (List.length dailyActivity < fuel)%nat ->
  exists r, countStreakLoop env fuel dailyActivity streak checkDate = Some r.
Proof.
  intros Hfix Hfuel.
  pose proof (countStreakLoop_spec env off dailyActivity Hfix fuel streak checkDate) as H.
  destruct (countStreakLoop env fuel dailyActivity streak checkDate) as [r|];
    [now exists r |].
  apply active_days_bounded in H. lia.
Qed.

(** The days [day], [day - 1], ..., [day - (k - 1)] are active and the
    day before them is not. *)
Definition runBack (dailyActivity : Map Z) (day k : Z) : Prop :=
  1 <= k
  /\ (forall i, 0 <= i < k -> activeDay dailyActivity (day - i) = true)
  /\ activeDay dailyActivity (day - k) = false.

Lemma runBack_functional (dailyActivity : Map Z) (day k k' : Z) :
  runBack dailyActivity day k -> runBack dailyActivity day k' -> k = k'.
Proof.
  intros (H1 & Ha & Hg) (H1' & Ha' & Hg').
  destruct (Z.lt_trichotomy k k') as [L | [E | G]]; [| exact E |].
  - rewrite Ha' in Hg by lia. discriminate.
  - rewrite Ha in Hg' by lia. discriminate.
Qed.

Lemma countStreakBackwards_runBack (env : Env) (off : Z) (dailyActivity : Map Z)
  (fuel : nat) (startDate : Z) :
  FixedOffset env off -> (List.length dailyActivity < fuel)%nat ->
  activeDay dailyActivity (localDay env startDate) = true ->
  exists k, countStreakBackwards env fuel dailyActivity startDate = Some k
            /\ runBack dailyActivity (localDay env startDate) k.
Proof.
  intros Hfix Hfuel Hstart. unfold countStreakBackwards.
  pose proof (countStreakLoop_spec env off dailyActivity Hfix fuel 1 startDate) as H.
  destruct (countStreakLoop_returns env off dailyActivity fuel 1 startDate Hfix Hfuel)
    as [r Hr].
  rewrite Hr in H. destruct H as (j & Hj & -> & Hact & Hgap).
  exists (1 + j - 1). split; [exact Hr |].
  replace (1 + j - 1) with j by lia.
  split; [lia |]. split; [| exact Hgap].
  intros i Hi. destruct (Z.eq_dec i 0) as [->|Hne].
  - now rewrite Z.sub_0_r.
  - apply Hact. lia.
Qed.

Lemma currentStreakOf_unfold (env : Env) (fuel : nat) (dailyActivity : Map Z)
  (n : nat) :
  currentStreakOf env fuel dailyActivity n
  = if Map_has dailyActivity (formatDateKey env (clock env n))
    then (countStreakBackwards env fuel dailyActivity (clock env (S (S n))),
          S (S (S n)))
    else if Map_has dailyActivity
              (formatDateKey env (clock env (S n) - 24 * 60 * 60 * 1000))
    then (countStreakBackwards env fuel dailyActivity
            (clock env (S (S n)) - 24 * 60 * 60 * 1000),
          S (S (S n)))
    else (Some 0, S (S n)).
Proof.
  unfold currentStreakOf, bind, Date_now, ret.
  destruct (Map_has dailyActivity (formatDateKey env (clock env n)));
    [reflexivity |].
  destruct (Map_has dailyActivity
              (formatDateKey env (clock env (S n) - 24 * 60 * 60 * 1000)));
    reflexivity.
Qed.

End BackwardWalk.

(** ** [calculateStreaks] *)

Section StreakFacts.

Local Open Scope list_scope.

(** The longest streak of the year's dates and its days, lines 164-200. *)
Definition maxStreakPart (dailyActivity : Map Z) (year : Z) : Z * StrSet :=
  match activeDatesOf dailyActivity year with
  | [] => (0, [])
  | activeDates =>
      (st_maxStreak (streakLoop activeDates),
       collectStreakDays activeDates (streakLoop activeDates))
  end.

Lemma calculateStreaks_empty env fuel dailyActivity year n :
  activeDatesOf dailyActivity year = [] ->
  calculateStreaks env fuel dailyActivity year n
  = (Some {| streaks_maxStreak := 0;
             streaks_currentStreak := 0;
             streaks_maxStreakDays := [] |}, n).
Proof. intros H. unfold calculateStreaks. now rewrite H. Qed.

Lemma calculateStreaks_nonempty env fuel dailyActivity year n :
  activeDatesOf dailyActivity year <> [] ->
  calculateStreaks env fuel dailyActivity year n
  = (match fst (currentStreakOf env fuel dailyActivity n) with
     | Some currentStreak =>
         Some {| streaks_maxStreak := fst (maxStreakPart dailyActivity year);
                 streaks_currentStreak := currentStreak;
                 streaks_maxStreakDays := snd (maxStreakPart dailyActivity year) |}
     | None => None
     end,
     snd (currentStreakOf env fuel dailyActivity n)).
Proof.
  intros H. unfold calculateStreaks, maxStreakPart.
  destruct (activeDatesOf dailyActivity year) as [|d ds] eqn:E; [congruence |].
  cbn [List.length]. rewrite Nat2Z.inj_succ.
  destruct (Z.eqb_spec (Z.succ (Z.of_nat (List.length ds))) 0) as [H0|_]; [lia |].
  unfold bind, ret.
  destruct (currentStreakOf env fuel dailyActivity n) as [cur n'].
  reflexivity.
Qed.

(** Whatever the clock, the zone and the fuel: a result carries the
    longest streak of [maxStreakPart]. *)
Lemma calculateStreaks_maxStreak env fuel dailyActivity year n s n' :
  calculateStreaks env fuel dailyActivity year n = (Some s, n') ->
  (streaks_maxStreak s, streaks_maxStreakDays s) = maxStreakPart dailyActivity year.
Proof.
  destruct (activeDatesOf dailyActivity year) as [|d ds] eqn:E.
  - rewrite calculateStreaks_empty by exact E. intros H. injection H as <- _.
    unfold maxStreakPart. now rewrite E.
  - rewrite calculateStreaks_nonempty by (rewrite E; discriminate).
    destruct (fst (currentStreakOf env fuel dailyActivity n)); [| discriminate].
    intros H. injection H as <- _. simpl. now destruct (maxStreakPart _ _).
Qed.

Lemma currentStreakOf_returns env off fuel dailyActivity n :
  FixedOffset env off -> (List.length dailyActivity < fuel)%nat ->
  exists c, fst (currentStreakOf env fuel dailyActivity n) = Some c.
Proof.
  intros Hfix Hfuel. rewrite currentStreakOf_unfold.
  destruct (Map_has _ _).
  - destruct (countStreakLoop_returns env off dailyActivity fuel 1
                (clock env (S (S n))) Hfix Hfuel) as [r Hr].
    exists r. exact Hr.
  - destruct (Map_has _ _).
    + destruct (countStreakLoop_returns env off dailyActivity fuel 1
                  (clock env (S (S n)) - 24 * 60 * 60 * 1000) Hfix Hfuel) as [r Hr].
      exists r. exact Hr.
    + now exists 0.
Qed.

(** In a zone of fixed offset, and with more fuel than the map has
    entries, [calculateStreaks] returns. *)
Lemma calculateStreaks_returns env off fuel dailyActivity year n :
  FixedOffset env off -> (List.length dailyActivity < fuel)%nat ->
  exists s n', calculateStreaks env fuel dailyActivity year n = (Some s, n').
Proof.
  intros Hfix Hfuel.
  destruct (activeDatesOf dailyActivity year) as [|d ds] eqn:E.
  - rewrite calculateStreaks_empty by exact E. eauto.
  - rewrite calculateStreaks_nonempty by (rewrite E; discriminate).
    destruct (currentStreakOf_returns env off fuel dailyActivity n Hfix Hfuel)
      as [c Hc].
    rewrite Hc. eauto.
Qed.

(** [b] is the date-only string of the day after that of [a]. *)
Definition nextDay (a b : string) : Prop :=
  exists n, Date_parse a = Some (n * MS_PER_DAY)
            /\ Date_parse b = Some ((n + 1) * MS_PER_DAY).

Lemma adjacentKeys_nextDay (a b : string) :
  adjacentKeys a b = true <-> nextDay a b.
Proof.
  unfold adjacentKeys, isOne, diffDays, nextDay, Date_parse, Math_round_div.
  destruct (parseDateKey a) as [[[y m] d]|]; destruct (parseDateKey b) as [[[y' m'] d']|].
  - set (p := days_from_civil y m d). set (q := days_from_civil y' m' d').
    unfold MS_PER_DAY. split.
    + intros H. apply Z.eqb_eq in H. exists p. split; [reflexivity |].
      f_equal. Z.div_mod_to_equations; lia.
    + intros [n [Hp Hq]]. injection Hp as Hp. injection Hq as Hq.
      apply Z.eqb_eq. Z.div_mod_to_equations; lia.
  - split; [discriminate | intros [n [_ H]]; discriminate].
  - split; [discriminate | intros [n [H _]]; discriminate].
  - split; [discriminate | intros [n [H _]]; discriminate].
Qed.

Lemma chain_nth {A} (adj : A -> A -> bool) (l : list A) (d : A) :
  chain adj l ->
  forall i, (S i < List.length l)%nat -> adj (nth i l d) (nth (S i) l d) = true.
Proof.
  induction l as [|x l IH]; intros Hc i Hi; [simpl in Hi; lia |].
  destruct l as [|y l]; [simpl in Hi; lia |].
  destruct Hc as [Hxy Hc]. destruct i as [|i]; [exact Hxy |].
  apply (IH Hc i). simpl in *. lia.
Qed.

Lemma activeDatesOf_In dailyActivity year key :
  In key (activeDatesOf dailyActivity year)
  <-> In key (Map_keys dailyActivity) /\ StartsWith key (Number_toString year).
Proof.
  unfold activeDatesOf. split.
  - intros H. apply (Permutation_in _ (Array_sort_perm _ _)) in H.
    apply filter_In in H. destruct H as [H1 H2].
    split; [exact H1 | now apply startsWith_spec].
  - intros [H1 H2].
    apply (Permutation_in _ (Permutation_sym (Array_sort_perm _ _))).
    apply filter_In. split; [exact H1 | now apply startsWith_spec].
Qed.

Lemma activeDatesOf_NoDup dailyActivity year :
  NoDup (Map_keys dailyActivity) -> NoDup (activeDatesOf dailyActivity year).
Proof. intros H. apply Array_sort_NoDup. now apply NoDup_filter. Qed.

(** The year has a date in the map. *)
Definition yearHasActivity (dailyActivity : Map Z) (year : Z) : Prop :=
  exists key, In key (Map_keys dailyActivity)
              /\ StartsWith key (Number_toString year).

Lemma activeDatesOf_nonempty dailyActivity year :
  activeDatesOf dailyActivity year <> [] <-> yearHasActivity dailyActivity year.
Proof.
  unfold yearHasActivity. split.
  - intros H. destruct (activeDatesOf dailyActivity year) as [|k ks] eqn:E;
      [congruence |].
    exists k. apply activeDatesOf_In. rewrite E. now left.
  - intros [k Hk] E. apply activeDatesOf_In in Hk. rewrite E in Hk. destruct Hk.
Qed.

Lemma maxStreakPart_longestFirst dailyActivity year :
  NoDup (Map_keys dailyActivity) ->
  activeDatesOf dailyActivity year <> [] ->
  maxStreakPart dailyActivity year
  = (Z.of_nat (List.length
       (longestFirst (runs adjacentKeys (activeDatesOf dailyActivity year)))),
     longestFirst (runs adjacentKeys (activeDatesOf dailyActivity year))).
Proof.
  intros Hnd Hne. unfold maxStreakPart.
  pose proof (streakLoop_longestFirst (activeDatesOf dailyActivity year) Hne
                (activeDatesOf_NoDup dailyActivity year Hnd)) as [H1 H2].
  destruct (activeDatesOf dailyActivity year) as [|d ds] eqn:E; [congruence |].
  now rewrite H1, H2.
Qed.

Lemma runs_nonempty {A} (adj : A -> A -> bool) (l : list A) :
  l <> [] -> runs adj l <> [].
Proof.
  intros Hne E. pose proof (concat_runs adj l) as H. rewrite E in H.
  simpl in H. congruence.
Qed.

Lemma longestFirst_runs_props {A} (adj : A -> A -> bool) (l : list A) :
  l <> [] ->
  longestFirst (runs adj l) <> []
  /\ chain adj (longestFirst (runs adj l))
  /\ incl (longestFirst (runs adj l)) l.
Proof.
  intros Hne.
  pose proof (runs_chains adj l) as Hall. rewrite Forall_forall in Hall.
  assert (Hin : In (longestFirst (runs adj l)) (runs adj l)).
  { apply longestFirst_In; [now apply runs_nonempty |].
    intros r Hr. now apply Hall. }
  destruct (Hall _ Hin) as [H1 H2]. split; [exact H1 |]. split; [exact H2 |].
  intros x Hx. rewrite <- (concat_runs adj l). apply in_concat.
  now exists (longestFirst (runs adj l)).
Qed.

End StreakFacts.

(** ** The longest streak *)

Section MaxStreak.

Local Open Scope list_scope.

(** A clock that always shows [now], in a zone [off] milliseconds ahead
    of UTC. *)
Definition frozenEnv (now off : Z) : Env :=
  {| clock := fun _ => now; tzOffset := fun _ => off |}.

Lemma frozenEnv_fixed (now off : Z) : FixedOffset (frozenEnv now off) off.
Proof. intros t. reflexivity. Qed.

(** The scenario of the specification. *)
Definition scenarioActivity : Map Z :=
  [("2025-01-01", 1); ("2025-01-02", 1); ("2025-01-03", 1); ("2025-01-05", 1)]%string.

Lemma scenarioActivity_NoDup : NoDup (Map_keys scenarioActivity).
Proof.
  unfold scenarioActivity. simpl.
  repeat (constructor; [simpl; intuition discriminate |]). constructor.
Qed.

(** C10. The streak computation keeps [maxStreak] equal to the number of
    [maxStreakDays]: when the year has an active date, [maxStreakDays] is
    a set of exactly [maxStreak >= 1] dates of the map, each the day after
    the one before it; when it has none, both are 0 and empty.  In a zone
    of fixed offset the computation returns. *)
Theorem maxStreak_counts_maxStreakDays :
  forall env fuel (dailyActivity : Map Z) year n,
    NoDup (Map_keys dailyActivity) ->
    (forall s n',
        calculateStreaks env fuel dailyActivity year n = (Some s, n') ->
        let days := streaks_maxStreakDays s in
        streaks_maxStreak s = Z.of_nat (List.length days)
        /\ NoDup days
        /\ (forall key, In key days -> In key (Map_keys dailyActivity))
        /\ (forall i, (S i < List.length days)%nat ->
              nextDay (nth i days EmptyString) (nth (S i) days EmptyString))
        /\ (yearHasActivity dailyActivity year -> 1 <= streaks_maxStreak s)
        /\ (~ yearHasActivity dailyActivity year ->
              streaks_maxStreak s = 0 /\ days = []))
    /\ (forall off, FixedOffset env off ->
          (List.length dailyActivity < fuel)%nat ->
          exists s n',
            calculateStreaks env fuel dailyActivity year n = (Some s, n')).
Proof.
  intros env fuel dailyActivity year n Hnd. split.
  - intros s n' Hs. apply calculateStreaks_maxStreak in Hs.
    destruct (activeDatesOf dailyActivity year) as [|d ds] eqn:E.
    + unfold maxStreakPart in Hs. rewrite E in Hs. injection Hs as Hm Hd.
      cbv zeta. rewrite Hm, Hd. simpl.
      repeat split; try constructor; try (intros; contradiction);
        try (intros; simpl in *; lia).
      intros H. apply activeDatesOf_nonempty in H. congruence.
    + assert (Hne : activeDatesOf dailyActivity year <> [])
        by (rewrite E; discriminate).
      rewrite (maxStreakPart_longestFirst _ _ Hnd Hne) in Hs.
      injection Hs as Hm Hd. cbv zeta. rewrite Hm, Hd.
      destruct (longestFirst_runs_props adjacentKeys _ Hne) as (Hb1 & Hb2 & Hb3).
      pose proof (activeDatesOf_NoDup dailyActivity year Hnd) as Hnd'.
      split; [reflexivity |]. split.
      { pose proof (runs_chains adjacentKeys (activeDatesOf dailyActivity year)).
        pose proof (concat_runs adjacentKeys (activeDatesOf dailyActivity year)) as Hc.
        assert (Hin : In (longestFirst (runs adjacentKeys
                            (activeDatesOf dailyActivity year)))
                         (runs adjacentKeys (activeDatesOf dailyActivity year))).
        { apply longestFirst_In; [now apply runs_nonempty |].
          intros r Hr. rewrite Forall_forall in H. now apply H. }
        apply in_split in Hin. destruct Hin as (l1 & l2 & Hsplit).
        rewrite Hsplit, concat_app in Hc. simpl in Hc. rewrite <- Hc in Hnd'.
        apply NoDup_app_remove_l in Hnd'. now apply NoDup_app_remove_r in Hnd'. }
      split.
      { intros key Hk. apply Hb3 in Hk. now apply activeDatesOf_In in Hk. }
      split.
      { intros i Hi. apply adjacentKeys_nextDay. now apply chain_nth. }
      split.
      { intros _.
        destruct (longestFirst (runs adjacentKeys (activeDatesOf dailyActivity year)));
          [congruence | simpl; lia]. }
      intros H. exfalso. apply H. now apply activeDatesOf_nonempty.
  - intros off Hfix Hfuel. now apply (calculateStreaks_returns env off).
Qed.

Lemma maxStreak_counts_maxStreakDays_witness :
  NoDup (Map_keys scenarioActivity)
  /\ exists s n',
       calculateStreaks (frozenEnv 1735948800000 0) 5%nat scenarioActivity 2025 0%nat
       = (Some s, n')
       /\ streaks_maxStreak s = Z.of_nat (List.length (streaks_maxStreakDays s)).
Proof.
  split; [exact scenarioActivity_NoDup |].
  destruct (maxStreak_counts_maxStreakDays (frozenEnv 1735948800000 0) 5%nat
              scenarioActivity 2025 0%nat scenarioActivity_NoDup) as [Hres Hret].
  destruct (Hret 0 (frozenEnv_fixed _ _) ltac:(simpl; lia)) as (s & n' & Hs).
  exists s, n'. split; [exact Hs |].
  exact (proj1 (Hres s n' Hs)).
Defined.

End MaxStreak.

(** ** The longest streak, in days of the calendar *)

Section MaxStreakDays.

Local Open Scope list_scope.

(** The day belongs to a year that is written with four digits. *)
Definition FourDigitYear (day : Z) : Prop := 1000 <= yearOfDay day <= 9999.

(** The specification's streak detection, on day numbers: the days of
    the year in ascending order, cut into runs in which each day is the
    one after its predecessor, of which the first longest one is kept. *)
Definition compareDays (a b : Z) : Z := a - b.

Definition spec_yearDays (days : list Z) (year : Z) : list Z :=
  Array_sort compareDays (filter (fun day => yearOfDay day =? year) days).

Definition dayAfter (a b : Z) : bool := b - a =? 1.

Definition spec_longestStreak (days : list Z) (year : Z) : list Z :=
  longestFirst (runs dayAfter (spec_yearDays days year)).

Lemma spec_yearDays_sorted (days : list Z) (year : Z) :
  StronglySorted Z.le (spec_yearDays days year).
Proof.
  unfold spec_yearDays, compareDays.
  apply Array_sort_sorted; intros; lia.
Qed.

Lemma spec_yearDays_In (days : list Z) (year day : Z) :
  In day (spec_yearDays days year) <-> In day days /\ yearOfDay day = year.
Proof.
  unfold spec_yearDays. rewrite <- Z.eqb_eq.
  rewrite <- (filter_In (fun day => yearOfDay day =? year)).
  split; apply Permutation_in; [| symmetry]; apply Array_sort_perm.
Qed.

Lemma eqb_digitChar (a b : Z) :
  0 <= a <= 9 -> 0 <= b <= 9 ->
  Ascii.eqb (digitChar a) (digitChar b) = (a =? b).
Proof.
  intros Ha Hb. pose proof (compare_digitChar a b Ha Hb) as H.
  destruct (Z.eqb_spec a b) as [->|Hne]; [apply Ascii.eqb_refl |].
  apply Ascii.eqb_neq. intros E. rewrite E in H.
  rewrite (compare_digitChar b b Hb Hb), Z.compare_refl in H.
  symmetry in H. apply Z.compare_eq_iff in H. contradiction.
Qed.

Lemma startsWith_fmt2 (a b : Z) (s p : string) :
  0 <= a <= 99 -> 0 <= b <= 99 ->
  startsWith (fmt2 a ++ s)%string (fmt2 b ++ p)%string
  = (a =? b) && startsWith s p.
Proof.
  intros Ha Hb. unfold fmt2. cbn [append startsWith].
  rewrite !eqb_digitChar by (Z.div_mod_to_equations; lia).
  destruct (Z.eqb_spec (a / 10) (b / 10)) as [E1|N1].
  - destruct (Z.eqb_spec (a mod 10) (b mod 10)) as [E0|N0].
    + replace (a =? b) with true; [reflexivity |].
      symmetry. apply Z.eqb_eq. Z.div_mod_to_equations; lia.
    + replace (a =? b) with false; [reflexivity |].
      symmetry. apply Z.eqb_neq. intros ->. contradiction.
  - replace (a =? b) with false; [reflexivity |].
    symmetry. apply Z.eqb_neq. intros ->. contradiction.
Qed.

(** For keys and years of four digits the prefix test of the filter is
    the test of the year. *)
Lemma startsWith_year (day year : Z) :
  FourDigitYear day -> 1000 <= year <= 9999 ->
  startsWith (dateKeyOfDay day) (Number_toString year) = (yearOfDay day =? year).
Proof.
  intros Hd Hy. pose proof (dateKeyOfDay_fmt day Hd) as S1.
  unfold FourDigitYear, yearOfDay in *.
  destruct (civil_from_days day) as [[y m] d].
  rewrite S1, Number_toString_fmt4 by exact Hy. unfold fmt4.
  rewrite <- (append_nil_r (fmt2 (year mod 100))).
  rewrite !append_assoc.
  rewrite !startsWith_fmt2 by (Z.div_mod_to_equations; lia).
  replace (startsWith _ EmptyString) with true by reflexivity.
  rewrite andb_true_r.
  destruct (Z.eqb_spec y year) as [->|Hne].
  - now rewrite !Z.eqb_refl.
  - apply andb_false_iff.
    destruct (Z.eqb_spec (y / 100) (year / 100)); [right | now left].
    apply Z.eqb_neq. Z.div_mod_to_equations; lia.
Qed.

Lemma adjacentKeys_dayAfter (a b : Z) :
  FourDigitYear a -> FourDigitYear b ->
  adjacentKeys (dateKeyOfDay a) (dateKeyOfDay b) = dayAfter a b.
Proof.
  intros Ha Hb. unfold adjacentKeys, diffDays, dayAfter.
  rewrite !Date_parse_dateKeyOfDay by assumption.
  unfold isOne, Math_round_div, MS_PER_DAY. f_equal.
  Z.div_mod_to_equations; lia.
Qed.

Lemma defaultCompare_days (a b : Z) :
  FourDigitYear a -> FourDigitYear b ->
  (defaultCompare (dateKeyOfDay a) (dateKeyOfDay b) <=? 0)
  = (compareDays a b <=? 0).
Proof.
  intros Ha Hb. unfold defaultCompare, compareDays.
  rewrite compare_dateKeyOfDay by assumption.
  destruct (Z.compare_spec a b); destruct (Z.leb_spec (a - b) 0);
    try reflexivity; lia.
Qed.

Lemma filter_map_agree {A B} (f : A -> B) (p : B -> bool) (q : A -> bool)
  (l : list A) :
  Forall (fun a => p (f a) = q a) l -> filter p (map f l) = map f (filter q l).
Proof.
  intros H. induction H as [|a l Ha Hl IH]; [reflexivity |].
  simpl. rewrite Ha, IH. now destruct (q a).
Qed.

Lemma Forall_pairs {A} (P : A -> Prop) (R : A -> A -> Prop) (l : list A) :
  (forall a b, P a -> P b -> R a b) -> Forall P l ->
  Forall (fun a => Forall (fun b => R a b) l) l.
Proof.
  intros HR HP. rewrite Forall_forall in *. intros a Ha.
  rewrite Forall_forall. intros b Hb. apply HR; auto.
Qed.

(** The year's dates of a map of date keys are the keys of the year's
    days in ascending order. *)
Lemma activeDatesOf_days (dailyActivity : Map Z) (days : list Z) (year : Z) :
  Map_keys dailyActivity = map dateKeyOfDay days ->
  Forall FourDigitYear days -> 1000 <= year <= 9999 ->
  activeDatesOf dailyActivity year = map dateKeyOfDay (spec_yearDays days year).
Proof.
  intros Hkeys Hdays Hyear. unfold activeDatesOf, spec_yearDays. rewrite Hkeys.
  rewrite (filter_map_agree dateKeyOfDay _ (fun day => yearOfDay day =? year)).
  - apply (Array_sort_map dateKeyOfDay compareDays defaultCompare FourDigitYear).
    + intros a b Ha Hb. now apply defaultCompare_days.
    + apply Forall_forall. intros d Hd. apply filter_In in Hd.
      rewrite Forall_forall in Hdays. now apply Hdays.
  - eapply Forall_impl; [| exact Hdays].
    intros d Hd. now apply startsWith_year.
Qed.

Lemma maxStreakPart_days (dailyActivity : Map Z) (days : list Z) (year : Z) :
  Map_keys dailyActivity = map dateKeyOfDay days ->
  NoDup days -> Forall FourDigitYear days -> 1000 <= year <= 9999 ->
  maxStreakPart dailyActivity year
  = (Z.of_nat (List.length (spec_longestStreak days year)),
     map dateKeyOfDay (spec_longestStreak days year)).
Proof.
  intros Hkeys Hnd Hdays Hyear.
  assert (Hnd' : NoDup (Map_keys dailyActivity)).
  { rewrite Hkeys. apply NoDup_map_injective; [| exact Hnd].
    intros a b. apply dateKeyOfDay_inj. }
  pose proof (activeDatesOf_days _ _ _ Hkeys Hdays Hyear) as Hact.
  assert (Hfour : Forall FourDigitYear (spec_yearDays days year)).
  { apply Forall_forall. intros d Hd. apply spec_yearDays_In in Hd.
    rewrite Forall_forall in Hdays. now apply Hdays. }
  destruct (spec_yearDays days year) as [|d0 ds] eqn:E.
  - unfold maxStreakPart, spec_longestStreak. rewrite Hact, E. reflexivity.
  - rewrite maxStreakPart_longestFirst; [| exact Hnd' | rewrite Hact; discriminate].
    rewrite Hact. unfold spec_longestStreak. rewrite E.
    rewrite (runs_map dateKeyOfDay dayAfter adjacentKeys).
    + now rewrite longestFirst_map, length_map.
    + apply (Forall_pairs FourDigitYear); [| exact Hfour].
      intros a b Ha Hb. now apply adjacentKeys_dayAfter.
Qed.

(** C2. Max-streak detection takes the year's activity dates in
    ascending order, extends the current run when a date is the day
    after its predecessor and otherwise starts a new run, and reports the
    first longest run with its member dates.  The scenario of the
    specification yields 3 and the first three days of January 2025; a
    year without activity yields 0 and no days. *)
Theorem maxStreak_detection :
  (forall env fuel (dailyActivity : Map Z) (days : list Z) year n s n',
      Map_keys dailyActivity = map dateKeyOfDay days ->
      NoDup days -> Forall FourDigitYear days -> 1000 <= year <= 9999 ->
      calculateStreaks env fuel dailyActivity year n = (Some s, n') ->
      streaks_maxStreak s = Z.of_nat (List.length (spec_longestStreak days year))
      /\ streaks_maxStreakDays s = map dateKeyOfDay (spec_longestStreak days year))
  /\ (forall env off fuel (dailyActivity : Map Z) year n,
        FixedOffset env off -> (List.length dailyActivity < fuel)%nat ->
        exists s n', calculateStreaks env fuel dailyActivity year n = (Some s, n'))
  /\ (forall env fuel n s n',
        calculateStreaks env fuel scenarioActivity 2025 n = (Some s, n') ->
        streaks_maxStreak s = 3
        /\ streaks_maxStreakDays s = ["2025-01-01"; "2025-01-02"; "2025-01-03"]%string)
  /\ (forall env fuel (dailyActivity : Map Z) year n,
        ~ yearHasActivity dailyActivity year ->
        exists s,
          calculateStreaks env fuel dailyActivity year n = (Some s, n)
          /\ streaks_maxStreak s = 0 /\ streaks_maxStreakDays s = []).
Proof.
  split; [| split; [| split]].
  - intros env fuel dailyActivity days year n s n' Hkeys Hnd Hdays Hyear Hs.
    apply calculateStreaks_maxStreak in Hs.
    rewrite (maxStreakPart_days _ _ _ Hkeys Hnd Hdays Hyear) in Hs.
    injection Hs as H1 H2. now split.
  - intros env off fuel dailyActivity year n. apply calculateStreaks_returns.
  - intros env fuel n s n' Hs. apply calculateStreaks_maxStreak in Hs.
    assert (E : maxStreakPart scenarioActivity 2025
                = (3, ["2025-01-01"; "2025-01-02"; "2025-01-03"]%string))
      by (vm_compute; reflexivity).
    rewrite E in Hs. injection Hs as H1 H2. now split.
  - intros env fuel dailyActivity year n Hno.
    eexists. split; [apply calculateStreaks_empty | split; reflexivity].
    destruct (activeDatesOf dailyActivity year) eqn:E; [reflexivity |].
    exfalso. apply Hno. apply activeDatesOf_nonempty. rewrite E. discriminate.
Qed.

(** The days 2025-01-01, -02, -03 and -05 as day numbers. *)
Definition scenarioDays : list Z := [20089; 20090; 20091; 20093].

Lemma maxStreak_detection_witness :
  Map_keys scenarioActivity = map dateKeyOfDay scenarioDays
  /\ NoDup scenarioDays
  /\ Forall FourDigitYear scenarioDays
  /\ 1000 <= 2025 <= 9999
  /\ exists s n',
       calculateStreaks (frozenEnv 1735948800000 0) 5%nat scenarioActivity 2025 0%nat
       = (Some s, n')
       /\ streaks_maxStreak s
          = Z.of_nat (List.length (spec_longestStreak scenarioDays 2025)).
Proof.
  assert (Hkeys : Map_keys scenarioActivity = map dateKeyOfDay scenarioDays)
    by (vm_compute; reflexivity).
  assert (Hnd : NoDup scenarioDays).
  { unfold scenarioDays.
    repeat (constructor; [simpl; intuition discriminate |]). constructor. }
  assert (Hfour : Forall FourDigitYear scenarioDays).
  { unfold scenarioDays, FourDigitYear.
    repeat (constructor; [vm_compute; split; discriminate |]). constructor. }
  assert (Hyear : 1000 <= 2025 <= 9999) by lia.
  split; [exact Hkeys |]. split; [exact Hnd |]. split; [exact Hfour |].
  split; [exact Hyear |].
  destruct maxStreak_detection as (Hmain & Hret & _).
  destruct (Hret (frozenEnv 1735948800000 0) 0 5%nat scenarioActivity 2025 0%nat
              (frozenEnv_fixed _ _) ltac:(simpl; lia)) as (s & n' & Hs).
  exists s, n'. split; [exact Hs |].
  exact (proj1 (Hmain _ _ _ _ _ _ _ _ Hkeys Hnd Hfour Hyear Hs)).
Defined.

End MaxStreakDays.

(** ** The current streak *)

Section CurrentStreak.

Local Open Scope list_scope.

(** The current streak as the specification words it: counted backward
    from today when today is active, else from yesterday when yesterday
    is, else 0. *)
Inductive currentStreakSpec (dailyActivity : Map Z) (today : Z) : Z -> Prop :=
| current_from_today k :
    activeDay dailyActivity today = true ->
    runBack dailyActivity today k ->
    currentStreakSpec dailyActivity today k
| current_from_yesterday k :
    activeDay dailyActivity today = false ->
    activeDay dailyActivity (today - 1) = true ->
    runBack dailyActivity (today - 1) k ->
    currentStreakSpec dailyActivity today k
| current_none :
    activeDay dailyActivity today = false ->
    activeDay dailyActivity (today - 1) = false ->
    currentStreakSpec dailyActivity today 0.

Lemma currentStreakSpec_functional dailyActivity today k k' :
  currentStreakSpec dailyActivity today k ->
  currentStreakSpec dailyActivity today k' -> k = k'.
Proof.
  intros H H'. destruct H; destruct H'; try congruence;
    eapply runBack_functional; eauto.
Qed.

(** One entry, on the last day of 2024; the clock shows noon UTC of
    that day. *)
Definition lastDayActivity : Map Z := [("2024-12-31"%string, 1)].

Definition lastDayNoon : Z := 1735646400000.

(** C5, as stated, fails: the current streak is not independent of the
    requested year.  With activity today, the current streak is 1 when
    2024 is requested and 0 when 2025 is, the year without dates leaving
    through the early return. *)
Lemma currentStreak_depends_on_year :
  calculateStreaks (frozenEnv lastDayNoon 0) 5%nat lastDayActivity 2024 0%nat
  = (Some {| streaks_maxStreak := 1;
             streaks_currentStreak := 1;
             streaks_maxStreakDays := ["2024-12-31"%string] |}, 3%nat)
  /\ calculateStreaks (frozenEnv lastDayNoon 0) 5%nat lastDayActivity 2025 0%nat
     = (Some {| streaks_maxStreak := 0;
                streaks_currentStreak := 0;
                streaks_maxStreakDays := [] |}, 0%nat)
  /\ activeDay lastDayActivity (localDay (frozenEnv lastDayNoon 0) lastDayNoon) = true
  /\ ~ currentStreakSpec lastDayActivity
         (localDay (frozenEnv lastDayNoon 0) lastDayNoon) 0.
Proof.
  split; [vm_compute; reflexivity |].
  split; [vm_compute; reflexivity |].
  assert (Hact : activeDay lastDayActivity
                   (localDay (frozenEnv lastDayNoon 0) lastDayNoon) = true)
    by (vm_compute; reflexivity).
  split; [exact Hact |].
  intros H. inversion H as [k Ha [Hk _] | k Ha _ _ | Ha _]; subst.
  - lia.
  - congruence.
  - congruence.
Qed.

(** C5, amended.  In a zone of fixed offset and with every reading of
    the clock equal to [now]: when the requested year has a date in the
    map, the current streak counts the consecutive active days backward
    from today if today is active, else from yesterday if yesterday is,
    and is 0 otherwise, with dates of any year counting; when the year
    has no date in the map, the early return makes it 0. *)
Theorem currentStreak_spec :
  forall env off now fuel (dailyActivity : Map Z) year n,
    FixedOffset env off -> (forall k, clock env k = now) ->
    (List.length dailyActivity < fuel)%nat ->
    (yearHasActivity dailyActivity year ->
       exists s n',
         calculateStreaks env fuel dailyActivity year n = (Some s, n')
         /\ currentStreakSpec dailyActivity (localDay env now)
              (streaks_currentStreak s))
    /\ (~ yearHasActivity dailyActivity year ->
          exists s,
            calculateStreaks env fuel dailyActivity year n = (Some s, n)
            /\ streaks_currentStreak s = 0).
Proof.
  intros env off now fuel dailyActivity year n Hfix Hclock Hfuel. split.
  - intros Hyear. apply activeDatesOf_nonempty in Hyear.
    rewrite calculateStreaks_nonempty by exact Hyear.
    rewrite currentStreakOf_unfold. rewrite !Hclock.
    rewrite !formatDateKey_dateKeyOfDay.
    rewrite (localDay_back env off) by exact Hfix.
    fold (activeDay dailyActivity (localDay env now)).
    fold (activeDay dailyActivity (localDay env now - 1)).
    destruct (activeDay dailyActivity (localDay env now)) eqn:Etoday.
    + destruct (countStreakBackwards_runBack env off dailyActivity fuel now
                  Hfix Hfuel Etoday) as (k & Hk & Hrun).
      cbn [fst snd]. rewrite Hk. eexists. eexists. split; [reflexivity |].
      cbn [streaks_currentStreak]. now apply current_from_today.
    + destruct (activeDay dailyActivity (localDay env now - 1)) eqn:Eyest.
      * assert (Hstart : activeDay dailyActivity
                           (localDay env (now - 24 * 60 * 60 * 1000)) = true)
          by (rewrite (localDay_back env off) by exact Hfix; exact Eyest).
        destruct (countStreakBackwards_runBack env off dailyActivity fuel
                    (now - 24 * 60 * 60 * 1000) Hfix Hfuel Hstart)
          as (k & Hk & Hrun).
        rewrite (localDay_back env off) in Hrun by exact Hfix.
        cbn [fst snd]. rewrite Hk. eexists. eexists. split; [reflexivity |].
        cbn [streaks_currentStreak]. now apply current_from_yesterday.
      * cbn [fst snd]. eexists. eexists. split; [reflexivity |].
        cbn [streaks_currentStreak]. now apply current_none.
  - intros Hno. eexists. split; [apply calculateStreaks_empty | reflexivity].
    destruct (activeDatesOf dailyActivity year) eqn:E; [reflexivity |].
    exfalso. apply Hno. apply activeDatesOf_nonempty. rewrite E. discriminate.
Qed.

Lemma currentStreak_spec_witness :
  FixedOffset (frozenEnv lastDayNoon 0) 0
  /\ (forall k, clock (frozenEnv lastDayNoon 0) k = lastDayNoon)
  /\ (List.length lastDayActivity < 5)%nat
  /\ yearHasActivity lastDayActivity 2024
  /\ ~ yearHasActivity lastDayActivity 2025
  /\ (exists s n',
        calculateStreaks (frozenEnv lastDayNoon 0) 5%nat lastDayActivity 2024 0%nat
        = (Some s, n')
        /\ currentStreakSpec lastDayActivity
             (localDay (frozenEnv lastDayNoon 0) lastDayNoon)
             (streaks_currentStreak s))
  /\ (exists s,
        calculateStreaks (frozenEnv lastDayNoon 0) 5%nat lastDayActivity 2025 0%nat
        = (Some s, 0%nat)
        /\ streaks_currentStreak s = 0).
Proof.
  assert (H24 : yearHasActivity lastDayActivity 2024).
  { exists "2024-12-31"%string. split; [now left |]. now exists "-12-31"%string. }
  assert (H25 : ~ yearHasActivity lastDayActivity 2025).
  { intros (key & Hin & Hpre). apply startsWith_spec in Hpre.
    destruct Hin as [<- | []]. discriminate Hpre. }
  split; [apply frozenEnv_fixed |]. split; [reflexivity |].
  split; [simpl; lia |]. split; [exact H24 |]. split; [exact H25 |].
  split.
  - apply (currentStreak_spec (frozenEnv lastDayNoon 0) 0 lastDayNoon 5%nat
             lastDayActivity 2024 0%nat (frozenEnv_fixed _ _)
             (fun _ => eq_refl) ltac:(simpl; lia)).
    exact H24.
  - apply (currentStreak_spec (frozenEnv lastDayNoon 0) 0 lastDayNoon 5%nat
             lastDayActivity 2025 0%nat (frozenEnv_fixed _ _)
             (fun _ => eq_refl) ltac:(simpl; lia)).
    exact H25.
Defined.

End CurrentStreak.

(** ** Project paths *)

Section ProjectPath.

Local Open Scope list_scope.

Lemma take_append (pre rest : string) :
  take (String.length pre) (pre ++ rest)%string = pre.
Proof. induction pre as [|a pre IH]; simpl; [now destruct rest | now rewrite IH]. Qed.

Lemma drop_append (pre rest : string) :
  drop (String.length pre) (pre ++ rest)%string = rest.
Proof. induction pre as [|a pre IH]; simpl; [reflexivity | exact IH]. Qed.

(** [s.indexOf(p)] is [-1] exactly when [p] does not occur in [s]. *)
Lemma indexOfFrom_absent (s p : string) (i : Z) :
  0 <= i -> (indexOfFrom i s p = -1 <-> ~ Contains s p).
Proof.
  revert i. induction s as [|a s IH]; intros i Hi; simpl.
  - destruct (startsWith EmptyString p) eqn:E.
    + split; [lia |]. intros H. exfalso. apply H.
      apply startsWith_spec in E. destruct E as [rest E].
      exists EmptyString, rest. exact E.
    + split; [| reflexivity]. intros _ [pre [post H]].
      apply startsWith_false in E. apply E.
      destruct pre; [| discriminate]. now exists post.
  - destruct (startsWith (String a s) p) eqn:E.
    + split; [lia |]. intros H. exfalso. apply H.
      apply startsWith_spec in E. destruct E as [rest E].
      exists EmptyString, rest. exact E.
    + rewrite (IH (i + 1)) by lia. apply startsWith_false in E. split.
      * intros Hn [pre [post H]]. destruct pre as [|x pre].
        -- apply E. now exists post.
        -- simpl in H. injection H as _ H. apply Hn. now exists pre, post.
      * intros Hn [pre [post H]]. apply Hn.
        exists (String a pre), post. simpl. now rewrite H.
Qed.

(** When [p] occurs, [s.indexOf(p)] is the length of what stands before
    its leftmost occurrence. *)
Lemma indexOfFrom_found (s p : string) (i : Z) :
  0 <= i -> indexOfFrom i s p <> -1 ->
  exists pre post,
    s = (pre ++ p ++ post)%string
    /\ indexOfFrom i s p = i + Z.of_nat (String.length pre)
    /\ forall pre' post', s = (pre' ++ p ++ post')%string ->
         (String.length pre <= String.length pre')%nat.
Proof.
  revert i. induction s as [|a s IH]; intros i Hi; simpl.
  - destruct (startsWith EmptyString p) eqn:E; [| congruence]. intros _.
    apply startsWith_spec in E. destruct E as [rest E].
    exists EmptyString, rest. split; [exact E |]. split; [simpl; lia |].
    intros; simpl; lia.
  - destruct (startsWith (String a s) p) eqn:E.
    + intros _. apply startsWith_spec in E. destruct E as [rest E].
      exists EmptyString, rest. split; [exact E |]. split; [simpl; lia |].
      intros; simpl; lia.
    + intros Hne. destruct (IH (i + 1) ltac:(lia) Hne) as (pre & post & Hs & Hidx & Hleft).
      exists (String a pre), post. split; [simpl; now rewrite Hs |].
      split; [rewrite Hidx; simpl String.length; lia |].
      intros pre' post' H'. destruct pre' as [|x pre'].
      * exfalso. apply startsWith_false in E. apply E. now exists post'.
      * simpl in H'. injection H' as _ H'. specialize (Hleft _ _ H').
        simpl. lia.
Qed.

Lemma substring_prefix (pre rest : string) :
  substring (pre ++ rest)%string 0 (Z.of_nat (String.length pre)) = pre.
Proof.
  unfold substring. rewrite length_append.
  replace (Z.min (Z.max 0 0) _) with 0 by lia.
  replace (Z.min (Z.max (Z.of_nat (String.length pre)) 0) _)
    with (Z.of_nat (String.length pre)) by lia.
  replace (Z.min 0 (Z.of_nat (String.length pre))) with 0 by lia.
  replace (Z.max 0 (Z.of_nat (String.length pre)))
    with (Z.of_nat (String.length pre)) by lia.
  rewrite Z.sub_0_r, Nat2Z.id. simpl drop. apply take_append.
Qed.

(** [pre] is what stands before the leftmost occurrence of [m] in [path]. *)
Definition beforeLeftmost (path m pre : string) : Prop :=
  exists post,
    path = (pre ++ m ++ post)%string
    /\ forall pre' post', path = (pre' ++ m ++ post')%string ->
         (String.length pre <= String.length pre')%nat.

(** What the code derives from the path of a [file://] URI: the first
    indicator of the list, in the order of the list, that occurs in the
    path decides, and the project is what stands before its leftmost
    occurrence; with no indicator in the path, the parent directory when
    there are at least four segments. *)
Inductive derivesProject (path : string) : option string -> Prop :=
| derives_by_indicator earlier m later pre :
    projectIndicators = earlier ++ m :: later ->
    (forall m', In m' earlier -> ~ Contains path m') ->
    beforeLeftmost path m pre ->
    derivesProject path (Some pre)
| derives_parent :
    (forall m, In m projectIndicators -> ~ Contains path m) ->
    (4 <= List.length (split path "/"%char))%nat ->
    derivesProject path (Some (join (removelast (split path "/"%char)) "/"))
| derives_nothing :
    (forall m, In m projectIndicators -> ~ Contains path m) ->
    (List.length (split path "/"%char) < 4)%nat ->
    derivesProject path None.

Lemma findIndicator_spec (path : string) (earlier indicators : list string) :
  (forall m', In m' earlier -> ~ Contains path m') ->
  match findIndicator path indicators with
  | Some pre =>
      exists mid m later,
        indicators = mid ++ m :: later
        /\ (forall m', In m' (earlier ++ mid) -> ~ Contains path m')
        /\ beforeLeftmost path m pre
  | None => forall m', In m' (earlier ++ indicators) -> ~ Contains path m'
  end.
Proof.
  revert earlier.
  induction indicators as [|m rest IH]; intros earlier Hearlier;
    cbn [findIndicator].
  - now rewrite app_nil_r.
  - destruct (Z.eqb_spec (indexOf path m) (-1)) as [E|N]; cbn [negb].
    + apply (indexOfFrom_absent path m 0 ltac:(lia)) in E.
      specialize (IH (earlier ++ [m])).
      assert (H' : forall m', In m' (earlier ++ [m]) -> ~ Contains path m').
      { intros m' Hin. apply in_app_or in Hin.
        destruct Hin as [Hin | [<- | []]]; auto. }
      specialize (IH H').
      destruct (findIndicator path rest) as [pre|].
      * destruct IH as (mid & m0 & later & -> & Hnone & Hleft).
        exists (m :: mid), m0, later. split; [reflexivity |]. split; [| exact Hleft].
        intros m' Hin. apply Hnone. rewrite <- app_assoc. exact Hin.
      * intros m' Hin. apply IH. rewrite <- app_assoc. exact Hin.
    + destruct (indexOfFrom_found path m 0 ltac:(lia) N)
        as (pre & post & Hpath & Hidx & Hleft).
      assert (Hsub : substring path 0 (indexOf path m) = pre).
      { unfold indexOf. rewrite Hidx, Z.add_0_l. rewrite Hpath at 1.
        apply substring_prefix. }
      rewrite Hsub.
      exists [], m, rest. split; [reflexivity |]. split; [now rewrite app_nil_r |].
      exists post. split; [exact Hpath | exact Hleft].
Qed.

(** The specification's reading: the marker whose occurrence is
    leftmost in the path wins, whichever marker it is. *)
Fixpoint spec_beforeLeftmostMarker (path : string) : option string :=
  if existsb (startsWith path) projectIndicators then Some EmptyString
  else match path with
       | EmptyString => None
       | String a path' =>
           match spec_beforeLeftmostMarker path' with
           | Some pre => Some (String a pre)
           | None => None
           end
       end.

(** C3, as stated, fails: in [/a/lib/b/src/c.ts] the leftmost marker is
    [/lib/], before which stands [/a]; the code tries [/src/] first and
    derives [/a/lib/b]. *)
Lemma extractProjectPath_not_leftmost :
  extractProjectPath "file:///a/lib/b/src/c.ts" = Some "/a/lib/b"%string
  /\ spec_beforeLeftmostMarker "/a/lib/b/src/c.ts" = Some "/a"%string
  /\ indexOf "/a/lib/b/src/c.ts" "/lib/" = 2
  /\ indexOf "/a/lib/b/src/c.ts" "/src/" = 8.
Proof. repeat split; vm_compute; reflexivity. Qed.

(** C3, amended.  For a [file://] URI the scheme is stripped and the
    markers are tried in the order /src/, /lib/, /app/, /components/,
    /pages/: the first marker of that order that occurs anywhere in the
    path decides, and the project is everything before its leftmost
    occurrence.  If no marker occurs, the path is split at [/] and, with
    at least 4 segments, all segments but the last are the project;
    otherwise there is none.  Any other URI derives no project. *)
Theorem extractProjectPath_spec :
  (forall path, derivesProject path (extractProjectPath ("file://" ++ path)%string))
  /\ (forall uri, ~ StartsWith uri "file://" -> extractProjectPath uri = None).
Proof.
  split.
  - intros path. unfold extractProjectPath.
    change (startsWith ("file://" ++ path)%string "file://") with true.
    change (replace ("file://" ++ path)%string "file://" EmptyString) with path.
    cbv beta iota delta [negb].
    pose proof (findIndicator_spec path [] projectIndicators
                  ltac:(intros ? [])) as H.
    destruct (findIndicator path projectIndicators) as [pre|].
    + destruct H as (mid & m & later & Hsplit & Hnone & Hleft).
      now apply (derives_by_indicator path mid m later pre).
    + destruct (Z.leb_spec 4 (Z.of_nat (List.length (split path "/"%char)))).
      * apply derives_parent; [exact H | lia].
      * apply derives_nothing; [exact H | lia].
  - intros uri H. apply startsWith_false in H. unfold extractProjectPath.
    now rewrite H.
Qed.

Lemma extractProjectPath_spec_witness :
  ~ StartsWith "http://x/src/y" "file://"
  /\ extractProjectPath "http://x/src/y" = None.
Proof.
  assert (H : ~ StartsWith "http://x/src/y" "file://")
    by (intros [rest E]; discriminate E).
  split; [exact H |].
  exact (proj2 extractProjectPath_spec "http://x/src/y"%string H).
Defined.

End ProjectPath.

(** ** The collector *)

Section CollectorFacts.

Local Open Scope list_scope.

Definition nonNegative (x : option Z) : Prop :=
  match x with
  | Some v => 0 <= v
  | None => True
  end.

(** Every usage field of the thread that is present is not negative. *)
Definition usageNonNegative (u : AmpThreadUsage) : Prop :=
  nonNegative (inputTokens u) /\ nonNegative (outputTokens u)
  /\ nonNegative (cacheReadInputTokens u) /\ nonNegative (credits u).

Definition messageNonNegative (m : AmpMessage) : Prop :=
  match usage m with
  | Some u => usageNonNegative u
  | None => True
  end.

Definition fileNonNegative (file : option AmpThread) : Prop :=
  match file with
  | Some thread => Forall messageNonNegative (messages thread)
  | None => True
  end.

(** The sum of the values of a map. *)
Definition mapSum (m : Map Z) : Z := fold_right (fun e acc => snd e + acc) 0 m.

(** What the collector keeps true of its running totals. *)
Record Balanced (s : AmpUsageSummary) : Prop := {
  balanced_tokens :
    Collector.totalTokens s
    = Collector.totalInputTokens s + Collector.totalOutputTokens s
      + Collector.totalCacheReadTokens s;
  balanced_input : 0 <= Collector.totalInputTokens s;
  balanced_output : 0 <= Collector.totalOutputTokens s;
  balanced_cacheRead : 0 <= Collector.totalCacheReadTokens s;
  balanced_credits : 0 <= Collector.totalCredits s;
  balanced_messages : 0 <= Collector.totalMessages s;
  balanced_sessions : 0 <= Collector.totalSessions s;
  balanced_models : Forall (fun e => 0 <= snd e) (modelTokenTotals s);
  balanced_modelSum : mapSum (modelTokenTotals s) <= Collector.totalTokens s
}.

Lemma orZero_nonNegative (x : option Z) : nonNegative x -> 0 <= orZero x.
Proof. destruct x as [v|]; simpl; [destruct (v =? 0); lia | lia]. Qed.

Lemma orZero_get (m : Map Z) (k : string) :
  orZero (Map_get m k) = match Map_get m k with Some v => v | None => 0 end.
Proof.
  unfold orZero. destruct (Map_get m k) as [v|]; [| reflexivity].
  destruct (Z.eqb_spec v 0); lia.
Qed.

Lemma mapSum_set (m : Map Z) (k : string) (v : Z) :
  mapSum (Map_set m k v) = mapSum m - orZero (Map_get m k) + v.
Proof.
  rewrite orZero_get. induction m as [|[k' v'] m IH]; simpl; [lia |].
  destruct (String.eqb k' k); simpl; [lia | rewrite IH; lia].
Qed.

Lemma Map_set_Forall (P : Z -> Prop) (m : Map Z) (k : string) (v : Z) :
  Forall (fun e => P (snd e)) m -> P v ->
  Forall (fun e => P (snd e)) (Map_set m k v).
Proof.
  intros Hm Hv. induction Hm as [|[k' v'] m Hx Hm IH]; simpl.
  - constructor; [exact Hv | constructor].
  - destruct (String.eqb k' k); constructor; auto.
Qed.

Lemma Map_get_Forall (P : Z -> Prop) (m : Map Z) (k : string) (v : Z) :
  Forall (fun e => P (snd e)) m -> Map_get m k = Some v -> P v.
Proof.
  intros Hm. induction Hm as [|[k' v'] m Hx Hm IH]; simpl; [discriminate |].
  destruct (String.eqb k' k); [intros [= <-]; exact Hx | exact IH].
Qed.

Lemma processMessage_balanced (acc : AmpUsageSummary) (message : AmpMessage) :
  messageNonNegative message -> Balanced acc ->
  Balanced (processMessage acc message).
Proof.
  intros Hm [Ht Hi Ho Hc Hcr Hms Hss Hmod Hsum].
  unfold processMessage, messageNonNegative in *.
  destruct (role message); destruct (usage message) as [u|];
    try (constructor; simpl; (assumption || lia)).
  destruct Hm as (Hui & Huo & Huc & Hucr).
  apply orZero_nonNegative in Hui, Huo, Huc, Hucr.
  constructor; cbn [Collector.totalTokens Collector.totalInputTokens
                    Collector.totalOutputTokens Collector.totalCacheReadTokens
                    Collector.totalCredits Collector.totalMessages
                    Collector.totalSessions modelTokenTotals];
    try lia.
  - destruct (_ && _); [| exact Hmod].
    apply (Map_set_Forall (fun v => 0 <= v)); [exact Hmod |].
    rewrite orZero_get.
    destruct (Map_get (modelTokenTotals acc) _) as [v|] eqn:E; [| lia].
    pose proof (Map_get_Forall (fun v => 0 <= v) _ _ _ Hmod E). simpl in *. lia.
  - destruct (_ && _); [| lia]. rewrite mapSum_set. lia.
Qed.

Lemma processMessages_balanced (msgs : list AmpMessage) (acc : AmpUsageSummary) :
  Forall messageNonNegative msgs -> Balanced acc ->
  Balanced (fold_left processMessage msgs acc).
Proof.
  intros Hf. revert acc. induction Hf as [|m msgs Hm Hf IH]; intros acc Hacc;
    [exact Hacc |].
  simpl. apply IH. now apply processMessage_balanced.
Qed.

Lemma processThread_balanced (env : Env) (year : Z) (acc : AmpUsageSummary)
  (file : option AmpThread) :
  fileNonNegative file -> Balanced acc -> Balanced (processThread env year acc file).
Proof.
  intros Hf Hb. unfold processThread. destruct file as [thread|]; [| exact Hb].
  destruct (negb _); [exact Hb |].
  simpl in Hf. apply processMessages_balanced; [exact Hf |].
  destruct Hb. constructor; simpl; (assumption || lia).
Qed.

Lemma collect_balanced (env : Env) (threadFiles : list (option AmpThread))
  (year : Z) :
  Forall fileNonNegative threadFiles ->
  Balanced (collectAmpUsageSummary env threadFiles year).
Proof.
  intros H. unfold collectAmpUsageSummary.
  assert (H0 : Balanced emptySummary)
    by (constructor; simpl; try lia; constructor).
  revert H0. generalize emptySummary.
  induction H as [|f fs Hf Hfs IH]; intros acc Hacc; [exact Hacc |].
  simpl. apply IH. now apply processThread_balanced.
Qed.

(** A thread of 4 January 2025 with one user message that mentions a
    file and one assistant message with usage, and a file that does not
    parse. *)
Definition sampleUsage : AmpThreadUsage :=
  {| model := Some "gpt-4o"%string;
     inputTokens := Some 50;
     outputTokens := Some 10;
     cacheReadInputTokens := Some 50;
     credits := Some 2 |}.

Definition sampleThread : AmpThread :=
  {| id := "T-1"%string;
     created := 1735948800000;
     messages :=
       [ {| role := user; usage := None;
            fileMentionFiles := Some ["file:///home/u/proj/src/main.ts"%string] |};
         {| role := assistant; usage := Some sampleUsage;
            fileMentionFiles := None |} ] |}.

Definition sampleFiles : list (option AmpThread) := [Some sampleThread; None].

Lemma sampleFiles_nonNegative : Forall fileNonNegative sampleFiles.
Proof.
  repeat constructor; simpl; unfold messageNonNegative, usageNonNegative;
    simpl; repeat split; try lia; exact I.
Qed.

End CollectorFacts.

(** ** [calculateAmpStats] *)

Section CalculatorShape.

Local Open Scope list_scope.

(** The record [calculateAmpStats] returns, from the summary, the
    streaks and the two instants it computes with. *)
Definition assembleStats (env : Env) (usageSummary : AmpUsageSummary) (year : Z)
  (s : Streaks) (firstSessionDate now : Z) : AmpCodeStats :=
  {| year := year;
     firstSessionDate := firstSessionDate;
     daysSinceFirstSession :=
       Math_floor_div (now - firstSessionDate) (1000 * 60 * 60 * 24);
     totalSessions := Collector.totalSessions usageSummary;
     totalMessages := Collector.totalMessages usageSummary;
     totalProjects := Set_size (projects usageSummary);
     totalInputTokens := Collector.totalInputTokens usageSummary;
     totalOutputTokens := Collector.totalOutputTokens usageSummary;
     totalTokens := Collector.totalTokens usageSummary;
     totalCacheReadTokens := Collector.totalCacheReadTokens usageSummary;
     cacheHitRate := cacheHitRateOf usageSummary;
     totalCredits := Collector.totalCredits usageSummary;
     hasCredits := Collector.totalCredits usageSummary >? 0;
     topModels := rankModels (fst (buildModelStats usageSummary));
     topProviders :=
       rankProviders (Collector.totalTokens usageSummary)
         (snd (buildModelStats usageSummary));
     maxStreak := streaks_maxStreak s;
     currentStreak := streaks_currentStreak s;
     maxStreakDays := streaks_maxStreakDays s;
     dailyActivity := Collector.dailyActivity usageSummary;
     mostActiveDay := findMostActiveDay (Collector.dailyActivity usageSummary);
     weekdayActivity :=
       buildWeekdayActivity
         (fold_left (weekdayStep env) (Collector.dailyActivity usageSummary)
            [0; 0; 0; 0; 0; 0; 0]) |}.

(** The clock is read by [calculateStreaks], then once for the first
    session date when the summary has none, then once for the present. *)
Lemma calculateStats_unfold (env : Env) (fuel : nat)
  (usageSummary : AmpUsageSummary) (year : Z) (n : nat) :
  calculateStats env fuel usageSummary year n
  = let r := calculateStreaks env fuel (Collector.dailyActivity usageSummary)
               year n in
    let first :=
      match firstTimestamp usageSummary with
      | Some f => (f, snd r)
      | None => (clock env (snd r), S (snd r))
      end in
    (match fst r with
     | Some s =>
         Some (assembleStats env usageSummary year s (fst first)
                 (clock env (snd first)))
     | None => None
     end, S (snd first)).
Proof.
  unfold calculateStats, assembleStats, bind, ret, Date_now.
  destruct (buildModelStats usageSummary) as [modelStats providerCounts].
  destruct (calculateStreaks env fuel (Collector.dailyActivity usageSummary) year n)
    as [[s|] n1];
    destruct (firstTimestamp usageSummary) as [f|]; reflexivity.
Qed.

Lemma calculateStats_returns (env : Env) (off : Z) (fuel : nat)
  (usageSummary : AmpUsageSummary) (year : Z) (n : nat) :
  FixedOffset env off ->
  (List.length (Collector.dailyActivity usageSummary) < fuel)%nat ->
  exists r n', calculateStats env fuel usageSummary year n = (Some r, n').
Proof.
  intros Hfix Hfuel. rewrite calculateStats_unfold.
  destruct (calculateStreaks_returns env off fuel
              (Collector.dailyActivity usageSummary) year n Hfix Hfuel)
    as (s & n1 & Hs).
  rewrite Hs. cbv zeta. cbn [fst snd]. eauto.
Qed.

(** A result is assembled from the summary and the streaks. *)
Lemma calculateStats_result (env : Env) (fuel : nat)
  (usageSummary : AmpUsageSummary) (year : Z) (n : nat) r n' :
  calculateStats env fuel usageSummary year n = (Some r, n') ->
  exists s n1 first now,
    calculateStreaks env fuel (Collector.dailyActivity usageSummary) year n
    = (Some s, n1)
    /\ r = assembleStats env usageSummary year s first now.
Proof.
  rewrite calculateStats_unfold. cbv zeta.
  destruct (calculateStreaks env fuel (Collector.dailyActivity usageSummary) year n)
    as [[s|] n1]; cbn [fst snd]; [| discriminate].
  intros H. injection H as <- _. eauto 6.
Qed.

End CalculatorShape.

(** ** The frame of the year filter *)

Section YearFilter.

Local Open Scope list_scope.

(** The file holds no thread of the year: it does not parse, or its
    thread was created in another year of the local calendar. *)
Definition outsideYear (env : Env) (year : Z) (file : option AmpThread) : Prop :=
  match file with
  | Some thread => getFullYear env (created thread) <> year
  | None => True
  end.

Lemma processThread_outside (env : Env) (year : Z) (acc : AmpUsageSummary)
  (file : option AmpThread) :
  outsideYear env year file -> processThread env year acc file = acc.
Proof.
  intros H. destruct file as [thread|]; [| reflexivity].
  unfold processThread. simpl in H.
  destruct (Z.eqb_spec (getFullYear env (created thread)) year); [contradiction |].
  reflexivity.
Qed.

Lemma collect_outside (env : Env) (year : Z) (files : list (option AmpThread))
  (acc : AmpUsageSummary) :
  Forall (outsideYear env year) files ->
  fold_left (processThread env year) files acc = acc.
Proof.
  intros H. induction H as [|f fs Hf Hfs IH]; [reflexivity |].
  simpl. now rewrite processThread_outside.
Qed.

(** C9. A thread whose creation date does not fall in the requested
    year of the local calendar leaves every field of the summary as it
    is; so an input without a thread of the year yields totalSessions =
    0, mostActiveDay = null and maxStreak = 0, and no error. *)
Theorem year_filter_frame :
  (forall env year (before after : list (option AmpThread)) (thread : AmpThread),
      getFullYear env (created thread) <> year ->
      collectAmpUsageSummary env (before ++ Some thread :: after) year
      = collectAmpUsageSummary env (before ++ after) year)
  /\ (forall env fuel (threadFiles : list (option AmpThread)) year n,
        Forall (outsideYear env year) threadFiles ->
        collectAmpUsageSummary env threadFiles year = emptySummary
        /\ exists r,
             calculateAmpStats env fuel threadFiles year n = (Some r, S (S n))
             /\ totalSessions r = 0
             /\ mostActiveDay r = None
             /\ maxStreak r = 0).
Proof.
  split.
  - intros env year before after thread H. unfold collectAmpUsageSummary.
    rewrite !fold_left_app. cbn [fold_left].
    now rewrite (processThread_outside env year _ (Some thread)).
  - intros env fuel threadFiles year n H.
    assert (E : collectAmpUsageSummary env threadFiles year = emptySummary)
      by (apply collect_outside; exact H).
    split; [exact E |].
    unfold calculateAmpStats. rewrite E, calculateStats_unfold.
    change (Collector.dailyActivity emptySummary) with (@nil (string * Z)).
    rewrite calculateStreaks_empty by reflexivity.
    cbv zeta. cbn [fst snd firstTimestamp emptySummary].
    eexists. split; [reflexivity |]. repeat split.
Qed.

Definition otherYearThread : AmpThread :=
  {| id := "T-2"%string; created := 1704067200000; messages := [] |}.

Lemma year_filter_frame_witness :
  getFullYear (frozenEnv 1735948800000 0) (created otherYearThread) <> 2025
  /\ Forall (outsideYear (frozenEnv 1735948800000 0) 2025)
       [Some otherYearThread; None]
  /\ collectAmpUsageSummary (frozenEnv 1735948800000 0)
       ([Some sampleThread] ++ Some otherYearThread :: [None]) 2025
     = collectAmpUsageSummary (frozenEnv 1735948800000 0)
         ([Some sampleThread] ++ [None]) 2025
  /\ exists r,
       calculateAmpStats (frozenEnv 1735948800000 0) 0%nat
         [Some otherYearThread; None] 2025 0%nat = (Some r, 2%nat)
       /\ totalSessions r = 0 /\ mostActiveDay r = None /\ maxStreak r = 0.
Proof.
  assert (H : getFullYear (frozenEnv 1735948800000 0) (created otherYearThread)
              <> 2025) by (vm_compute; discriminate).
  assert (Hall : Forall (outsideYear (frozenEnv 1735948800000 0) 2025)
                   [Some otherYearThread; None])
    by (constructor; [exact H | constructor; [exact I | constructor]]).
  split; [exact H |]. split; [exact Hall |]. split.
  - exact (proj1 year_filter_frame (frozenEnv 1735948800000 0) 2025
             [Some sampleThread] [None] otherYearThread H).
  - exact (proj2 (proj2 year_filter_frame (frozenEnv 1735948800000 0) 0%nat
                    [Some otherYearThread; None] 2025 0%nat Hall)).
Defined.

End YearFilter.

(** ** The cache hit rate *)

Section CacheHitRate.



End CacheHitRate.

(** ** Model and provider ranking *)

Section Ranking.

Local Open Scope list_scope.

(** The entry [modelStats] receives for a model with a positive total. *)
Definition modelStatOf (usageSummary : AmpUsageSummary) (entry : string * Z)
  : AmpModelStats :=
  {| model_id := fst entry;
     model_name := getModelDisplayName (fst entry);
     model_providerId := resolveProviderId (fst entry);
     model_count := snd entry;
     model_percentage :=
       percentageOf (snd entry) (Collector.totalTokens usageSummary);
     model_credits :=
       orZero (Map_get (modelCreditTotals usageSummary) (fst entry)) |}.

Definition positiveEntry (entry : string * Z) : bool := 0 <? snd entry.

(** The sum of the positive model totals of a map. *)
Definition positiveTotal (m : Map Z) : Z := mapSum (filter positiveEntry m).

Lemma modelStep_eq (usageSummary : AmpUsageSummary)
  (modelStats : list AmpModelStats) (providerCounts : Map Z) (entry : string * Z) :
  modelStep usageSummary (modelStats, providerCounts) entry
  = if positiveEntry entry
    then (modelStats ++ [modelStatOf usageSummary entry],
          Map_set providerCounts (resolveProviderId (fst entry))
            (orZero (Map_get providerCounts (resolveProviderId (fst entry)))
             + snd entry))
    else (modelStats, providerCounts).
Proof.
  destruct entry as [modelId tokens]. unfold modelStep, positiveEntry. simpl.
  destruct (Z.leb_spec tokens 0); destruct (Z.ltb_spec 0 tokens);
    try lia; reflexivity.
Qed.

Lemma modelStep_fold (usageSummary : AmpUsageSummary) (entries : Map Z)
  (modelStats : list AmpModelStats) (providerCounts : Map Z) :
  fst (fold_left (modelStep usageSummary) entries (modelStats, providerCounts))
  = modelStats ++ map (modelStatOf usageSummary) (filter positiveEntry entries).
Proof.
  revert modelStats providerCounts.
  induction entries as [|entry entries IH]; intros; cbn [fold_left filter].
  - simpl. now rewrite app_nil_r.
  - rewrite modelStep_eq. destruct (positiveEntry entry).
    + rewrite IH. cbn [map]. now rewrite <- app_assoc.
    + apply IH.
Qed.

Lemma modelStep_providers (usageSummary : AmpUsageSummary) (entries : Map Z)
  (modelStats : list AmpModelStats) (providerCounts : Map Z) :
  Forall (fun e => 0 <= snd e) providerCounts ->
  let result :=
    snd (fold_left (modelStep usageSummary) entries (modelStats, providerCounts)) in
  Forall (fun e => 0 <= snd e) result
  /\ mapSum result = mapSum providerCounts + positiveTotal entries.
Proof.
  revert modelStats providerCounts.
  induction entries as [|entry entries IH]; intros ms pc Hpc;
    cbv zeta; cbn [fold_left].
  - split; [exact Hpc | unfold positiveTotal; simpl; lia].
  - rewrite modelStep_eq. unfold positiveTotal. cbn [filter].
    destruct (positiveEntry entry) eqn:Epos.
    + set (provider := resolveProviderId (fst entry)).
      assert (Hget : 0 <= orZero (Map_get pc provider)).
      { rewrite orZero_get. destruct (Map_get pc provider) as [v|] eqn:E; [| lia].
        exact (Map_get_Forall (fun v => 0 <= v) _ _ _ Hpc E). }
      unfold positiveEntry in Epos. apply Z.ltb_lt in Epos.
      destruct (IH (ms ++ [modelStatOf usageSummary entry])
                  (Map_set pc provider (orZero (Map_get pc provider) + snd entry)))
        as [H1 H2].
      { apply (Map_set_Forall (fun v => 0 <= v)); [exact Hpc | lia]. }
      split; [exact H1 |]. rewrite H2, mapSum_set.
      unfold positiveTotal. simpl. lia.
    + apply IH. exact Hpc.
Qed.

Lemma In_le_mapSum (m : Map Z) (e : string * Z) :
  Forall (fun e => 0 <= snd e) m -> In e m -> snd e <= mapSum m.
Proof.
  intros H. induction H as [|x m Hx Hm IH]; intros Hin; [destruct Hin |].
  simpl. assert (0 <= mapSum m).
  { clear -Hm. induction Hm; simpl; lia. }
  destruct Hin as [-> | Hin]; [lia | specialize (IH Hin); lia].
Qed.

Lemma percentageOf_zero (tokens total : Z) :
  total <= 0 -> percentageOf tokens total = 0%Q.
Proof. intros H. unfold percentageOf. destruct (Z.ltb_spec 0 total); [lia | reflexivity]. Qed.

Lemma percentageOf_positive (tokens total : Z) :
  0 < total ->
  percentageOf tokens total = (inject_Z tokens / inject_Z total * 100)%Q.
Proof. intros H. unfold percentageOf. apply Z.ltb_lt in H. now rewrite H. Qed.

Lemma percentageOf_nonneg (tokens total : Z) :
  0 <= tokens -> (0 <= percentageOf tokens total)%Q.
Proof.
  intros H. unfold percentageOf. destruct (Z.ltb_spec 0 total); [| apply Qle_refl].
  destruct total as [|p|p]; try lia.
  unfold Qle, Qmult, Qdiv, Qinv, inject_Z. simpl. nia.
Qed.

Lemma percentageOf_le_100 (tokens total : Z) :
  tokens <= total -> (percentageOf tokens total <= 100)%Q.
Proof.
  intros H. unfold percentageOf.
  destruct (Z.ltb_spec 0 total); [| unfold Qle; simpl; lia].
  destruct total as [|p|p]; try lia.
  unfold Qle, Qmult, Qdiv, Qinv, inject_Z. simpl. nia.
Qed.

(** Sorting with [(a, b) => key(b) - key(a)] is stable: the elements of
    one key keep their order. *)
Lemma insertSorted_stable {A} (key : A -> Z) (c : Z) (x : A) (l : list A) :
  filter (fun a => key a =? c) (insertSorted (fun a b => key b - key a) x l)
  = filter (fun a => key a =? c) (x :: l).
Proof.
  induction l as [|y l IH]; [reflexivity |].
  cbn [insertSorted]. destruct (Z.leb_spec (key y - key x) 0); [reflexivity |].
  cbn [filter] in *. rewrite IH.
  destruct (Z.eqb_spec (key x) c); destruct (Z.eqb_spec (key y) c);
    try reflexivity; lia.
Qed.

Lemma Array_sort_stable {A} (key : A -> Z) (c : Z) (l : list A) :
  filter (fun a => key a =? c) (Array_sort (fun a b => key b - key a) l)
  = filter (fun a => key a =? c) l.
Proof.
  induction l as [|x l IH]; [reflexivity |].
  unfold Array_sort in *. cbn [fold_right]. rewrite insertSorted_stable.
  cbn [filter]. now rewrite IH.
Qed.

Lemma Array_sort_descending {A} (key : A -> Z) (l : list A) :
  StronglySorted (fun a b => key b <= key a)
    (Array_sort (fun a b => key b - key a) l).
Proof. apply Array_sort_sorted; intros; lia. Qed.

Lemma firstn_incl {A} (n : nat) (l : list A) : incl (firstn n l) l.
Proof.
  intros x Hx. rewrite <- (firstn_skipn n l). apply in_or_app. now left.
Qed.

End Ranking.

Section RankingClaim.

Local Open Scope list_scope.

(** A summary whose one model total exceeds [totalTokens]. *)
Definition overSummary : AmpUsageSummary :=
  {| Collector.totalInputTokens := 100;
     Collector.totalOutputTokens := 0;
     Collector.totalCacheReadTokens := 0;
     Collector.totalTokens := 100;
     Collector.totalCredits := 0;
     modelTokenTotals := [("a"%string, 500)];
     modelCreditTotals := [];
     firstTimestamp := None;
     Collector.dailyActivity := [];
     Collector.totalMessages := 0;
     Collector.totalSessions := 0;
     projects := [] |}.

(** A thread file with a negative token count. *)
Definition negativeUsageThread : AmpThread :=
  {| id := "T-3"%string;
     created := 1735948800000;
     messages :=
       [ {| role := assistant;
            usage := Some {| model := Some "a"%string;
                             inputTokens := Some 500;
                             outputTokens := None;
                             cacheReadInputTokens := None;
                             credits := None |};
            fileMentionFiles := None |};
         {| role := assistant;
            usage := Some {| model := Some "b"%string;
                             inputTokens := Some (-400);
                             outputTokens := None;
                             cacheReadInputTokens := None;
                             credits := None |};
            fileMentionFiles := None |} ] |}.

(** C6, as stated, fails: a percentage can exceed 100.  With a model
    total of 500 and totalTokens = 100 the model's percentage is 500; the
    collector itself produces such a summary from a thread file with a
    negative token count. *)
Lemma percentage_exceeds_100 :
  map model_percentage (rankModels (fst (buildModelStats overSummary)))
  = [(inject_Z 500 / inject_Z 100 * 100)%Q]
  /\ ~ (inject_Z 500 / inject_Z 100 * 100 <= 100)%Q
  /\ (let s := collectAmpUsageSummary (frozenEnv 1735948800000 0)
                 [Some negativeUsageThread] 2025 in
      Collector.totalTokens s = 100
      /\ map model_percentage (rankModels (fst (buildModelStats s)))
         = [(inject_Z 500 / inject_Z 100 * 100)%Q]).
Proof.
  split; [vm_compute; reflexivity |].
  split; [vm_compute; intros H; apply H; reflexivity |].
  split; vm_compute; reflexivity.
Qed.

End RankingClaim.

(** ** The wall clock *)

Section WallClock.

Local Open Scope list_scope.

(** The same zone with another clock. *)
Definition withClock (env : Env) (c : nat -> Z) : Env :=
  {| clock := c; tzOffset := tzOffset env |}.

(** The result without the three fields computed from the clock. *)
Definition clockFreePart (r : AmpCodeStats) : AmpCodeStats :=
  {| year := year r;
     firstSessionDate := 0;
     daysSinceFirstSession := 0;
     totalSessions := totalSessions r;
     totalMessages := totalMessages r;
     totalProjects := totalProjects r;
     totalInputTokens := totalInputTokens r;
     totalOutputTokens := totalOutputTokens r;
     totalTokens := totalTokens r;
     totalCacheReadTokens := totalCacheReadTokens r;
     cacheHitRate := cacheHitRate r;
     totalCredits := totalCredits r;
     hasCredits := hasCredits r;
     topModels := topModels r;
     topProviders := topProviders r;
     maxStreak := maxStreak r;
     currentStreak := 0;
     maxStreakDays := maxStreakDays r;
     dailyActivity := dailyActivity r;
     mostActiveDay := mostActiveDay r;
     weekdayActivity := weekdayActivity r |}.

Lemma countStreakLoop_withClock (env : Env) (c : nat -> Z) (fuel : nat)
  (dailyActivity : Map Z) (streak checkDate : Z) :
  countStreakLoop (withClock env c) fuel dailyActivity streak checkDate
  = countStreakLoop env fuel dailyActivity streak checkDate.
Proof.
  revert streak checkDate. induction fuel as [|fuel IH]; intros; [reflexivity |].
  cbn [countStreakLoop].
  change (formatDateKey (withClock env c)) with (formatDateKey env).
  now rewrite IH.
Qed.

Lemma currentStreakOf_counter (env : Env) (fuel : nat) (dailyActivity : Map Z)
  (n : nat) :
  (n + 2 <= snd (currentStreakOf env fuel dailyActivity n) <= n + 3)%nat.
Proof.
  rewrite currentStreakOf_unfold.
  repeat destruct (Map_has _ _); cbn [snd]; lia.
Qed.

Lemma currentStreakOf_withClock (env : Env) (c : nat -> Z) (fuel : nat)
  (dailyActivity : Map Z) (n : nat) :
  (forall k, (n <= k < n + 3)%nat -> c k = clock env k) ->
  currentStreakOf (withClock env c) fuel dailyActivity n
  = currentStreakOf env fuel dailyActivity n.
Proof.
  intros H. rewrite !currentStreakOf_unfold.
  change (formatDateKey (withClock env c)) with (formatDateKey env).
  change (clock (withClock env c)) with c.
  unfold countStreakBackwards. rewrite !countStreakLoop_withClock.
  now rewrite !H by lia.
Qed.

Lemma calculateStreaks_counter (env : Env) (fuel : nat) (dailyActivity : Map Z)
  (year : Z) (n : nat) :
  (n <= snd (calculateStreaks env fuel dailyActivity year n) <= n + 3)%nat.
Proof.
  destruct (activeDatesOf dailyActivity year) as [|d ds] eqn:E.
  - rewrite calculateStreaks_empty by exact E. cbn [snd]. lia.
  - rewrite calculateStreaks_nonempty by (rewrite E; discriminate).
    cbn [snd]. pose proof (currentStreakOf_counter env fuel dailyActivity n). lia.
Qed.

Lemma calculateStreaks_withClock (env : Env) (c : nat -> Z) (fuel : nat)
  (dailyActivity : Map Z) (year : Z) (n : nat) :
  (forall k, (n <= k < n + 3)%nat -> c k = clock env k) ->
  calculateStreaks (withClock env c) fuel dailyActivity year n
  = calculateStreaks env fuel dailyActivity year n.
Proof.
  intros H. destruct (activeDatesOf dailyActivity year) as [|d ds] eqn:E.
  - now rewrite !calculateStreaks_empty by exact E.
  - rewrite !calculateStreaks_nonempty by (rewrite E; discriminate).
    now rewrite currentStreakOf_withClock by exact H.
Qed.

Lemma assembleStats_withClock (env : Env) (c : nat -> Z)
  (usageSummary : AmpUsageSummary) (year : Z) (s : Streaks) (first now : Z) :
  assembleStats (withClock env c) usageSummary year s first now
  = assembleStats env usageSummary year s first now.
Proof. reflexivity. Qed.

(** The summary of one session on the last day of 2024. *)
Definition lastDaySummary : AmpUsageSummary :=
  {| Collector.totalInputTokens := 0;
     Collector.totalOutputTokens := 0;
     Collector.totalCacheReadTokens := 0;
     Collector.totalTokens := 0;
     Collector.totalCredits := 0;
     modelTokenTotals := [];
     modelCreditTotals := [];
     firstTimestamp := Some lastDayNoon;
     Collector.dailyActivity := lastDayActivity;
     Collector.totalMessages := 0;
     Collector.totalSessions := 1;
     projects := [] |}.

(** Ten days later. *)
Definition tenDaysLater : Z := lastDayNoon + 10 * MS_PER_DAY.

(** C1, as stated, fails: the calculator has no [now] input and reads
    the wall clock, and its result follows the clock.  The same summary
    and year give currentStreak = 1 and daysSinceFirstSession = 0 under
    one clock, 0 and 10 under a clock that shows ten days later. *)
Lemma calculateStats_follows_clock :
  (exists r n,
     calculateStats (frozenEnv lastDayNoon 0) 5%nat lastDaySummary 2024 0%nat
     = (Some r, n)
     /\ currentStreak r = 1 /\ daysSinceFirstSession r = 0)
  /\ (exists r n,
        calculateStats (frozenEnv tenDaysLater 0) 5%nat lastDaySummary 2024 0%nat
        = (Some r, n)
        /\ currentStreak r = 0 /\ daysSinceFirstSession r = 10)
  /\ fst (calculateStats (frozenEnv lastDayNoon 0) 5%nat lastDaySummary 2024 0%nat)
     <> fst (calculateStats (frozenEnv tenDaysLater 0) 5%nat lastDaySummary 2024
               0%nat).
Proof.
  split; [| split].
  - eexists. eexists. split; [vm_compute; reflexivity | split; reflexivity].
  - eexists. eexists. split; [vm_compute; reflexivity | split; reflexivity].
  - vm_compute. intros H. discriminate H.
Qed.

(** C1, amended.  The calculator has no [now] input: it reads the
    ambient wall clock, at most five times.  Its result is a function of
    the summary, the year, the time zone and those readings: two clocks
    that agree on the five readings give the same result.  Whatever the
    clocks, the results agree on every field other than currentStreak,
    firstSessionDate and daysSinceFirstSession, and on firstSessionDate
    too when the summary has a first timestamp. *)
Theorem calculateStats_clock_dependence :
  forall env (c : nat -> Z) fuel (usageSummary : AmpUsageSummary) year n,
    ((forall k, (n <= k < n + 5)%nat -> c k = clock env k) ->
     calculateStats (withClock env c) fuel usageSummary year n
     = calculateStats env fuel usageSummary year n)
    /\ (forall r1 r2 n1 n2,
          calculateStats env fuel usageSummary year n = (Some r1, n1) ->
          calculateStats (withClock env c) fuel usageSummary year n
          = (Some r2, n2) ->
          clockFreePart r1 = clockFreePart r2
          /\ (firstTimestamp usageSummary <> None ->
              firstSessionDate r1 = firstSessionDate r2)).
Proof.
  intros env c fuel usageSummary year n. split.
  - intros H. rewrite !calculateStats_unfold.
    rewrite calculateStreaks_withClock by (intros k Hk; apply H; lia).
    pose proof (calculateStreaks_counter env fuel
                  (Collector.dailyActivity usageSummary) year n) as Hn.
    cbv zeta.
    destruct (calculateStreaks env fuel (Collector.dailyActivity usageSummary)
                year n) as [s n1].
    cbn [fst snd] in *. change (clock (withClock env c)) with c.
    destruct (firstTimestamp usageSummary) as [f|]; cbn [fst snd].
    + rewrite !H by lia. destruct s; reflexivity.
    + rewrite !H by lia. destruct s; reflexivity.
  - intros r1 r2 n1 n2 H1 H2. rewrite calculateStats_unfold in H1, H2.
    cbv zeta in H1, H2.
    destruct (calculateStreaks env fuel (Collector.dailyActivity usageSummary)
                year n) as [[s1|] m1] eqn:E1; cbn [fst snd] in H1; [| discriminate].
    destruct (calculateStreaks (withClock env c) fuel
                (Collector.dailyActivity usageSummary) year n)
      as [[s2|] m2] eqn:E2; cbn [fst snd] in H2; [| discriminate].
    apply calculateStreaks_maxStreak in E1, E2. rewrite <- E1 in E2.
    injection E2 as Em Ed. injection H1 as <- _. injection H2 as <- _.
    split.
    + unfold clockFreePart, assembleStats. cbn -[buildModelStats fold_left].
      now rewrite Em, Ed.
    + intros Hfirst. destruct (firstTimestamp usageSummary); [reflexivity | congruence].
Qed.

Lemma calculateStats_clock_dependence_witness :
  (forall k, (0 <= k < 0 + 5)%nat ->
     (fun i => if (i <? 5)%nat then lastDayNoon else 0) k
     = clock (frozenEnv lastDayNoon 0) k)
  /\ calculateStats
       (withClock (frozenEnv lastDayNoon 0)
          (fun i => if (i <? 5)%nat then lastDayNoon else 0))
       5%nat lastDaySummary 2024 0%nat
     = calculateStats (frozenEnv lastDayNoon 0) 5%nat lastDaySummary 2024 0%nat.
Proof.
  assert (H : forall k, (0 <= k < 0 + 5)%nat ->
                (fun i => if (i <? 5)%nat then lastDayNoon else 0) k
                = clock (frozenEnv lastDayNoon 0) k).
  { intros k Hk. cbv beta. destruct (Nat.ltb_spec k 5); [reflexivity | lia]. }
  split; [exact H |].
  exact (proj1 (calculateStats_clock_dependence (frozenEnv lastDayNoon 0)
                  (fun i => if (i <? 5)%nat then lastDayNoon else 0)
                  5%nat lastDaySummary 2024 0%nat) H).
Defined.

End WallClock.

(** * Further properties of the code *)

(** ** Date keys and the backward walk *)

Section DateKeyProperties.

Local Open Scope list_scope.

(** X1.  [formatDateKey] gives two instants the same key exactly when they
    fall on the same day of the local calendar. *)
Theorem formatDateKey_same_day :
  forall env t1 t2,
    formatDateKey env t1 = formatDateKey env t2
    <-> localDay env t1 = localDay env t2.
Proof.
  intros env t1 t2. rewrite !formatDateKey_dateKeyOfDay. split.
  - apply dateKeyOfDay_inj.
  - now intros ->.
Qed.

Lemma parseDateKey_dateKeyOfDay (n : Z) :
  1000 <= yearOfDay n <= 9999 ->
  parseDateKey (dateKeyOfDay n) = Some (civil_from_days n).
Proof.
  unfold yearOfDay. intros Hy.
  pose proof (dateKeyOfDay_shape n) as S1.
  pose proof (civil_from_days_valid n) as V.
  destruct (civil_from_days n) as [[y m] d]. destruct V as [Hm Hd].
  assert (Hd31 : d <= 31).
  { unfold daysInMonth in Hd.
    destruct (m =? 2); [destruct (isLeapYear y); lia |].
    destruct ((m =? 4) || (m =? 6) || (m =? 9) || (m =? 11)); lia. }
  rewrite S1, Number_toString_fmt4 by lia.
  unfold parseDateKey, fmt4.
  pose proof (digits2_fmt2 (y / 100) ltac:(Z.div_mod_to_equations; lia)) as D1.
  pose proof (digits2_fmt2 (y mod 100) ltac:(Z.div_mod_to_equations; lia)) as D2.
  pose proof (digits2_fmt2 m ltac:(lia)) as D3.
  pose proof (digits2_fmt2 d ltac:(lia)) as D4.
  unfold fmt2 in *. cbn [append].
  unfold digits4. rewrite D1, D2, D3, D4.
  replace (100 * (y / 100) + y mod 100) with y by (Z.div_mod_to_equations; lia).
  replace ((1 <=? m) && (m <=? 12) && (1 <=? d) && (d <=? daysInMonth y m)) with true.
  - reflexivity.
  - symmetry. rewrite !andb_true_iff. repeat split; apply Z.leb_le; lia.
Qed.

(** X2.  A key [formatDateKey] writes for an instant of a four-digit year is
    read back by [new Date(key)] as midnight UTC of that local day, with
    the year, month and day the key was written from. *)
Theorem formatDateKey_parse_roundtrip :
  forall env t,
    1000 <= getFullYear env t <= 9999 ->
    parseDateKey (formatDateKey env t)
    = Some (getFullYear env t, getMonth env t + 1, getDate env t)
    /\ Date_parse (formatDateKey env t) = Some (localDay env t * MS_PER_DAY).
Proof.
  intros env t Hy.
  assert (Hfour : 1000 <= yearOfDay (localDay env t) <= 9999) by exact Hy.
  rewrite formatDateKey_dateKeyOfDay.
  split; [| now apply Date_parse_dateKeyOfDay].
  rewrite parseDateKey_dateKeyOfDay by exact Hfour.
  unfold getFullYear, getMonth, getDate.
  destruct (civil_from_days (localDay env t)) as [[y m] d].
  now replace (m - 1 + 1) with m by lia.
Qed.

Lemma formatDateKey_parse_roundtrip_witness :
  1000 <= getFullYear (frozenEnv 0 3600000) 1735948800000 <= 9999
  /\ Date_parse (formatDateKey (frozenEnv 0 3600000) 1735948800000)
     = Some (localDay (frozenEnv 0 3600000) 1735948800000 * MS_PER_DAY).
Proof.
  assert (H : 1000 <= getFullYear (frozenEnv 0 3600000) 1735948800000 <= 9999)
    by (vm_compute; split; discriminate).
  split; [exact H |].
  exact (proj2 (formatDateKey_parse_roundtrip (frozenEnv 0 3600000)
                  1735948800000 H)).
Defined.

(** X3.  In a zone of fixed offset the [while (true)] loop of
    [countStreakBackwards] ends after at most as many rounds as the map
    has entries, plus one.  It returns at least 1, counting the start day
    whether or not it is active, and at most one more than the number of
    entries; the counted days before the start are all active and the
    next one is not.  More fuel does not change the result. *)
Theorem countStreakBackwards_terminates :
  forall env off fuel (dailyActivity : Map Z) startDate,
    FixedOffset env off ->
    (List.length dailyActivity < fuel)%nat ->
    exists k,
      countStreakBackwards env fuel dailyActivity startDate = Some k
      /\ 1 <= k <= Z.of_nat (List.length dailyActivity) + 1
      /\ (forall i, 1 <= i < k ->
            activeDay dailyActivity (localDay env startDate - i) = true)
      /\ activeDay dailyActivity (localDay env startDate - k) = false
      /\ forall fuel',
           (List.length dailyActivity < fuel')%nat ->
           countStreakBackwards env fuel' dailyActivity startDate = Some k.
Proof.
  intros env off fuel dailyActivity startDate Hfix Hfuel.
  assert (Hany : forall f, (List.length dailyActivity < f)%nat ->
            exists j, countStreakLoop env f dailyActivity 1 startDate = Some j
                      /\ 1 <= j
                      /\ (forall i, 1 <= i < j ->
                            activeDay dailyActivity
                              (localDay env startDate - i) = true)
                      /\ activeDay dailyActivity (localDay env startDate - j)
                         = false).
  { intros f Hf.
    pose proof (countStreakLoop_spec env off dailyActivity Hfix f 1 startDate) as H.
    destruct (countStreakLoop_returns env off dailyActivity f 1 startDate Hfix Hf)
      as [r Hr].
    rewrite Hr in H. destruct H as (j & Hj & -> & Hact & Hgap).
    exists (1 + j - 1). split; [exact Hr |].
    replace (1 + j - 1) with j by lia. split; [lia |]. now split. }
  destruct (Hany fuel Hfuel) as (k & Hk & Hk1 & Hact & Hgap).
  exists k. unfold countStreakBackwards. split; [exact Hk |].
  split; [| split; [exact Hact | split; [exact Hgap |]]].
  - split; [exact Hk1 |].
    assert (Hb : (Z.to_nat (k - 1) <= List.length dailyActivity)%nat).
    { apply (active_days_bounded dailyActivity (localDay env startDate)).
      intros i Hi. apply Hact. lia. }
    lia.
  - intros fuel' Hfuel'.
    destruct (Hany fuel' Hfuel') as (k' & Hk' & Hk1' & Hact' & Hgap').
    rewrite Hk'. f_equal.
    destruct (Z.lt_trichotomy k k') as [L | [E | G]]; [| now symmetry |].
    + rewrite Hact' in Hgap by lia. discriminate.
    + rewrite Hact in Hgap' by lia. discriminate.
Qed.

Lemma countStreakBackwards_terminates_witness :
  FixedOffset (frozenEnv 1735948800000 0) 0
  /\ (List.length scenarioActivity < 5)%nat
  /\ countStreakBackwards (frozenEnv 1735948800000 0) 5%nat scenarioActivity
       (1735948800000 - 24 * 60 * 60 * 1000) = Some 3.
Proof.
  split; [apply frozenEnv_fixed |]. split; [simpl; lia |].
  destruct (countStreakBackwards_terminates (frozenEnv 1735948800000 0) 0 5%nat
              scenarioActivity (1735948800000 - 24 * 60 * 60 * 1000)
              (frozenEnv_fixed _ _) ltac:(simpl; lia))
    as (k & Hk & _).
  rewrite Hk. vm_compute in Hk. symmetry. exact Hk.
Defined.

End DateKeyProperties.

(** ** The most active day and the weekdays *)

Section MostActive.

Local Open Scope list_scope.

Definition mostActiveStep (acc : string * Z) (entry : string * Z) : string * Z :=
  let '(maxDate, maxCount) := acc in
  let '(date, count) := entry in
  if count >? maxCount then (date, count) else (maxDate, maxCount).

(** What the loop of [findMostActiveDay] holds after the entries [seen]. *)
Definition MostActiveInv (seen : Map Z) (acc : string * Z) : Prop :=
  (snd acc = 0 /\ fst acc = EmptyString /\ forall e, In e seen -> snd e <= 0)
  \/ (0 < snd acc
      /\ exists before after,
           seen = before ++ acc :: after
           /\ (forall e, In e before -> snd e < snd acc)
           /\ (forall e, In e after -> snd e <= snd acc)).

Lemma mostActiveStep_inv (seen : Map Z) (acc entry : string * Z) :
  MostActiveInv seen acc -> MostActiveInv (seen ++ [entry]) (mostActiveStep acc entry).
Proof.
  destruct acc as [maxDate maxCount]. destruct entry as [date count].
  unfold mostActiveStep. intros H.
  destruct (Z.gtb_spec count maxCount) as [Hgt | Hle].
  - right. simpl. split; [destruct H as [[H0 _] | [H0 _]]; simpl in H0; lia |].
    exists seen, []. split; [reflexivity |]. split; [| intros e []].
    intros e He. destruct H as [(H0 & _ & Hall) | (H0 & before & after & -> & Hb & Ha)];
      simpl in *.
    + specialize (Hall e He). lia.
    + apply in_app_or in He. destruct He as [He | [<- | He]].
      * specialize (Hb e He). lia.
      * simpl. lia.
      * specialize (Ha e He). lia.
  - destruct H as [(H0 & Hd & Hall) | (H0 & before & after & -> & Hb & Ha)];
      simpl in *.
    + left. simpl. split; [exact H0 |]. split; [exact Hd |].
      intros e He. apply in_app_or in He.
      destruct He as [He | [<- | []]]; [now apply Hall | simpl; lia].
    + right. simpl. split; [exact H0 |].
      exists before, (after ++ [(date, count)]).
      split; [now rewrite <- app_assoc |]. split; [exact Hb |].
      intros e He. apply in_app_or in He.
      destruct He as [He | [<- | []]]; [now apply Ha | simpl; lia].
Qed.

Lemma mostActive_fold (entries seen : Map Z) (acc : string * Z) :
  MostActiveInv seen acc ->
  MostActiveInv (seen ++ entries) (fold_left mostActiveStep entries acc).
Proof.
  revert seen acc. induction entries as [|e entries IH]; intros seen acc H.
  - now rewrite app_nil_r.
  - simpl. replace (seen ++ e :: entries) with ((seen ++ [e]) ++ entries)
      by (now rewrite <- app_assoc).
    apply IH. now apply mostActiveStep_inv.
Qed.

Lemma findMostActiveDay_eq (dailyActivity : Map Z) :
  findMostActiveDay dailyActivity
  = if Map_size dailyActivity =? 0 then None
    else
      let acc := fold_left mostActiveStep dailyActivity (EmptyString, 0) in
      if String.eqb (fst acc) EmptyString then None
      else Some {| day_date := fst acc;
                   day_count := snd acc;
                   day_formattedDate := formatMonthDay (fst acc) |}.
Proof.
  assert (E : forall l acc,
             fold_left
               (fun '(maxDate, maxCount) '(date, count) =>
                  if count >? maxCount then (date, count) else (maxDate, maxCount))
               l acc
             = fold_left mostActiveStep l acc).
  { induction l as [|[date count] l IH]; intros [maxDate maxCount];
      [reflexivity | apply IH]. }
  unfold findMostActiveDay. rewrite E.
  destruct (Map_size dailyActivity =? 0); [reflexivity |].
  now destruct (fold_left mostActiveStep dailyActivity (EmptyString, 0)).
Qed.

(** X4.  [findMostActiveDay] returns the first entry, in the order of the
    map, that has the largest count: the count is positive, every entry
    before it has a smaller count and none after it a larger one.  It
    returns null when no count is positive, the empty map included, and
    it does return a day when some count is positive and no key is the
    empty string. *)
Theorem findMostActiveDay_first_largest :
  forall dailyActivity : Map Z,
    (forall d,
        findMostActiveDay dailyActivity = Some d ->
        0 < day_count d
        /\ day_date d <> EmptyString
        /\ day_formattedDate d = formatMonthDay (day_date d)
        /\ exists before after,
             dailyActivity = before ++ (day_date d, day_count d) :: after
             /\ (forall e, In e before -> snd e < day_count d)
             /\ (forall e, In e after -> snd e <= day_count d))
    /\ ((forall e, In e dailyActivity -> snd e <= 0) ->
        findMostActiveDay dailyActivity = None)
    /\ ((exists e, In e dailyActivity /\ 0 < snd e) ->
        (forall e, In e dailyActivity -> fst e <> EmptyString) ->
        findMostActiveDay dailyActivity <> None).
Proof.
  intros dailyActivity.
  pose proof (mostActive_fold dailyActivity [] (EmptyString, 0)) as Hinv.
  simpl in Hinv.
  assert (H0 : MostActiveInv [] (EmptyString, 0))
    by (left; simpl; repeat split; intros e []).
  specialize (Hinv H0). rewrite findMostActiveDay_eq.
  destruct (fold_left mostActiveStep dailyActivity (EmptyString, 0))
    as [maxDate maxCount] eqn:Efold.
  cbv zeta. cbn [fst snd].
  split; [| split].
  - intros d Hd.
    destruct (Map_size dailyActivity =? 0); [discriminate |].
    destruct (String.eqb_spec maxDate EmptyString) as [|Hne]; [discriminate |].
    injection Hd as <-. cbn [day_date day_count day_formattedDate].
    destruct Hinv as [(_ & Hd & _) | (Hpos & before & after & Heq & Hb & Ha)];
      simpl in *; [contradiction |].
    split; [exact Hpos |]. split; [exact Hne |]. split; [reflexivity |].
    exists before, after. now repeat split.
  - intros Hall. destruct (Map_size dailyActivity =? 0); [reflexivity |].
    destruct Hinv as [(_ & Hd & _) | (Hpos & before & after & Heq & _)];
      simpl in *.
    + subst maxDate. reflexivity.
    + exfalso. assert (Hin : In (maxDate, maxCount) dailyActivity)
        by (rewrite Heq; apply in_or_app; right; now left).
      specialize (Hall _ Hin). simpl in Hall. lia.
  - intros [e [He Hpos]] Hkeys.
    destruct (Z.eqb_spec (Map_size dailyActivity) 0) as [Hsize|_].
    + unfold Map_size in Hsize. destruct dailyActivity; [destruct He | discriminate].
    + destruct Hinv as [(_ & _ & Hall) | (_ & before & after & Heq & _)];
        simpl in *.
      * specialize (Hall e He). lia.
      * assert (Hin : In (maxDate, maxCount) dailyActivity)
          by (rewrite Heq; apply in_or_app; right; now left).
        specialize (Hkeys _ Hin). simpl in Hkeys.
        destruct (String.eqb_spec maxDate EmptyString); [contradiction | discriminate].
Qed.

Lemma findMostActiveDay_first_largest_witness :
  (exists e, In e scenarioActivity /\ 0 < snd e)
  /\ (forall e, In e scenarioActivity -> fst e <> EmptyString)
  /\ findMostActiveDay scenarioActivity <> None.
Proof.
  assert (H1 : exists e, In e scenarioActivity /\ 0 < snd e).
  { exists ("2025-01-01"%string, 1). split; [now left | simpl; lia]. }
  assert (H2 : forall e, In e scenarioActivity -> fst e <> EmptyString).
  { intros e He. simpl in He.
    destruct He as [<- | [<- | [<- | [<- | []]]]]; discriminate. }
  split; [exact H1 |]. split; [exact H2 |].
  exact (proj2 (proj2 (findMostActiveDay_first_largest scenarioActivity)) H1 H2).
Defined.

End MostActive.

Section Weekdays.

Local Open Scope list_scope.

Definition weekdayMaxStep (counts : list Z) (acc : nat * Z) (i : nat) : nat * Z :=
  let '(best, mx) := acc in
  if nth i counts 0 >? mx then (i, nth i counts 0) else (best, mx).

(** What the loop of [buildWeekdayActivity] holds after the slots below
    [n]. *)
Definition WeekdayInv (counts : list Z) (n : nat) (acc : nat * Z) : Prop :=
  (snd acc = 0 /\ fst acc = 0%nat
   /\ forall i, (i < n)%nat -> nth i counts 0 <= 0)
  \/ (0 < snd acc /\ (fst acc < n)%nat
      /\ nth (fst acc) counts 0 = snd acc
      /\ (forall i, (i < fst acc)%nat -> nth i counts 0 < snd acc)
      /\ (forall i, (i < n)%nat -> nth i counts 0 <= snd acc)).

Lemma weekdayMax_fold (counts : list Z) (n : nat) :
  WeekdayInv counts n (fold_left (weekdayMaxStep counts) (seq 0 n) (0%nat, 0)).
Proof.
  induction n as [|n IH].
  - left. simpl. repeat split. intros i Hi. lia.
  - rewrite seq_S, fold_left_app. simpl.
    destruct (fold_left (weekdayMaxStep counts) (seq 0 n) (0%nat, 0))
      as [best mx].
    unfold weekdayMaxStep.
    destruct (Z.gtb_spec (nth n counts 0) mx) as [Hgt | Hle].
    + right. simpl. split.
      { destruct IH as [(H0 & _) | (H0 & _)]; simpl in H0; lia. }
      split; [lia |]. split; [reflexivity |]. split.
      * intros i Hi.
        destruct IH as [(H0 & _ & Hall) | (H0 & _ & _ & _ & Hall)]; simpl in *;
          specialize (Hall i Hi); lia.
      * intros i Hi. destruct (Nat.eq_dec i n) as [->|Hne]; [lia |].
        destruct IH as [(H0 & _ & Hall) | (H0 & _ & _ & _ & Hall)]; simpl in *;
          specialize (Hall i ltac:(lia)); lia.
    + destruct IH as [(H0 & Hb & Hall) | (H0 & Hb & Hn & Hlt & Hall)]; simpl in *.
      * left. simpl. split; [exact H0 |]. split; [exact Hb |].
        intros i Hi. destruct (Nat.eq_dec i n) as [->|Hne]; [lia |].
        apply Hall. lia.
      * right. simpl. split; [exact H0 |]. split; [lia |].
        split; [exact Hn |]. split; [exact Hlt |].
        intros i Hi. destruct (Nat.eq_dec i n) as [->|Hne]; [lia |].
        apply Hall. lia.
Qed.

(** X5.  [buildWeekdayActivity] reports the first weekday with the largest
    count and that count; with no positive count it reports Sunday and
    0.  The index is one of the seven and the name is the name at that
    index. *)
Theorem buildWeekdayActivity_first_largest :
  forall counts : list Z,
    let w := buildWeekdayActivity counts in
    weekday_counts w = counts
    /\ 0 <= weekday_mostActiveDay w <= 6
    /\ weekday_mostActiveDayName w
       = nth (Z.to_nat (weekday_mostActiveDay w)) WEEKDAY_NAMES_FULL EmptyString
    /\ 0 <= weekday_maxCount w
    /\ (forall i, (i < 7)%nat -> nth i counts 0 <= weekday_maxCount w)
    /\ (0 < weekday_maxCount w ->
          nth (Z.to_nat (weekday_mostActiveDay w)) counts 0 = weekday_maxCount w
          /\ forall i, (i < Z.to_nat (weekday_mostActiveDay w))%nat ->
               nth i counts 0 < weekday_maxCount w)
    /\ ((forall i, (i < 7)%nat -> nth i counts 0 <= 0) ->
          weekday_mostActiveDay w = 0 /\ weekday_maxCount w = 0
          /\ weekday_mostActiveDayName w = "Sunday"%string).
Proof.
  intros counts w. subst w. unfold buildWeekdayActivity.
  pose proof (weekdayMax_fold counts 7) as Hinv.
  assert (E : forall l acc,
             fold_left
               (fun '(best, mx) i =>
                  if nth i counts 0 >? mx then (i, nth i counts 0) else (best, mx))
               l acc
             = fold_left (weekdayMaxStep counts) l acc).
  { induction l as [|i l IH]; intros [best mx]; [reflexivity | apply IH]. }
  rewrite E.
  destruct (fold_left (weekdayMaxStep counts) (seq 0 7) (0%nat, 0)) as [best mx].
  cbn [weekday_counts weekday_mostActiveDay weekday_mostActiveDayName
       weekday_maxCount].
  rewrite Nat2Z.id.
  destruct Hinv as [(H0 & Hb & Hall) | (H0 & Hb & Hn & Hlt & Hall)];
    cbn [fst snd] in *.
  - subst best mx.
    split; [reflexivity |]. split; [lia |]. split; [reflexivity |].
    split; [lia |]. split; [exact Hall |]. split; [lia |].
    intros _. now repeat split.
  - split; [reflexivity |]. split; [lia |]. split; [reflexivity |].
    split; [lia |]. split; [exact Hall |]. split.
    + intros _. split; [exact Hn | exact Hlt].
    + intros Hnone. specialize (Hnone best Hb). lia.
Qed.

Lemma buildWeekdayActivity_first_largest_witness :
  0 < weekday_maxCount (buildWeekdayActivity [0; 2; 5; 5; 1; 0; 0])
  /\ nth (Z.to_nat (weekday_mostActiveDay (buildWeekdayActivity [0; 2; 5; 5; 1; 0; 0])))
       [0; 2; 5; 5; 1; 0; 0] 0
     = weekday_maxCount (buildWeekdayActivity [0; 2; 5; 5; 1; 0; 0]).
Proof.
  assert (H : 0 < weekday_maxCount (buildWeekdayActivity [0; 2; 5; 5; 1; 0; 0]))
    by (vm_compute; reflexivity).
  split; [exact H |].
  pose proof (buildWeekdayActivity_first_largest [0; 2; 5; 5; 1; 0; 0]) as Hw.
  cbv zeta in Hw. destruct Hw as (_ & _ & _ & _ & _ & Hpos & _).
  exact (proj1 (Hpos H)).
Defined.

Definition listSum (l : list Z) : Z := fold_right Z.add 0 l.

Lemma updateAt_length (i : nat) (f : Z -> Z) (l : list Z) :
  List.length (updateAt i f l) = List.length l.
Proof.
  unfold updateAt. rewrite <- (firstn_skipn i l) at 3.
  rewrite !length_app. f_equal. now destruct (skipn i l).
Qed.

Lemma listSum_app (a b : list Z) : listSum (a ++ b) = listSum a + listSum b.
Proof. induction a as [|x a IH]; simpl; [reflexivity | rewrite IH; lia]. Qed.

Lemma updateAt_sum (i : nat) (x : Z) (l : list Z) :
  (i < List.length l)%nat ->
  listSum (updateAt i (fun c => c + x) l) = listSum l + x.
Proof.
  intros Hi. unfold updateAt. rewrite <- (firstn_skipn i l) at 3.
  rewrite !listSum_app.
  destruct (skipn i l) as [|y rest] eqn:E.
  - exfalso. apply (f_equal (@List.length Z)) in E.
    rewrite length_skipn in E. simpl in E. lia.
  - simpl. lia.
Qed.

(** The entries of the map whose key [new Date(key)] can read. *)
Definition datedEntries (dailyActivity : Map Z) : Map Z :=
  filter (fun e => match Date_parse (fst e) with Some _ => true | None => false end)
    dailyActivity.

Lemma getDay_range (env : Env) (t : Z) : 0 <= getDay env t < 7.
Proof. unfold getDay. apply Z.mod_pos_bound. lia. Qed.

Lemma weekdayStep_fold (env : Env) (entries : Map Z) :
  forall counts,
    List.length counts = 7%nat ->
    List.length (fold_left (weekdayStep env) entries counts) = 7%nat
    /\ listSum (fold_left (weekdayStep env) entries counts)
       = listSum counts + mapSum (datedEntries entries).
Proof.
  induction entries as [|[key count] entries IH]; intros counts Hlen.
  - simpl. split; [exact Hlen | lia].
  - cbn [fold_left]. unfold datedEntries. cbn [filter fst].
    unfold weekdayStep at 2 4.
    destruct (Date_parse key) as [t|].
    + pose proof (getDay_range env t) as Hr.
      destruct (IH (updateAt (Z.to_nat (getDay env t)) (fun c => c + count) counts))
        as [H1 H2]; [now rewrite updateAt_length |].
      split; [exact H1 |]. rewrite H2, updateAt_sum by lia.
      unfold datedEntries. simpl. lia.
    + destruct (IH counts Hlen) as [H1 H2]. split; [exact H1 |].
      rewrite H2. reflexivity.
Qed.

(** X6.  The loop that fills [weekdayCounts] keeps the seven slots and adds
    every count whose key is a date to exactly one of them: the slots
    sum to the counts of the dated entries, whatever the zone. *)
Theorem weekdayCounts_total :
  forall env (dailyActivity : Map Z),
    let w := fold_left (weekdayStep env) dailyActivity [0; 0; 0; 0; 0; 0; 0] in
    List.length w = 7%nat
    /\ listSum w = mapSum (datedEntries dailyActivity).
Proof.
  intros env dailyActivity.
  destruct (weekdayStep_fold env dailyActivity [0; 0; 0; 0; 0; 0; 0] eq_refl)
    as [H1 H2].
  cbv zeta. split; [exact H1 |]. rewrite H2. reflexivity.
Qed.

(** The weekday of a day number, Sunday being 0. *)
Definition weekdayOfDay (n : Z) : Z := (n + 4) mod 7.

(** X7.  [new Date(key)] reads a date key as midnight UTC and [getDay] then
    takes the weekday in local time.  In a zone at or up to a day east
    of UTC the key of a day is counted on that day's weekday; in a zone
    west of UTC it is counted on the weekday before. *)
Theorem weekdayStep_zone :
  forall env off n count (counts : list Z),
    FixedOffset env off -> 1000 <= yearOfDay n <= 9999 ->
    (0 <= off < MS_PER_DAY ->
       weekdayStep env counts (dateKeyOfDay n, count)
       = updateAt (Z.to_nat (weekdayOfDay n)) (fun c => c + count) counts)
    /\ (- MS_PER_DAY <= off < 0 ->
          weekdayStep env counts (dateKeyOfDay n, count)
          = updateAt (Z.to_nat (weekdayOfDay (n - 1))) (fun c => c + count) counts).
Proof.
  intros env off n count counts Hfix Hyear.
  unfold weekdayStep. rewrite Date_parse_dateKeyOfDay by exact Hyear.
  unfold getDay, localDay, weekdayOfDay. rewrite Hfix. unfold MS_PER_DAY.
  split; intros Hoff; do 3 f_equal; Z.div_mod_to_equations; lia.
Qed.

Lemma weekdayStep_zone_witness :
  FixedOffset (frozenEnv 0 (-18000000)) (-18000000)
  /\ 1000 <= yearOfDay 20092 <= 9999
  /\ - MS_PER_DAY <= -18000000 < 0
  /\ dateKeyOfDay 20092 = "2025-01-04"%string
  /\ weekdayOfDay 20092 = 6
  /\ weekdayStep (frozenEnv 0 (-18000000)) [0; 0; 0; 0; 0; 0; 0]
       (dateKeyOfDay 20092, 1)
     = [0; 0; 0; 0; 0; 1; 0].
Proof.
  assert (Hy : 1000 <= yearOfDay 20092 <= 9999) by (vm_compute; split; discriminate).
  assert (Ho : - MS_PER_DAY <= -18000000 < 0) by (unfold MS_PER_DAY; lia).
  split; [apply frozenEnv_fixed |]. split; [exact Hy |]. split; [exact Ho |].
  split; [vm_compute; reflexivity |]. split; [reflexivity |].
  rewrite (proj2 (weekdayStep_zone (frozenEnv 0 (-18000000)) (-18000000) 20092 1
                    [0; 0; 0; 0; 0; 0; 0] (frozenEnv_fixed _ _) Hy) Ho).
  reflexivity.
Defined.

End Weekdays.

(** ** What the collector accumulates *)

Section CollectorSums.

Local Open Scope list_scope.

(** The threads of the files that are counted for the year, in the order
    of the files. *)
Definition matchingThreads (env : Env) (year : Z)
  (threadFiles : list (option AmpThread)) : list AmpThread :=
  flat_map (fun file =>
              match file with
              | Some thread =>
                  if getFullYear env (created thread) =? year then [thread] else []
              | None => []
              end) threadFiles.

Definition sumOver {A} (f : A -> Z) (l : list A) : Z :=
  fold_right (fun x acc => f x + acc) 0 l.

(** The usage block the collector reads from a message. *)
Definition countedUsage (m : AmpMessage) : option AmpThreadUsage :=
  match role m with
  | assistant => usage m
  | user => None
  end.

Definition messageInput (m : AmpMessage) : Z :=
  match countedUsage m with Some u => orZero (inputTokens u) | None => 0 end.

Definition messageOutput (m : AmpMessage) : Z :=
  match countedUsage m with Some u => orZero (outputTokens u) | None => 0 end.

Definition messageCacheRead (m : AmpMessage) : Z :=
  match countedUsage m with Some u => orZero (cacheReadInputTokens u) | None => 0 end.

Definition messageCredits (m : AmpMessage) : Z :=
  match countedUsage m with Some u => orZero (credits u) | None => 0 end.

Definition messageIsUser (m : AmpMessage) : Z :=
  match role m with user => 1 | assistant => 0 end.

(** The seven scalar totals of a summary. *)
Definition scalarTotals (s : AmpUsageSummary) : list Z :=
  [ Collector.totalInputTokens s; Collector.totalOutputTokens s;
    Collector.totalCacheReadTokens s; Collector.totalTokens s;
    Collector.totalCredits s; Collector.totalMessages s;
    Collector.totalSessions s ].

(** What one message adds to them. *)
Definition messageDelta (m : AmpMessage) : list Z :=
  [ messageInput m; messageOutput m; messageCacheRead m;
    messageInput m + messageOutput m + messageCacheRead m;
    messageCredits m; messageIsUser m; 0 ].

Definition addTotals (a b : list Z) : list Z :=
  map (fun p => fst p + snd p) (combine a b).

Definition threadDelta (thread : AmpThread) : list Z :=
  fold_right (fun m acc => addTotals (messageDelta m) acc) [0; 0; 0; 0; 0; 0; 1]
    (messages thread).

Lemma processMessage_scalars (acc : AmpUsageSummary) (m : AmpMessage) :
  scalarTotals (processMessage acc m) = addTotals (scalarTotals acc) (messageDelta m)
  /\ Collector.dailyActivity (processMessage acc m) = Collector.dailyActivity acc
  /\ firstTimestamp (processMessage acc m) = firstTimestamp acc.
Proof.
  unfold processMessage, scalarTotals, messageDelta, addTotals, messageInput,
    messageOutput, messageCacheRead, messageCredits, messageIsUser, countedUsage.
  destruct (role m); destruct (usage m) as [u|]; simpl;
    repeat split; repeat f_equal; lia.
Qed.

Lemma addTotals_assoc (a b c : list Z) :
  addTotals (addTotals a b) c = addTotals a (addTotals b c).
Proof.
  unfold addTotals. revert b c. induction a as [|x a IH]; intros [|y b] [|z c];
    simpl; try reflexivity.
  rewrite IH. f_equal. lia.
Qed.

Lemma addTotals_comm (a b : list Z) : addTotals a b = addTotals b a.
Proof.
  unfold addTotals. revert b. induction a as [|x a IH]; intros [|y b];
    simpl; try reflexivity.
  rewrite IH. f_equal. lia.
Qed.

Lemma addTotals_length (a b : list Z) :
  List.length a = 7%nat -> List.length b = 7%nat ->
  List.length (addTotals a b) = 7%nat.
Proof.
  intros Ha Hb. unfold addTotals. rewrite length_map, length_combine. lia.
Qed.

Lemma messageFold_length (msgs : list AmpMessage) (base : list Z) :
  List.length base = 7%nat ->
  List.length (fold_right (fun m acc => addTotals (messageDelta m) acc) base msgs)
  = 7%nat.
Proof.
  intros Hb. induction msgs as [|m msgs IH]; [exact Hb |].
  simpl. now apply addTotals_length.
Qed.

Lemma processMessages_scalars (msgs : list AmpMessage) (acc : AmpUsageSummary) :
  scalarTotals (fold_left processMessage msgs acc)
  = addTotals (scalarTotals acc)
      (fold_right (fun m d => addTotals (messageDelta m) d) [0; 0; 0; 0; 0; 0; 0] msgs)
  /\ Collector.dailyActivity (fold_left processMessage msgs acc)
     = Collector.dailyActivity acc
  /\ firstTimestamp (fold_left processMessage msgs acc) = firstTimestamp acc.
Proof.
  revert acc. induction msgs as [|m msgs IH]; intros acc.
  - simpl. repeat split. unfold addTotals, scalarTotals. simpl.
    repeat f_equal; lia.
  - cbn [fold_left fold_right].
    destruct (IH (processMessage acc m)) as (H1 & H2 & H3).
    destruct (processMessage_scalars acc m) as (G1 & G2 & G3).
    rewrite H1, H2, H3, G1, G2, G3. repeat split.
    now rewrite addTotals_assoc.
Qed.

Lemma threadDelta_split (thread : AmpThread) :
  threadDelta thread
  = addTotals [0; 0; 0; 0; 0; 0; 1]
      (fold_right (fun m d => addTotals (messageDelta m) d) [0; 0; 0; 0; 0; 0; 0]
         (messages thread)).
Proof.
  unfold threadDelta. induction (messages thread) as [|m msgs IH]; [reflexivity |].
  cbn [fold_right]. rewrite IH.
  rewrite <- !addTotals_assoc. f_equal. apply addTotals_comm.
Qed.

(** What one file does to the totals, the days and the first timestamp. *)
Lemma processThread_counted (env : Env) (year : Z) (acc : AmpUsageSummary)
  (thread : AmpThread) :
  getFullYear env (created thread) = year ->
  scalarTotals (processThread env year acc (Some thread))
  = addTotals (scalarTotals acc) (threadDelta thread)
  /\ Collector.dailyActivity (processThread env year acc (Some thread))
     = Map_set (Collector.dailyActivity acc) (formatDateKey env (created thread))
         (orZero (Map_get (Collector.dailyActivity acc)
                    (formatDateKey env (created thread))) + 1)
  /\ firstTimestamp (processThread env year acc (Some thread))
     = Some (match firstTimestamp acc with
             | Some first => Z.min first (created thread)
             | None => created thread
             end).
Proof.
  intros Hy. unfold processThread. apply Z.eqb_eq in Hy. rewrite Hy. cbn [negb].
  match goal with |- context [fold_left processMessage _ ?a] => set (acc1 := a) end.
  destruct (processMessages_scalars (messages thread) acc1) as (H1 & H2 & H3).
  rewrite H1, H2, H3. split; [| split].
  - rewrite threadDelta_split, <- addTotals_assoc. f_equal.
    unfold acc1, scalarTotals, addTotals. simpl. repeat f_equal; lia.
  - reflexivity.
  - unfold acc1. simpl. destruct (firstTimestamp acc) as [first|]; [| reflexivity].
    destruct (Z.ltb_spec (created thread) first); f_equal; lia.
Qed.

Lemma processThread_cases (env : Env) (year : Z) (acc : AmpUsageSummary)
  (file : option AmpThread) :
  (exists thread, file = Some thread /\ getFullYear env (created thread) = year
                  /\ matchingThreads env year [file] = [thread])
  \/ (processThread env year acc file = acc /\ matchingThreads env year [file] = []).
Proof.
  destruct file as [thread|]; [| right; now split].
  unfold matchingThreads. simpl.
  destruct (Z.eqb_spec (getFullYear env (created thread)) year) as [E|N].
  - left. exists thread. now repeat split.
  - right. split; [| reflexivity]. unfold processThread.
    destruct (Z.eqb_spec (getFullYear env (created thread)) year);
      [contradiction | reflexivity].
Qed.

Lemma matchingThreads_cons env year file files :
  matchingThreads env year (file :: files)
  = matchingThreads env year [file] ++ matchingThreads env year files.
Proof. unfold matchingThreads. simpl. now rewrite app_nil_r. Qed.

End CollectorSums.

Section CollectorResult.

Local Open Scope list_scope.

Lemma Map_get_set {V} (m : Map V) (k k' : string) (v : V) :
  Map_get (Map_set m k v) k' = if String.eqb k k' then Some v else Map_get m k'.
Proof.
  induction m as [|[k0 v0] m IH]; simpl.
  - reflexivity.
  - destruct (String.eqb_spec k0 k) as [->|Hne]; simpl.
    + destruct (String.eqb_spec k k'); reflexivity.
    + rewrite IH. destruct (String.eqb_spec k0 k') as [->|Hne'];
        [| reflexivity].
      destruct (String.eqb_spec k k'); [congruence | reflexivity].
Qed.

Lemma Map_keys_set {V} (m : Map V) (k : string) (v : V) :
  Map_keys (Map_set m k v)
  = if Map_has m k then Map_keys m else Map_keys m ++ [k].
Proof.
  unfold Map_has. induction m as [|[k0 v0] m IH]; simpl; [reflexivity |].
  destruct (String.eqb_spec k0 k) as [->|Hne]; simpl; [reflexivity |].
  rewrite IH. now destruct (Map_get m k).
Qed.

Lemma Map_set_NoDup {V} (m : Map V) (k : string) (v : V) :
  NoDup (Map_keys m) -> NoDup (Map_keys (Map_set m k v)).
Proof.
  intros H. rewrite Map_keys_set. destruct (Map_has m k) eqn:E; [exact H |].
  apply NoDup_app; [exact H | repeat constructor; intros [] |].
  intros x Hx [<- | []].
  apply Map_has_In in Hx. congruence.
Qed.

(** The number of threads of the list created on the day of the key. *)
Definition threadsOnDay (env : Env) (key : string) (threads : list AmpThread) : Z :=
  Z.of_nat (List.length
              (filter (fun t => String.eqb (formatDateKey env (created t)) key)
                 threads)).

(** What the loop over the files holds once the threads [seen] of the
    year are processed. *)
Record CollectInv (env : Env) (seen : list AmpThread) (s : AmpUsageSummary)
  : Prop := {
  inv_scalars :
    scalarTotals s
    = fold_right (fun t d => addTotals (threadDelta t) d) [0; 0; 0; 0; 0; 0; 0] seen;
  inv_keys : NoDup (Map_keys (Collector.dailyActivity s));
  inv_counts :
    forall key,
      Map_get (Collector.dailyActivity s) key
      = if threadsOnDay env key seen =? 0 then None
        else Some (threadsOnDay env key seen);
  inv_sessions : Collector.totalSessions s = Z.of_nat (List.length seen);
  inv_daySum : mapSum (Collector.dailyActivity s) = Collector.totalSessions s;
  inv_first :
    match firstTimestamp s with
    | Some first =>
        (exists t, In t seen /\ created t = first)
        /\ forall t, In t seen -> first <= created t
    | None => seen = []
    end
}.

Lemma threadsOnDay_snoc env key seen thread :
  threadsOnDay env key (seen ++ [thread])
  = threadsOnDay env key seen
    + (if String.eqb (formatDateKey env (created thread)) key then 1 else 0).
Proof.
  unfold threadsOnDay. rewrite filter_app, length_app. simpl.
  destruct (String.eqb _ key); simpl; lia.
Qed.

Lemma threadsOnDay_nonneg env key seen : 0 <= threadsOnDay env key seen.
Proof. unfold threadsOnDay. lia. Qed.

Lemma threadDeltas_snoc (seen : list AmpThread) (thread : AmpThread) :
  fold_right (fun t d => addTotals (threadDelta t) d) [0; 0; 0; 0; 0; 0; 0]
    (seen ++ [thread])
  = addTotals
      (fold_right (fun t d => addTotals (threadDelta t) d) [0; 0; 0; 0; 0; 0; 0] seen)
      (threadDelta thread).
Proof.
  induction seen as [|t seen IH].
  - simpl. rewrite addTotals_comm. reflexivity.
  - rewrite <- app_comm_cons.
    change (fold_right (fun t0 d => addTotals (threadDelta t0) d)
              [0; 0; 0; 0; 0; 0; 0] (t :: seen ++ [thread]))
      with (addTotals (threadDelta t)
              (fold_right (fun t0 d => addTotals (threadDelta t0) d)
                 [0; 0; 0; 0; 0; 0; 0] (seen ++ [thread]))).
    rewrite IH. rewrite <- addTotals_assoc. reflexivity.
Qed.

Lemma processMessages_sessions (msgs : list AmpMessage) (acc : AmpUsageSummary) :
  Collector.totalSessions (fold_left processMessage msgs acc)
  = Collector.totalSessions acc.
Proof.
  revert acc. induction msgs as [|m msgs IH]; intros acc; [reflexivity |].
  cbn [fold_left]. rewrite IH. unfold processMessage.
  destruct (role m); destruct (usage m); reflexivity.
Qed.

Lemma processThread_sessions env year acc thread :
  getFullYear env (created thread) = year ->
  Collector.totalSessions (processThread env year acc (Some thread))
  = Collector.totalSessions acc + 1.
Proof.
  intros Hy. unfold processThread. apply Z.eqb_eq in Hy. rewrite Hy. cbn [negb].
  now rewrite processMessages_sessions.
Qed.

Lemma CollectInv_step env year seen s thread :
  getFullYear env (created thread) = year ->
  CollectInv env seen s ->
  CollectInv env (seen ++ [thread]) (processThread env year s (Some thread)).
Proof.
  intros Hy [Hsc Hk Hc Hss Hds Hf].
  destruct (processThread_counted env year s thread Hy) as (G1 & G2 & G3).
  pose proof (processThread_sessions env year s thread Hy) as G4.
  constructor.
  - rewrite G1, Hsc. symmetry. apply threadDeltas_snoc.
  - rewrite G2. now apply Map_set_NoDup.
  - intros key. rewrite G2, Map_get_set, threadsOnDay_snoc.
    pose proof (threadsOnDay_nonneg env key seen) as Hn.
    destruct (String.eqb_spec (formatDateKey env (created thread)) key) as [->|Hne].
    + rewrite Hc.
      destruct (Z.eqb_spec (threadsOnDay env key seen) 0) as [E0|N0].
      * rewrite E0. reflexivity.
      * destruct (Z.eqb_spec (threadsOnDay env key seen + 1) 0); [lia |].
        simpl. destruct (Z.eqb_spec (threadsOnDay env key seen) 0); [lia |].
        reflexivity.
    + rewrite Hc, Z.add_0_r. reflexivity.
  - rewrite G4, Hss, length_app. simpl. lia.
  - rewrite G2, G4, mapSum_set. lia.
  - rewrite G3. destruct (firstTimestamp s) as [first|].
    + destruct Hf as [[t0 [Hin Hcr]] Hmin]. split.
      * destruct (Z.le_gt_cases first (created thread)).
        -- exists t0. split; [apply in_or_app; now left | lia].
        -- exists thread. split; [apply in_or_app; right; now left | lia].
      * intros t Ht. apply in_app_or in Ht.
        destruct Ht as [Ht | [<- | []]]; [specialize (Hmin t Ht); lia | lia].
    + subst seen. split.
      * exists thread. split; [now left | reflexivity].
      * intros t [<- | []]. lia.
Qed.

Lemma CollectInv_fold env year files seen s :
  CollectInv env seen s ->
  CollectInv env (seen ++ matchingThreads env year files)
    (fold_left (processThread env year) files s).
Proof.
  revert seen s. induction files as [|file files IH]; intros seen s H.
  - simpl. now rewrite app_nil_r.
  - cbn [fold_left]. rewrite matchingThreads_cons, app_assoc.
    apply IH.
    destruct (processThread_cases env year s file)
      as [(thread & -> & Hy & ->) | [-> ->]].
    + now apply CollectInv_step.
    + now rewrite app_nil_r.
Qed.

Lemma collect_inv env year files :
  CollectInv env (matchingThreads env year files)
    (collectAmpUsageSummary env files year).
Proof.
  apply (CollectInv_fold env year files [] emptySummary).
  constructor; simpl; try reflexivity; constructor.
Qed.

End CollectorResult.

Section CollectorProperties.

Local Open Scope list_scope.

Lemma matchingThreads_In env year files thread :
  In thread (matchingThreads env year files)
  <-> In (Some thread) files /\ getFullYear env (created thread) = year.
Proof.
  unfold matchingThreads. rewrite in_flat_map. split.
  - intros [[t|] [Hin Ht]]; [| destruct Ht].
    destruct (Z.eqb_spec (getFullYear env (created t)) year); [| destruct Ht].
    destruct Ht as [<- | []]. now split.
  - intros [Hin Hy]. exists (Some thread). split; [exact Hin |].
    apply Z.eqb_eq in Hy. rewrite Hy. now left.
Qed.

Lemma threadsOnDay_positive env key threads :
  threadsOnDay env key threads <> 0
  <-> exists t, In t threads /\ formatDateKey env (created t) = key.
Proof.
  unfold threadsOnDay. split.
  - intros H.
    destruct (filter (fun t => String.eqb (formatDateKey env (created t)) key)
                threads) as [|t rest] eqn:E; [simpl in H; lia |].
    assert (Hin : In t (filter (fun t => String.eqb (formatDateKey env (created t)) key)
                          threads)) by (rewrite E; now left).
    apply filter_In in Hin. destruct Hin as [Hin Hk].
    exists t. split; [exact Hin | now apply String.eqb_eq].
  - intros [t [Hin Hk]].
    assert (Hf : In t (filter (fun t => String.eqb (formatDateKey env (created t)) key)
                         threads)).
    { apply filter_In. split; [exact Hin | now apply String.eqb_eq]. }
    destruct (filter _ threads); [destruct Hf | simpl; lia].
Qed.

Lemma collect_keys env (threadFiles : list (option AmpThread)) year key :
  In key (Map_keys (Collector.dailyActivity
                      (collectAmpUsageSummary env threadFiles year)))
  <-> exists t, In t (matchingThreads env year threadFiles)
                /\ formatDateKey env (created t) = key.
Proof.
  destruct (collect_inv env year threadFiles) as [_ _ Hc _ _ _].
  rewrite <- Map_get_In, Hc, <- threadsOnDay_positive.
  destruct (Z.eqb_spec (threadsOnDay env key
                          (matchingThreads env year threadFiles)) 0);
    split; congruence.
Qed.

Lemma collect_keys_year env (threadFiles : list (option AmpThread)) year key :
  In key (Map_keys (Collector.dailyActivity
                      (collectAmpUsageSummary env threadFiles year))) ->
  StartsWith key (Number_toString year).
Proof.
  intros Hin. apply collect_keys in Hin. destruct Hin as [t [Ht <-]].
  apply matchingThreads_In in Ht. destruct Ht as [_ Hy].
  unfold formatDateKey. rewrite Hy. eexists. reflexivity.
Qed.

(** X8.  The collector counts sessions and days as follows: [totalSessions]
    is the number of threads of the year; [dailyActivity] has exactly one
    entry for every local day on which a thread of the year was created,
    holding the number of those threads; every key begins with the
    decimal year; and the day counts add up to [totalSessions]. *)
Theorem collect_dailyActivity :
  forall env (threadFiles : list (option AmpThread)) year,
    let s := collectAmpUsageSummary env threadFiles year in
    let threads := matchingThreads env year threadFiles in
    Collector.totalSessions s = Z.of_nat (List.length threads)
    /\ NoDup (Map_keys (Collector.dailyActivity s))
    /\ (forall key,
          orZero (Map_get (Collector.dailyActivity s) key)
          = threadsOnDay env key threads)
    /\ (forall key,
          In key (Map_keys (Collector.dailyActivity s))
          <-> exists t, In t threads /\ formatDateKey env (created t) = key)
    /\ (forall key,
          In key (Map_keys (Collector.dailyActivity s)) ->
          StartsWith key (Number_toString year))
    /\ mapSum (Collector.dailyActivity s) = Collector.totalSessions s.
Proof.
  intros env threadFiles year s threads.
  destruct (collect_inv env year threadFiles) as [Hsc Hk Hc Hss Hds Hf].
  fold s threads in Hsc, Hk, Hc, Hss, Hds, Hf.
  assert (Hkeys := collect_keys env threadFiles year). fold s threads in Hkeys.
  split; [exact Hss |]. split; [exact Hk |]. split; [| split; [exact Hkeys |]].
  - intros key. rewrite Hc.
    destruct (Z.eqb_spec (threadsOnDay env key threads) 0) as [->|N];
      [reflexivity |].
    simpl. destruct (Z.eqb_spec (threadsOnDay env key threads) 0); [lia |].
    reflexivity.
  - split; [| exact Hds].
    intros key. apply collect_keys_year.
Qed.

(** X9.  [firstTimestamp] is the earliest creation time among the threads of
    the year, and null exactly when there is none. *)
Theorem collect_firstTimestamp :
  forall env (threadFiles : list (option AmpThread)) year,
    let s := collectAmpUsageSummary env threadFiles year in
    let threads := matchingThreads env year threadFiles in
    match firstTimestamp s with
    | Some first =>
        (exists t, In t threads /\ created t = first)
        /\ (forall t, In t threads -> first <= created t)
    | None => threads = []
    end.
Proof.
  intros env threadFiles year s threads.
  destruct (collect_inv env year threadFiles) as [_ _ _ _ _ Hf]. exact Hf.
Qed.

Lemma threadDeltas_perm (l l' : list AmpThread) :
  Permutation l l' ->
  fold_right (fun t d => addTotals (threadDelta t) d) [0; 0; 0; 0; 0; 0; 0] l
  = fold_right (fun t d => addTotals (threadDelta t) d) [0; 0; 0; 0; 0; 0; 0] l'.
Proof.
  intros H. induction H as [| x l l' H IH | x y l | l l' l'' H1 IH1 H2 IH2].
  - reflexivity.
  - simpl. now rewrite IH.
  - simpl. rewrite <- !addTotals_assoc. f_equal. apply addTotals_comm.
  - now rewrite IH1.
Qed.

Lemma matchingThreads_perm env year files files' :
  Permutation files files' ->
  Permutation (matchingThreads env year files) (matchingThreads env year files').
Proof.
  intros H. induction H as [| x l l' H IH | x y l | l l' l'' H1 IH1 H2 IH2].
  - reflexivity.
  - rewrite (matchingThreads_cons env year x l), (matchingThreads_cons env year x l').
    now apply Permutation_app_head.
  - rewrite (matchingThreads_cons env year y (x :: l)),
      (matchingThreads_cons env year x l),
      (matchingThreads_cons env year x (y :: l)),
      (matchingThreads_cons env year y l).
    rewrite !app_assoc. apply Permutation_app_tail. apply Permutation_app_comm.
  - now rewrite IH1.
Qed.

Lemma threadsOnDay_perm env key l l' :
  Permutation l l' -> threadsOnDay env key l = threadsOnDay env key l'.
Proof.
  intros H. unfold threadsOnDay. f_equal. apply Permutation_length.
  induction H as [| x l l' H IH | x y l | l l' l'' H1 IH1 H2 IH2]; simpl.
  - reflexivity.
  - destruct (String.eqb _ key); [now constructor | exact IH].
  - destruct (String.eqb (formatDateKey env (created x)) key);
      destruct (String.eqb (formatDateKey env (created y)) key);
      try reflexivity. apply perm_swap.
  - now rewrite IH1.
Qed.

End CollectorProperties.

(** ** The current streak in the program *)

Section PipelineStreak.

Local Open Scope list_scope.

Lemma currentStreakOf_spec env off now fuel (dailyActivity : Map Z) n :
  FixedOffset env off -> (forall k, clock env k = now) ->
  (List.length dailyActivity < fuel)%nat ->
  exists c,
    fst (currentStreakOf env fuel dailyActivity n) = Some c
    /\ currentStreakSpec dailyActivity (localDay env now) c.
Proof.
  intros Hfix Hclock Hfuel.
  rewrite currentStreakOf_unfold. rewrite !Hclock.
  rewrite !formatDateKey_dateKeyOfDay.
  rewrite (localDay_back env off) by exact Hfix.
  fold (activeDay dailyActivity (localDay env now)).
  fold (activeDay dailyActivity (localDay env now - 1)).
  destruct (activeDay dailyActivity (localDay env now)) eqn:Etoday.
  - destruct (countStreakBackwards_runBack env off dailyActivity fuel now
                Hfix Hfuel Etoday) as (k & Hk & Hrun).
    exists k. split; [exact Hk | now apply current_from_today].
  - destruct (activeDay dailyActivity (localDay env now - 1)) eqn:Eyest.
    + assert (Hstart : activeDay dailyActivity
                         (localDay env (now - 24 * 60 * 60 * 1000)) = true)
        by (rewrite (localDay_back env off) by exact Hfix; exact Eyest).
      destruct (countStreakBackwards_runBack env off dailyActivity fuel
                  (now - 24 * 60 * 60 * 1000) Hfix Hfuel Hstart)
        as (k & Hk & Hrun).
      rewrite (localDay_back env off) in Hrun by exact Hfix.
      exists k. split; [exact Hk | now apply current_from_yesterday].
    + exists 0. split; [reflexivity | now apply current_none].
Qed.

(** A backward run of active days is no longer than the map. *)
Lemma runBack_bounded (dailyActivity : Map Z) (day k : Z) :
  runBack dailyActivity day k -> k <= Z.of_nat (List.length dailyActivity).
Proof.
  intros (Hk & Hact & _).
  assert (H : (Z.to_nat k <= List.length dailyActivity)%nat).
  { apply (active_days_bounded dailyActivity (day + 1)).
    intros i Hi. replace (day + 1 - i) with (day - (i - 1)) by lia.
    apply Hact. lia. }
  lia.
Qed.

Lemma currentStreakSpec_bounded (dailyActivity : Map Z) (today c : Z) :
  currentStreakSpec dailyActivity today c ->
  0 <= c <= Z.of_nat (List.length dailyActivity).
Proof.
  intros H. destruct H as [k _ Hr | k _ _ Hr | _ _].
  - pose proof (runBack_bounded _ _ _ Hr). destruct Hr. lia.
  - pose proof (runBack_bounded _ _ _ Hr). destruct Hr. lia.
  - lia.
Qed.

Lemma Map_get_of_In {V} (m : Map V) (k : string) (v : V) :
  NoDup (Map_keys m) -> In (k, v) m -> Map_get m k = Some v.
Proof.
  induction m as [|[k0 v0] m IH]; intros Hnd Hin; [destruct Hin |].
  simpl in *. inversion Hnd as [|? ? Hnot Hnd']; subst.
  destruct Hin as [E | Hin].
  - injection E as -> ->. now rewrite String.eqb_refl.
  - destruct (String.eqb_spec k0 k) as [->|Hne]; [| now apply IH].
    exfalso. apply Hnot. apply in_map_iff. now exists (k, v).
Qed.

Lemma length_le_mapSum (m : Map Z) :
  Forall (fun e => 1 <= snd e) m -> Z.of_nat (List.length m) <= mapSum m.
Proof. intros H. induction H as [|e m He Hm IH]; simpl in *; lia. Qed.

(** The map of days has at most as many entries as there are sessions. *)
Lemma collect_days_le_sessions env (threadFiles : list (option AmpThread)) year :
  let s := collectAmpUsageSummary env threadFiles year in
  Z.of_nat (List.length (Collector.dailyActivity s)) <= Collector.totalSessions s
  /\ Collector.totalSessions s <= Z.of_nat (List.length threadFiles).
Proof.
  intros s.
  destruct (collect_inv env year threadFiles) as [_ Hk Hc Hss Hds _].
  fold s in Hk, Hc, Hss, Hds. split.
  - rewrite <- Hds. apply length_le_mapSum. apply Forall_forall.
    intros [key count] Hin.
    pose proof (Map_get_of_In _ _ _ Hk Hin) as Hget. rewrite Hc in Hget.
    pose proof (threadsOnDay_nonneg env key (matchingThreads env year threadFiles)).
    destruct (Z.eqb_spec (threadsOnDay env key (matchingThreads env year threadFiles)) 0);
      [discriminate |].
    injection Hget as <-. simpl. lia.
  - rewrite Hss. apply inj_le. clear.
    induction threadFiles as [|f fs IH]; [simpl; lia |].
    rewrite matchingThreads_cons, length_app. simpl List.length at 3.
    destruct f as [t|]; simpl; [| lia].
    destruct (_ =? _); simpl; lia.
Qed.

(** X11.  In the program the summary is collected for the requested year, and
    there the early return of [calculateStreaks] never changes the
    current streak.  In a zone of fixed offset, with the clock showing
    [now] and more fuel than there are thread files, [calculateAmpStats]
    returns, and currentStreak is the count of consecutive active days
    backward from today, or from yesterday when today has no thread, or
    0; it is never negative and never more than totalSessions. *)
Theorem calculateAmpStats_currentStreak :
  forall env off now fuel (threadFiles : list (option AmpThread)) year n,
    FixedOffset env off -> (forall k, clock env k = now) ->
    (List.length threadFiles < fuel)%nat ->
    exists r n',
      calculateAmpStats env fuel threadFiles year n = (Some r, n')
      /\ dailyActivity r
         = Collector.dailyActivity (collectAmpUsageSummary env threadFiles year)
      /\ currentStreakSpec (dailyActivity r) (localDay env now) (currentStreak r)
      /\ 0 <= currentStreak r <= totalSessions r.
Proof.
  intros env off now fuel threadFiles year n Hfix Hclock Hfuel.
  unfold calculateAmpStats.
  set (s := collectAmpUsageSummary env threadFiles year).
  destruct (collect_days_le_sessions env threadFiles year) as [Hle1 Hle2].
  fold s in Hle1, Hle2.
  assert (Hfuel' : (List.length (Collector.dailyActivity s) < fuel)%nat) by lia.
  destruct (currentStreakOf_spec env off now fuel (Collector.dailyActivity s) n
              Hfix Hclock Hfuel') as (c & Hc & Hspec).
  pose proof (currentStreakSpec_bounded _ _ _ Hspec) as Hb.
  rewrite calculateStats_unfold. cbv zeta.
  destruct (activeDatesOf (Collector.dailyActivity s) year) as [|d ds] eqn:E.
  - rewrite calculateStreaks_empty by exact E. cbn [fst snd].
    eexists. eexists. split; [reflexivity |].
    cbn [dailyActivity currentStreak totalSessions assembleStats
         streaks_currentStreak].
    split; [reflexivity |].
    assert (Hempty : Collector.dailyActivity s = []).
    { destruct (Collector.dailyActivity s) as [|[key count] rest] eqn:Eda;
        [reflexivity |].
      exfalso.
      assert (Hin : In key (Map_keys (Collector.dailyActivity s)))
        by (rewrite Eda; now left).
      pose proof (collect_keys_year env threadFiles year key Hin) as Hstart.
      assert (Hact : In key (activeDatesOf (Collector.dailyActivity s) year))
        by (apply activeDatesOf_In; now split).
      rewrite Eda in Hact. rewrite E in Hact. destruct Hact. }
    rewrite Hempty in *. split; [| simpl in *; lia].
    apply current_none; reflexivity.
  - rewrite calculateStreaks_nonempty by (rewrite E; discriminate).
    cbn [fst snd]. rewrite Hc.
    eexists. eexists. split; [reflexivity |].
    cbn [dailyActivity currentStreak totalSessions assembleStats
         streaks_currentStreak].
    split; [reflexivity |]. split; [exact Hspec | lia].
Qed.

Lemma calculateAmpStats_currentStreak_witness :
  FixedOffset (frozenEnv 1735948800000 0) 0
  /\ (forall k, clock (frozenEnv 1735948800000 0) k = 1735948800000)
  /\ (List.length sampleFiles < 5)%nat
  /\ exists r n',
       calculateAmpStats (frozenEnv 1735948800000 0) 5%nat sampleFiles 2025 0%nat
       = (Some r, n')
       /\ 0 <= currentStreak r <= totalSessions r.
Proof.
  split; [apply frozenEnv_fixed |]. split; [reflexivity |].
  split; [simpl; lia |].
  destruct (calculateAmpStats_currentStreak (frozenEnv 1735948800000 0) 0
              1735948800000 5%nat sampleFiles 2025 0%nat
              (frozenEnv_fixed _ _) (fun _ => eq_refl) ltac:(simpl; lia))
    as (r & n' & Hr & _ & _ & Hb).
  exists r, n'. now split.
Defined.

End PipelineStreak.

(** ** The project of a mentioned file is a directory above it *)

Section ProjectDirectory.

Local Open Scope list_scope.

(** A string without the character [c]. *)
Fixpoint lacks (c : ascii) (s : string) : bool :=
  match s with
  | EmptyString => true
  | String a s' => negb (Ascii.eqb a c) && lacks c s'
  end.

Lemma split_nonempty (s : string) (c : ascii) : split s c <> [].
Proof.
  destruct s as [|a s]; simpl; [discriminate |].
  destruct (Ascii.eqb a c); [discriminate |].
  destruct (split s c); discriminate.
Qed.

Lemma join_cons (h : string) (t : list string) (sep : string) :
  t <> [] -> join (h :: t) sep = (h ++ sep ++ join t sep)%string.
Proof. destruct t; [congruence | reflexivity]. Qed.

(** Splitting at a character and joining with it gives the string back. *)
Lemma join_split (s : string) (c : ascii) :
  join (split s c) (String c EmptyString) = s.
Proof.
  induction s as [|a s IH]; [reflexivity |].
  cbn [split]. destruct (Ascii.eqb_spec a c) as [->|Hne].
  - rewrite join_cons by apply split_nonempty. now rewrite IH.
  - pose proof (split_nonempty s c) as Hn.
    destruct (split s c) as [|h t]; [congruence |].
    destruct t as [|h' t].
    + simpl in *. now rewrite IH.
    + rewrite join_cons by discriminate.
      rewrite join_cons in IH by discriminate.
      simpl. now rewrite <- IH.
Qed.

(** An array of two or more parts is its front, the separator and its
    last part. *)
Lemma join_removelast (parts : list string) (sep : string) :
  (2 <= List.length parts)%nat ->
  join parts sep
  = (join (removelast parts) sep ++ sep ++ last parts EmptyString)%string.
Proof.
  induction parts as [|h t IH]; [simpl; lia |].
  intros Hlen. destruct t as [|h' t]; [simpl in Hlen; lia |].
  destruct t as [|h'' t].
  - reflexivity.
  - rewrite join_cons by discriminate.
    rewrite IH by (simpl; lia).
    change (removelast (h :: h' :: h'' :: t))
      with (h :: removelast (h' :: h'' :: t)).
    rewrite join_cons by (simpl; destruct t; discriminate).
    change (last (h :: h' :: h'' :: t) EmptyString)
      with (last (h' :: h'' :: t) EmptyString).
    now rewrite !append_assoc.
Qed.

Lemma split_last_lacks (s : string) (c : ascii) :
  lacks c (last (split s c) EmptyString) = true.
Proof.
  induction s as [|a s IH]; [reflexivity |].
  cbn [split]. pose proof (split_nonempty s c) as Hn.
  destruct (Ascii.eqb a c) eqn:E.
  - destruct (split s c) as [|h t]; [congruence | exact IH].
  - destruct (split s c) as [|h t]; [congruence |].
    destruct t as [|h' t].
    + simpl in *. now rewrite E.
    + exact IH.
Qed.

Lemma split_lacks (s : string) (c : ascii) :
  lacks c s = true -> split s c = [s].
Proof.
  induction s as [|a s IH]; [reflexivity |].
  simpl. destruct (Ascii.eqb a c); [discriminate |].
  simpl. intros H. now rewrite IH.
Qed.

Lemma split_append (dir name : string) (c : ascii) :
  split (dir ++ String c name)%string c = split dir c ++ split name c.
Proof.
  induction dir as [|a dir IH].
  - simpl. now rewrite Ascii.eqb_refl.
  - cbn [append split]. rewrite IH.
    destruct (Ascii.eqb a c); [reflexivity |].
    pose proof (split_nonempty dir c) as Hn.
    destruct (split dir c) as [|h t]; [congruence | reflexivity].
Qed.

Lemma removelast_snoc {A} (l : list A) (x : A) : removelast (l ++ [x]) = l.
Proof. apply removelast_last. Qed.

(** X12.  Whatever [extractProjectPath] returns stands at the front of the
    path of the URI and is followed there by a slash: the project is a
    directory above the mentioned file. *)
Theorem extractProjectPath_directory :
  forall uri project,
    extractProjectPath uri = Some project ->
    exists rest, uri = ("file://" ++ project ++ String "/" rest)%string.
Proof.
  intros uri project. unfold extractProjectPath.
  destruct (startsWith uri "file://") eqn:Hstart; [| discriminate].
  apply startsWith_spec in Hstart. destruct Hstart as [path ->].
  change (replace ("file://" ++ path)%string "file://" EmptyString) with path.
  cbv beta iota delta [negb].
  pose proof (findIndicator_spec path [] projectIndicators
                ltac:(intros ? [])) as H.
  destruct (findIndicator path projectIndicators) as [pre|].
  - intros E. injection E as ->.
    destruct H as (mid & m & later & Hsplit & _ & post & Hpath & _).
    assert (Hin : In m projectIndicators)
      by (rewrite Hsplit; apply in_or_app; right; now left).
    assert (Hslash : exists m', m = String "/" m').
    { unfold projectIndicators in Hin. simpl in Hin.
      destruct Hin as [<-|[<-|[<-|[<-|[<-|[]]]]]]; eexists; reflexivity. }
    destruct Hslash as [m' ->].
    exists (m' ++ post)%string. now rewrite Hpath.
  - destruct (Z.leb_spec 4 (Z.of_nat (List.length (split path "/"%char))));
      [| discriminate].
    intros E. injection E as <-.
    exists (last (split path "/"%char) EmptyString).
    unfold sliceButLast.
    change (String "/" (last (split path "/"%char) EmptyString))
      with ("/" ++ last (split path "/"%char) EmptyString)%string.
    rewrite <- join_removelast by lia.
    now rewrite join_split.
Qed.

Lemma extractProjectPath_directory_witness :
  extractProjectPath "file:///home/u/notes/todo.md" = Some "/home/u/notes"%string
  /\ exists rest,
       "file:///home/u/notes/todo.md"
       = ("file://" ++ "/home/u/notes" ++ String "/" rest)%string.
Proof.
  split; [reflexivity |].
  exact (extractProjectPath_directory "file:///home/u/notes/todo.md"
           "/home/u/notes" eq_refl).
Defined.

(** X13.  The fall-back is the parent directory: a file [dir/name] whose path
    holds no indicator, whose [name] has no slash and whose directory
    has at least two slashes belongs to the project [dir]; with fewer
    slashes in [dir] there is no project. *)
Theorem extractProjectPath_parent :
  forall dir name,
    (forall m, In m projectIndicators ->
               ~ Contains (dir ++ String "/" name)%string m) ->
    lacks "/" name = true ->
    extractProjectPath ("file://" ++ dir ++ String "/" name)%string
    = if (3 <=? List.length (split dir "/"%char))%nat then Some dir else None.
Proof.
  intros dir name Hnone Hname. unfold extractProjectPath.
  change (startsWith ("file://" ++ dir ++ String "/" name)%string "file://")
    with true.
  change (replace ("file://" ++ dir ++ String "/" name)%string "file://"
            EmptyString) with (dir ++ String "/" name)%string.
  cbv beta iota delta [negb].
  pose proof (findIndicator_spec (dir ++ String "/" name)%string []
                projectIndicators ltac:(intros ? [])) as H.
  destruct (findIndicator (dir ++ String "/" name)%string projectIndicators)
    as [pre|].
  - exfalso. destruct H as (mid & m & later & Hsplit & _ & post & Hpath & _).
    apply (Hnone m); [rewrite Hsplit; apply in_or_app; right; now left |].
    exists pre, post. exact Hpath.
  - rewrite split_append, (split_lacks name) by exact Hname.
    rewrite length_app. unfold sliceButLast. rewrite removelast_snoc.
    rewrite join_split. simpl List.length.
    destruct (Nat.leb_spec 3 (List.length (split dir "/"%char)));
      destruct (Z.leb_spec 4 (Z.of_nat (List.length (split dir "/"%char) + 1)));
      try reflexivity; lia.
Qed.

Lemma extractProjectPath_parent_witness :
  (forall m, In m projectIndicators ->
             ~ Contains ("/home/u/notes" ++ String "/" "todo.md")%string m)
  /\ lacks "/" "todo.md" = true
  /\ extractProjectPath ("file://" ++ "/home/u/notes" ++ String "/" "todo.md")%string
     = Some "/home/u/notes"%string.
Proof.
  assert (H : forall m, In m projectIndicators ->
                ~ Contains ("/home/u/notes" ++ String "/" "todo.md")%string m).
  { intros m Hin. apply includes_false.
    unfold projectIndicators in Hin. simpl in Hin.
    destruct Hin as [<-|[<-|[<-|[<-|[<-|[]]]]]]; reflexivity. }
  split; [exact H |]. split; [reflexivity |].
  exact (extractProjectPath_parent "/home/u/notes" "todo.md" H eq_refl).
Defined.

End ProjectDirectory.

(** ** The set of projects *)

Section Projects.

Local Open Scope list_scope.

(** The projects a URI, a message and a thread contribute. *)
Definition uriProjects (uri : string) : list string :=
  match extractProjectPath uri with
  | Some projectPath =>
      if String.eqb projectPath EmptyString then [] else [projectPath]
  | None => []
  end.

Definition messageProjects (m : AmpMessage) : list string :=
  match role m, fileMentionFiles m with
  | user, Some files => flat_map uriProjects files
  | _, _ => []
  end.

Definition threadProjects (t : AmpThread) : list string :=
  flat_map messageProjects (messages t).

Lemma fold_Set_add_app (l l' : list string) (acc : StrSet) :
  fold_left Set_add (l ++ l') acc = fold_left Set_add l' (fold_left Set_add l acc).
Proof. apply fold_left_app. Qed.

Lemma addProject_uriProjects (ps : StrSet) (uri : string) :
  addProject ps uri = fold_left Set_add (uriProjects uri) ps.
Proof.
  unfold addProject, uriProjects.
  destruct (extractProjectPath uri) as [p|]; [| reflexivity].
  destruct (String.eqb p EmptyString); reflexivity.
Qed.

Lemma addProjects_fold (files : list string) (ps : StrSet) :
  fold_left addProject files ps
  = fold_left Set_add (flat_map uriProjects files) ps.
Proof.
  revert ps. induction files as [|uri files IH]; intros ps; [reflexivity |].
  cbn [fold_left flat_map]. rewrite fold_Set_add_app, IH.
  now rewrite addProject_uriProjects.
Qed.

Lemma processMessage_projects (acc : AmpUsageSummary) (m : AmpMessage) :
  projects (processMessage acc m)
  = fold_left Set_add (messageProjects m) (projects acc).
Proof.
  unfold processMessage, messageProjects.
  destruct (role m); cbn [projects].
  - destruct (fileMentionFiles m) as [files|]; [apply addProjects_fold | reflexivity].
  - destruct (usage m); reflexivity.
Qed.

Lemma processMessages_projects (ms : list AmpMessage) (acc : AmpUsageSummary) :
  projects (fold_left processMessage ms acc)
  = fold_left Set_add (flat_map messageProjects ms) (projects acc).
Proof.
  revert acc. induction ms as [|m ms IH]; intros acc; [reflexivity |].
  cbn [fold_left flat_map]. rewrite IH, processMessage_projects.
  now rewrite fold_Set_add_app.
Qed.

Lemma collect_projects_fold env year (files : list (option AmpThread))
  (acc : AmpUsageSummary) :
  projects (fold_left (processThread env year) files acc)
  = fold_left Set_add (flat_map threadProjects (matchingThreads env year files))
      (projects acc).
Proof.
  revert acc. induction files as [|f files IH]; intros acc; [reflexivity |].
  cbn [fold_left]. rewrite IH, matchingThreads_cons, flat_map_app, fold_Set_add_app.
  f_equal.
  destruct (processThread_cases env year acc f)
    as [(t & -> & Hy & Hm) | [Hsame Hm]]; rewrite Hm.
  - cbn [flat_map]. rewrite app_nil_r. unfold processThread.
    apply Z.eqb_eq in Hy. rewrite Hy. cbn [negb].
    now rewrite processMessages_projects.
  - now rewrite Hsame.
Qed.

Lemma Set_add_In (s : StrSet) (x y : string) :
  In y (Set_add s x) <-> In y s \/ y = x.
Proof.
  unfold Set_add. destruct (Set_has s x) eqn:E.
  - apply Set_has_In in E. split; [now left | intros [H | ->]; assumption].
  - rewrite in_app_iff. simpl. intuition (subst; auto).
Qed.

Lemma Set_add_NoDup (s : StrSet) (x : string) : NoDup s -> NoDup (Set_add s x).
Proof.
  intros H. unfold Set_add. destruct (Set_has s x) eqn:E; [exact H |].
  apply NoDup_app; [exact H | repeat constructor; intros [] |].
  intros y Hy [<- | []].
  apply Set_has_In in Hy. congruence.
Qed.

Lemma fold_Set_add_In (l : list string) (acc : StrSet) (y : string) :
  In y (fold_left Set_add l acc) <-> In y acc \/ In y l.
Proof.
  revert acc. induction l as [|x l IH]; intros acc; simpl; [tauto |].
  rewrite IH, Set_add_In. intuition (subst; auto).
Qed.

Lemma fold_Set_add_keeps_NoDup (l : list string) (acc : StrSet) :
  NoDup acc -> NoDup (fold_left Set_add l acc).
Proof.
  revert acc. induction l as [|x l IH]; intros acc H; simpl; [exact H |].
  apply IH. now apply Set_add_NoDup.
Qed.

(** X14.  The set of projects holds, once each, exactly the non-empty
    results of [extractProjectPath] on the files mentioned in the user
    messages of the threads of the year; nothing comes from an assistant
    message, from a thread of another year or from an unreadable file. *)
Theorem collect_projects :
  forall env (threadFiles : list (option AmpThread)) year,
    let s := collectAmpUsageSummary env threadFiles year in
    NoDup (projects s)
    /\ forall project,
         In project (projects s)
         <-> project <> EmptyString
             /\ exists thread message files uri,
                  In (Some thread) threadFiles
                  /\ getFullYear env (created thread) = year
                  /\ In message (messages thread)
                  /\ role message = user
                  /\ fileMentionFiles message = Some files
                  /\ In uri files
                  /\ extractProjectPath uri = Some project.
Proof.
  intros env threadFiles year s.
  assert (Hs : projects s
               = fold_left Set_add
                   (flat_map threadProjects (matchingThreads env year threadFiles))
                   [])
    by apply (collect_projects_fold env year threadFiles emptySummary).
  rewrite Hs. split; [apply fold_Set_add_keeps_NoDup; constructor |].
  intros project. rewrite fold_Set_add_In, in_flat_map. split.
  - intros [[] | (thread & Ht & Hp)].
    apply matchingThreads_In in Ht. destruct Ht as [Hin Hy].
    unfold threadProjects in Hp. apply in_flat_map in Hp.
    destruct Hp as (message & Hm & Hp). unfold messageProjects in Hp.
    destruct (role message) eqn:Hrole; [| destruct Hp].
    destruct (fileMentionFiles message) as [files|] eqn:Hfiles; [| destruct Hp].
    apply in_flat_map in Hp. destruct Hp as (uri & Huri & Hp).
    unfold uriProjects in Hp.
    destruct (extractProjectPath uri) as [p|] eqn:Hex; [| destruct Hp].
    destruct (String.eqb_spec p EmptyString) as [|Hne]; [destruct Hp |].
    destruct Hp as [<- | []]. split; [exact Hne |].
    exists thread, message, files, uri. now repeat split.
  - intros (Hne & thread & message & files & uri
            & Hin & Hy & Hm & Hrole & Hfiles & Huri & Hex).
    right. exists thread. split; [now apply matchingThreads_In |].
    unfold threadProjects. apply in_flat_map. exists message.
    split; [exact Hm |]. unfold messageProjects. rewrite Hrole, Hfiles.
    apply in_flat_map. exists uri. split; [exact Huri |].
    unfold uriProjects. rewrite Hex.
    destruct (String.eqb_spec project EmptyString); [contradiction | now left].
Qed.

End Projects.

(** ** Providers *)

Section Providers.

Local Open Scope list_scope.















End Providers.

(** ** The current streak is never longer than the longest one *)

Section StreakOrder.

Local Open Scope list_scope.

Lemma In_runsFrom_finished {A} (adj : A -> A -> bool)
  (finished : list (list A)) (cur : list A) (prev : A) (rest : list A)
  (r : list A) :
  In r finished -> In r (runsFrom adj finished cur prev rest).
Proof.
  revert finished cur prev. induction rest as [|x rest IH]; intros; simpl.
  - apply in_or_app. now left.
  - destruct (adj prev x); apply IH; [assumption |].
    apply in_or_app. now left.
Qed.

(** [k] distinct days inside a duplicate-free list. *)
Lemma block_length (d : Z) (k : nat) (l : list Z) :
  NoDup l -> (forall i, (i < k)%nat -> In (d - Z.of_nat i) l) ->
  (k <= List.length l)%nat.
Proof.
  intros Hnd Hin.
  set (block := map (fun i => d - Z.of_nat i) (seq 0 k)).
  assert (Hlen : List.length block = k)
    by (subst block; now rewrite length_map, length_seq).
  rewrite <- Hlen. apply NoDup_incl_length.
  - subst block. apply NoDup_map_injective; [| apply seq_NoDup].
    intros a b E. lia.
  - intros x Hx. subst block. apply in_map_iff in Hx.
    destruct Hx as (i & <- & Hi). apply in_seq in Hi. apply Hin. lia.
Qed.

(** A block of [k] consecutive days inside an ascending list of days
    lies inside one of its runs. *)
Lemma runsFrom_block (d : Z) (k : nat) (rest : list Z) :
  forall (finished : list (list Z)) (cur : list Z) (prev : Z),
    Forall (fun c => c <= prev) cur -> NoDup cur ->
    StronglySorted Z.lt (prev :: rest) ->
    (forall i, (i < k)%nat -> In (d - Z.of_nat i) (cur ++ rest)) ->
    exists r, In r (runsFrom dayAfter finished cur prev rest)
              /\ (k <= List.length r)%nat.
Proof.
  induction rest as [|x rest IH]; intros finished cur prev Hle Hnd Hs Hin.
  - exists cur. split; [simpl; apply in_or_app; right; now left |].
    rewrite app_nil_r in Hin. now apply (block_length d).
  - apply StronglySorted_inv in Hs. destruct Hs as [Hs Hprev].
    assert (Hx : prev < x) by (inversion Hprev; assumption).
    assert (Hrest : Forall (fun y => x <= y) (x :: rest)).
    { constructor; [lia |]. apply StronglySorted_inv in Hs.
      destruct Hs as [_ Hxs]. eapply Forall_impl; [| exact Hxs].
      intros; simpl in *; lia. }
    rewrite Forall_forall in Hle, Hrest.
    cbn [runsFrom]. unfold dayAfter at 1.
    destruct (Z.eqb_spec (x - prev) 1) as [E|N].
    + apply IH.
      * apply Forall_forall. intros c Hc. apply in_app_or in Hc.
        destruct Hc as [Hc | [<- | []]]; [specialize (Hle c Hc) |]; lia.
      * apply NoDup_app; [exact Hnd | repeat constructor; intros [] |].
        intros c Hc [<- | []]. specialize (Hle _ Hc). lia.
      * exact Hs.
      * intros i Hi. rewrite <- app_assoc. now apply Hin.
    + destruct (Z_lt_le_dec prev (d - Z.of_nat k + 1)) as [Hnew | Hold].
      * apply IH.
        -- repeat constructor. lia.
        -- repeat constructor. intros [].
        -- exact Hs.
        -- intros i Hi. specialize (Hin i Hi). apply in_app_or in Hin.
           destruct Hin as [Hc | Hr]; [| exact Hr].
           specialize (Hle _ Hc). lia.
      * destruct (Z_lt_le_dec prev d) as [Hstraddle | Hall].
        -- exfalso.
           assert (Hi : (Z.to_nat (d - prev - 1) < k)%nat) by lia.
           specialize (Hin _ Hi).
           replace (d - Z.of_nat (Z.to_nat (d - prev - 1))) with (prev + 1)
             in Hin by lia.
           apply in_app_or in Hin. destruct Hin as [Hc | Hr].
           ++ specialize (Hle _ Hc). lia.
           ++ specialize (Hrest _ Hr). lia.
        -- exists cur. split.
           ++ apply In_runsFrom_finished. apply in_or_app. right. now left.
           ++ apply (block_length d); [exact Hnd |].
              intros i Hi. specialize (Hin i Hi). apply in_app_or in Hin.
              destruct Hin as [Hc | Hr]; [exact Hc |].
              specialize (Hrest _ Hr). lia.
Qed.

Lemma longestFirst_block (d : Z) (k : nat) (days : list Z) :
  StronglySorted Z.lt days ->
  (forall i, (i < k)%nat -> In (d - Z.of_nat i) days) ->
  (k <= List.length (longestFirst (runs dayAfter days)))%nat.
Proof.
  intros Hs Hin. destruct days as [|x rest].
  - destruct k as [|k]; [lia |]. destruct (Hin 0%nat); lia.
  - destruct (runsFrom_block d k rest [] [x] x) as (r & Hr & Hk).
    + repeat constructor. lia.
    + repeat constructor. intros [].
    + exact Hs.
    + exact Hin.
    + pose proof (longestFirst_longest (runs dayAfter (x :: rest)) r Hr). lia.
Qed.

Lemma StronglySorted_lt (l : list Z) :
  StronglySorted Z.le l -> NoDup l -> StronglySorted Z.lt l.
Proof.
  intros Hs. induction Hs as [|x l Hs IH Hall]; intros Hnd; [constructor |].
  inversion Hnd as [|? ? Hnot Hnd']; subst.
  constructor; [now apply IH |].
  rewrite Forall_forall in *. intros y Hy. specialize (Hall y Hy).
  assert (x <> y) by (intros ->; contradiction). lia.
Qed.

(** The days of a map whose keys are date keys. *)
Lemma keys_days (keys : list string) (P : Z -> Prop) :
  (forall key, In key keys -> exists day, key = dateKeyOfDay day /\ P day) ->
  exists days, keys = map dateKeyOfDay days /\ Forall P days.
Proof.
  induction keys as [|key keys IH]; intros H.
  - exists []. split; [reflexivity | constructor].
  - destruct (H key (or_introl eq_refl)) as (day & -> & Hday).
    destruct IH as (days & -> & Hdays); [intros; apply H; now right |].
    exists (day :: days). split; [reflexivity | now constructor].
Qed.

Lemma NoDup_map_inv' {A B} (f : A -> B) (l : list A) :
  NoDup (map f l) -> NoDup l.
Proof.
  induction l as [|x l IH]; intros H; [constructor |].
  simpl in H. inversion H as [|? ? Hnot Hnd]; subst.
  constructor; [| now apply IH].
  intros Hin. apply Hnot. now apply in_map.
Qed.

(** A backward run of active days is no longer than the longest streak
    of the year, when every key of the map is a date key of that year. *)
Lemma runBack_le_maxStreak (dailyActivity : Map Z) (days : list Z)
  (year day k : Z) :
  Map_keys dailyActivity = map dateKeyOfDay days ->
  NoDup days -> Forall (fun d => yearOfDay d = year) days ->
  1000 <= year <= 9999 ->
  runBack dailyActivity day k ->
  k <= fst (maxStreakPart dailyActivity year).
Proof.
  intros Hkeys Hnd Hyear Hrange (Hk & Hact & _).
  assert (Hfour : Forall FourDigitYear days).
  { eapply Forall_impl; [| exact Hyear].
    intros d Hd. unfold FourDigitYear. rewrite Hd. exact Hrange. }
  rewrite (maxStreakPart_days dailyActivity days year Hkeys Hnd Hfour Hrange).
  cbn [fst]. unfold spec_longestStreak.
  assert (H : (Z.to_nat k
               <= List.length
                    (longestFirst (runs dayAfter (spec_yearDays days year))))%nat).
  { apply (longestFirst_block day).
    - apply StronglySorted_lt; [apply spec_yearDays_sorted |].
      unfold spec_yearDays. apply Array_sort_NoDup. now apply NoDup_filter.
    - intros i Hi. apply spec_yearDays_In.
      assert (Hin : In (day - Z.of_nat i) days).
      { specialize (Hact (Z.of_nat i) ltac:(lia)).
        unfold activeDay in Hact. apply Map_has_In in Hact.
        rewrite Hkeys in Hact. apply in_map_iff in Hact.
        destruct Hact as (d' & E & Hd'). apply dateKeyOfDay_inj in E.
        now subst d'. }
      split; [exact Hin |].
      rewrite Forall_forall in Hyear. now apply Hyear. }
  lia.
Qed.

Lemma In_length_concat {A} (r : list A) (rs : list (list A)) :
  In r rs -> (List.length r <= List.length (List.concat rs))%nat.
Proof.
  induction rs as [|r0 rs IH]; intros H; [destruct H |].
  simpl. rewrite length_app. destruct H as [-> | H]; [lia |].
  specialize (IH H). lia.
Qed.

(** The longest streak of a year with a date in the map is at least 1
    and at most the number of entries of the map. *)
Lemma maxStreakPart_bounds (dailyActivity : Map Z) (year : Z) :
  NoDup (Map_keys dailyActivity) ->
  activeDatesOf dailyActivity year <> [] ->
  1 <= fst (maxStreakPart dailyActivity year)
       <= Z.of_nat (List.length dailyActivity).
Proof.
  intros Hnd Hne.
  rewrite maxStreakPart_longestFirst by assumption. cbn [fst].
  set (dates := activeDatesOf dailyActivity year) in *.
  destruct (longestFirst_runs_props adjacentKeys dates Hne) as (Hl & _ & _).
  assert (Hin : In (longestFirst (runs adjacentKeys dates)) (runs adjacentKeys dates)).
  { apply longestFirst_In; [now apply runs_nonempty |].
    intros r Hr. pose proof (runs_chains adjacentKeys dates) as Hall.
    rewrite Forall_forall in Hall. now apply Hall. }
  apply In_length_concat in Hin. rewrite concat_runs in Hin.
  assert (Hlen : (List.length dates <= List.length dailyActivity)%nat).
  { subst dates. unfold activeDatesOf. rewrite Array_sort_length.
    etransitivity; [apply filter_length_le |].
    unfold Map_keys. now rewrite length_map. }
  destruct (longestFirst (runs adjacentKeys dates)); [congruence |].
  simpl in *. lia.
Qed.

(** X16.  The streak figures of the program are ordered.  For a year of four
    digits, in a zone of fixed offset, with the clock showing [now] and
    more fuel than there are thread files, [calculateAmpStats] returns
    with 0 <= currentStreak <= maxStreak <= number of active days <=
    totalSessions; maxStreak is 0 exactly when the year has no thread. *)
Theorem calculateAmpStats_streak_order :
  forall env off now fuel (threadFiles : list (option AmpThread)) year n,
    FixedOffset env off -> (forall k, clock env k = now) ->
    (List.length threadFiles < fuel)%nat ->
    1000 <= year <= 9999 ->
    exists r n',
      calculateAmpStats env fuel threadFiles year n = (Some r, n')
      /\ 0 <= currentStreak r <= maxStreak r
      /\ maxStreak r <= Map_size (dailyActivity r)
      /\ Map_size (dailyActivity r) <= totalSessions r
      /\ (maxStreak r = 0 <-> totalSessions r = 0).
Proof.
  intros env off now fuel threadFiles year n Hfix Hclock Hfuel Hrange.
  unfold calculateAmpStats.
  set (s := collectAmpUsageSummary env threadFiles year).
  destruct (collect_days_le_sessions env threadFiles year) as [Hle1 Hle2].
  fold s in Hle1, Hle2.
  destruct (collect_inv env year threadFiles) as [_ Hk _ Hss _ _].
  fold s in Hk, Hss.
  assert (Hfuel' : (List.length (Collector.dailyActivity s) < fuel)%nat) by lia.
  destruct (currentStreakOf_spec env off now fuel (Collector.dailyActivity s) n
              Hfix Hclock Hfuel') as (c & Hc & Hspec).
  destruct (keys_days (Map_keys (Collector.dailyActivity s))
              (fun d => yearOfDay d = year)) as (days & Hkeys & Hdays).
  { intros key Hin. apply collect_keys in Hin. destruct Hin as (t & Ht & <-).
    apply matchingThreads_In in Ht. destruct Ht as [_ Hy].
    exists (localDay env (created t)).
    split; [apply formatDateKey_dateKeyOfDay | exact Hy]. }
  assert (Hnd : NoDup days)
    by (apply (NoDup_map_inv' dateKeyOfDay); now rewrite <- Hkeys).
  rewrite calculateStats_unfold. cbv zeta.
  destruct (activeDatesOf (Collector.dailyActivity s) year) as [|d ds] eqn:E.
  - rewrite calculateStreaks_empty by exact E. cbn [fst snd].
    eexists. eexists. split; [reflexivity |].
    cbn [dailyActivity currentStreak maxStreak totalSessions assembleStats
         streaks_currentStreak streaks_maxStreak].
    assert (Hempty : Collector.dailyActivity s = []).
    { destruct (Collector.dailyActivity s) as [|[key count] rest] eqn:Eda;
        [reflexivity |].
      exfalso.
      assert (Hin : In key (Map_keys (Collector.dailyActivity s)))
        by (rewrite Eda; now left).
      pose proof (collect_keys_year env threadFiles year key Hin) as Hstart.
      assert (Hact : In key (activeDatesOf (Collector.dailyActivity s) year))
        by (apply activeDatesOf_In; now split).
      rewrite Eda in Hact. rewrite E in Hact. destruct Hact. }
    assert (Hzero : Collector.totalSessions s = 0).
    { destruct (matchingThreads env year threadFiles) as [|t ts] eqn:Em;
        [rewrite Hss; reflexivity |].
      exfalso.
      assert (Hin : In (formatDateKey env (created t))
                      (Map_keys (Collector.dailyActivity s))).
      { apply collect_keys. exists t. split; [| reflexivity].
        rewrite Em. now left. }
      rewrite Hempty in Hin. destruct Hin. }
    unfold Map_size. rewrite Hempty, Hzero. simpl. repeat split; lia.
  - assert (Hne : activeDatesOf (Collector.dailyActivity s) year <> [])
      by (rewrite E; discriminate).
    rewrite calculateStreaks_nonempty by exact Hne.
    cbn [fst snd]. rewrite Hc.
    eexists. eexists. split; [reflexivity |].
    cbn [dailyActivity currentStreak maxStreak totalSessions assembleStats
         streaks_currentStreak streaks_maxStreak].
    pose proof (maxStreakPart_bounds _ year Hk Hne) as Hmax.
    pose proof (currentStreakSpec_bounded _ _ _ Hspec) as Hcb.
    assert (Hcm : c <= fst (maxStreakPart (Collector.dailyActivity s) year)).
    { destruct Hspec as [k _ Hr | k _ _ Hr | _ _]; [| | lia];
        exact (runBack_le_maxStreak _ days year _ k Hkeys Hnd Hdays Hrange Hr). }
    unfold Map_size. repeat split; lia.
Qed.

Lemma calculateAmpStats_streak_order_witness :
  FixedOffset (frozenEnv 1735948800000 0) 0
  /\ (forall k, clock (frozenEnv 1735948800000 0) k = 1735948800000)
  /\ (List.length sampleFiles < 5)%nat
  /\ 1000 <= 2025 <= 9999
  /\ exists r n',
       calculateAmpStats (frozenEnv 1735948800000 0) 5%nat sampleFiles 2025 0%nat
       = (Some r, n')
       /\ 0 <= currentStreak r <= maxStreak r.
Proof.
  split; [apply frozenEnv_fixed |]. split; [reflexivity |].
  split; [simpl; lia |]. split; [lia |].
  destruct (calculateAmpStats_streak_order (frozenEnv 1735948800000 0) 0
              1735948800000 5%nat sampleFiles 2025 0%nat
              (frozenEnv_fixed _ _) (fun _ => eq_refl) ltac:(simpl; lia)
              ltac:(lia))
    as (r & n' & Hr & Hb & _).
  exists r, n'. now split.
Defined.

End StreakOrder.

(** ** What the program reports for a year with threads *)

Section Report.

Local Open Scope list_scope.

Lemma formatDateKey_nonempty (env : Env) (t : Z) :
  formatDateKey env t <> EmptyString.
Proof.
  unfold formatDateKey. cbv zeta.
  destruct (Number_toString (getFullYear env t)); discriminate.
Qed.

Lemma Map_get_Some_In {V} (m : Map V) (k : string) (v : V) :
  Map_get m k = Some v -> In (k, v) m.
Proof.
  induction m as [|[k0 v0] m IH]; simpl; [discriminate |].
  destruct (String.eqb_spec k0 k) as [->|Hne].
  - intros [= ->]. now left.
  - intros H. right. now apply IH.
Qed.

(** [findMostActiveDay] on a map with a positive count and no empty key. *)
Lemma findMostActiveDay_found (dailyActivity : Map Z) :
  (exists e, In e dailyActivity /\ 0 < snd e) ->
  (forall e, In e dailyActivity -> fst e <> EmptyString) ->
  exists date count,
    findMostActiveDay dailyActivity
    = Some {| day_date := date; day_count := count;
              day_formattedDate := formatMonthDay date |}
    /\ In (date, count) dailyActivity
    /\ forall e, In e dailyActivity -> snd e <= count.
Proof.
  intros [e [He Hpos]] Hkeys.
  pose proof (mostActive_fold dailyActivity [] (EmptyString, 0)) as Hinv.
  simpl in Hinv.
  assert (H0 : MostActiveInv [] (EmptyString, 0))
    by (left; simpl; repeat split; intros x []).
  specialize (Hinv H0). rewrite findMostActiveDay_eq.
  destruct (fold_left mostActiveStep dailyActivity (EmptyString, 0))
    as [maxDate maxCount].
  cbv zeta. cbn [fst snd].
  destruct (Z.eqb_spec (Map_size dailyActivity) 0) as [Hsize|_].
  { unfold Map_size in Hsize. destruct dailyActivity; [destruct He | discriminate]. }
  destruct Hinv as [(_ & _ & Hall) | (_ & before & after & Heq & Hb & Ha)];
    simpl in *.
  - specialize (Hall e He). lia.
  - assert (Hin : In (maxDate, maxCount) dailyActivity)
      by (rewrite Heq; apply in_or_app; right; now left).
    pose proof (Hkeys _ Hin) as Hne. simpl in Hne.
    destruct (String.eqb_spec maxDate EmptyString); [contradiction |].
    exists maxDate, maxCount. split; [reflexivity |]. split; [exact Hin |].
    intros x Hx. rewrite Heq in Hx. apply in_app_or in Hx.
    destruct Hx as [Hx | [<- | Hx]];
      [specialize (Hb x Hx) | simpl | specialize (Ha x Hx)]; lia.
Qed.

Lemma formatMonthDay_formatDateKey (env : Env) (t : Z) :
  1000 <= getFullYear env t <= 9999 ->
  formatMonthDay (formatDateKey env t)
  = Some (nth (Z.to_nat (getMonth env t)) monthNames EmptyString
          ++ " " ++ Number_toString (getDate env t))%string.
Proof.
  intros Hy. rewrite formatDateKey_dateKeyOfDay. unfold formatMonthDay.
  assert (Hy' : 1000 <= yearOfDay (localDay env t) <= 9999) by exact Hy.
  rewrite parseDateKey_dateKeyOfDay by exact Hy'.
  unfold getFullYear, getMonth, getDate in *.
  destruct (civil_from_days (localDay env t)) as [[y m] d].
  destruct (Z.leb_spec 100 y); [reflexivity | lia].
Qed.

(** X17.  The most active day of the program.  When the year has a thread,
    [mostActiveDay] is a local day on which a thread of the year was
    created, its count is the number of threads created that day, no day
    has more, and for a year of four digits the formatted date is the
    month name and the day of the month; when the year has no thread it
    is null. *)
Theorem calculateAmpStats_mostActiveDay :
  forall env fuel (threadFiles : list (option AmpThread)) year n r n',
    calculateAmpStats env fuel threadFiles year n = (Some r, n') ->
    let threads := matchingThreads env year threadFiles in
    match mostActiveDay r with
    | Some d =>
        day_count d = threadsOnDay env (day_date d) threads
        /\ (forall key, threadsOnDay env key threads <= day_count d)
        /\ exists t,
             In t threads
             /\ day_date d = formatDateKey env (created t)
             /\ (1000 <= year <= 9999 ->
                   day_formattedDate d
                   = Some (nth (Z.to_nat (getMonth env (created t))) monthNames
                             EmptyString
                           ++ " " ++ Number_toString (getDate env (created t)))%string)
    | None => threads = []
    end.
Proof.
  intros env fuel threadFiles year n r n' Hr threads.
  unfold calculateAmpStats in Hr. apply calculateStats_result in Hr.
  destruct Hr as (s & n1 & first & now & _ & ->).
  cbn [mostActiveDay assembleStats].
  set (summary := collectAmpUsageSummary env threadFiles year).
  destruct (collect_inv env year threadFiles) as [_ Hk Hc _ _ _].
  fold summary threads in Hk, Hc.
  assert (Hkeys : forall key,
             In key (Map_keys (Collector.dailyActivity summary))
             <-> exists t, In t threads /\ formatDateKey env (created t) = key)
    by apply collect_keys.
  assert (Hcount : forall key count,
             In (key, count) (Collector.dailyActivity summary) ->
             count = threadsOnDay env key threads /\ 0 < count).
  { intros key count Hin.
    pose proof (Map_get_of_In _ _ _ Hk Hin) as Hget. rewrite Hc in Hget.
    pose proof (threadsOnDay_nonneg env key threads).
    destruct (Z.eqb_spec (threadsOnDay env key threads) 0); [discriminate |].
    injection Hget as <-. split; [reflexivity | lia]. }
  destruct (Collector.dailyActivity summary) as [|[key0 count0] rest] eqn:Eda.
  - cbn. destruct threads as [|t0 ts]; [reflexivity |].
    exfalso. destruct (proj2 (Hkeys (formatDateKey env (created t0)))).
    exists t0. split; [now left | reflexivity].
  - rewrite <- Eda in *.
    assert (Hin0 : In (key0, count0) (Collector.dailyActivity summary))
      by (rewrite Eda; now left).
    clear Eda.
    destruct (findMostActiveDay_found (Collector.dailyActivity summary))
      as (date & count & -> & Hin & Hmax).
    + exists (key0, count0). split; [exact Hin0 |].
      now destruct (Hcount key0 count0 Hin0).
    + intros [key count] Hin. cbn [fst].
      assert (Hkey : In key (Map_keys (Collector.dailyActivity summary)))
        by (apply in_map_iff; now exists (key, count)).
      apply Hkeys in Hkey. destruct Hkey as (t & _ & <-).
      apply formatDateKey_nonempty.
    + cbn [day_date day_count day_formattedDate].
      destruct (Hcount date count Hin) as [Hcnt Hpos].
      split; [exact Hcnt |]. split.
      * intros key. pose proof (Hc key) as Hget.
        destruct (Z.eqb_spec (threadsOnDay env key threads) 0) as [-> | _];
          [lia |].
        apply Map_get_Some_In in Hget. specialize (Hmax _ Hget). exact Hmax.
      * assert (Hkey : In date (Map_keys (Collector.dailyActivity summary)))
          by (apply in_map_iff; now exists (date, count)).
        apply Hkeys in Hkey. destruct Hkey as (t & Ht & <-).
        exists t. split; [exact Ht |]. split; [reflexivity |].
        intros Hrange. apply formatMonthDay_formatDateKey.
        apply matchingThreads_In in Ht. destruct Ht as [_ Hy].
        now rewrite Hy.
Qed.

(** The report of the sample thread files for 2025, the clock standing
    at the creation time of the sample thread. *)
Lemma sampleStats_returns :
  { r : AmpCodeStats &
    { n' : nat |
      calculateAmpStats (frozenEnv 1735948800000 0) 5%nat sampleFiles 2025 0%nat
      = (Some r, n') } }.
Proof. eexists. eexists. vm_compute. reflexivity. Defined.

Lemma calculateAmpStats_mostActiveDay_witness :
  exists r n',
    calculateAmpStats (frozenEnv 1735948800000 0) 5%nat sampleFiles 2025 0%nat
    = (Some r, n')
    /\ match mostActiveDay r with
       | Some d =>
           day_count d
           = threadsOnDay (frozenEnv 1735948800000 0) (day_date d)
               (matchingThreads (frozenEnv 1735948800000 0) 2025 sampleFiles)
       | None => False
       end.
Proof.
  destruct sampleStats_returns as (r & n' & E).
  exists r, n'. split; [exact E |].
  pose proof (calculateAmpStats_mostActiveDay (frozenEnv 1735948800000 0) 5%nat
                sampleFiles 2025 0%nat r n' E) as H.
  cbv zeta in H. destruct (mostActiveDay r) as [d|].
  - exact (proj1 H).
  - discriminate H.
Defined.

Lemma updateAt_nonneg (i : nat) (x : Z) (l : list Z) :
  Forall (fun c => 0 <= c) l -> 0 <= x ->
  Forall (fun c => 0 <= c) (updateAt i (fun c => c + x) l).
Proof.
  intros Hl Hx. unfold updateAt. rewrite <- (firstn_skipn i l) in Hl.
  apply Forall_app in Hl. destruct Hl as [H1 H2].
  apply Forall_app. split; [exact H1 |].
  destruct (skipn i l) as [|y rest]; [constructor |].
  inversion H2; subst. constructor; [lia | assumption].
Qed.

Lemma weekdayStep_fold_nonneg (env : Env) (entries : Map Z) :
  Forall (fun e => 0 <= snd e) entries ->
  forall counts,
    Forall (fun c => 0 <= c) counts ->
    Forall (fun c => 0 <= c) (fold_left (weekdayStep env) entries counts).
Proof.
  intros He. induction He as [|[key count] entries Hc He IH]; intros counts Hl;
    [exact Hl |].
  cbn [fold_left]. apply IH. unfold weekdayStep.
  destruct (Date_parse key); [now apply updateAt_nonneg | exact Hl].
Qed.

Lemma datedEntries_all (dailyActivity : Map Z) :
  (forall key, In key (Map_keys dailyActivity) -> Date_parse key <> None) ->
  datedEntries dailyActivity = dailyActivity.
Proof.
  induction dailyActivity as [|[key count] rest IH]; intros H; [reflexivity |].
  unfold datedEntries in *. cbn [filter fst].
  destruct (Date_parse key) eqn:E.
  - f_equal. apply IH. intros k Hk. apply H. now right.
  - exfalso. now apply (H key (or_introl eq_refl)).
Qed.

Lemma buildWeekdayActivity_eq (counts : list Z) :
  buildWeekdayActivity counts
  = let acc := fold_left (weekdayMaxStep counts) (seq 0 7) (0%nat, 0) in
    {| weekday_counts := counts;
       weekday_mostActiveDay := Z.of_nat (fst acc);
       weekday_mostActiveDayName := nth (fst acc) WEEKDAY_NAMES_FULL EmptyString;
       weekday_maxCount := snd acc |}.
Proof.
  assert (E : forall l acc,
             fold_left
               (fun '(best, mx) i =>
                  if nth i counts 0 >? mx then (i, nth i counts 0) else (best, mx))
               l acc
             = fold_left (weekdayMaxStep counts) l acc).
  { induction l as [|i l IH]; intros [best mx]; [reflexivity | apply IH]. }
  unfold buildWeekdayActivity. rewrite E.
  now destruct (fold_left (weekdayMaxStep counts) (seq 0 7) (0%nat, 0)).
Qed.

Lemma nth_le_listSum (l : list Z) (i : nat) :
  Forall (fun c => 0 <= c) l -> 0 <= nth i l 0 <= listSum l.
Proof.
  intros H. revert i. induction H as [|x l Hx Hl IH]; intros i.
  - destruct i; simpl; lia.
  - destruct i as [|i]; simpl.
    + specialize (IH 0%nat). lia.
    + specialize (IH i). lia.
Qed.

Lemma listSum_zero (l : list Z) :
  (forall i, (i < List.length l)%nat -> nth i l 0 <= 0) ->
  Forall (fun c => 0 <= c) l -> listSum l = 0.
Proof.
  intros Hz H. induction H as [|x l Hx Hl IH]; [reflexivity |].
  simpl. pose proof (Hz 0%nat ltac:(simpl; lia)) as H0. simpl in H0.
  rewrite IH; [lia |]. intros i Hi. apply (Hz (S i)). simpl. lia.
Qed.

(** X18.  The weekday counts of the program.  For a year of four digits the
    seven counts are not negative and add up to [totalSessions], so the
    count of the busiest weekday is at most [totalSessions]; it is 0
    exactly when the year has no thread. *)
Theorem calculateAmpStats_weekdays :
  forall env fuel (threadFiles : list (option AmpThread)) year n r n',
    1000 <= year <= 9999 ->
    calculateAmpStats env fuel threadFiles year n = (Some r, n') ->
    let w := weekdayActivity r in
    List.length (weekday_counts w) = 7%nat
    /\ Forall (fun c => 0 <= c) (weekday_counts w)
    /\ listSum (weekday_counts w) = totalSessions r
    /\ 0 <= weekday_maxCount w <= totalSessions r
    /\ (weekday_maxCount w = 0 <-> totalSessions r = 0).
Proof.
  intros env fuel threadFiles year n r n' Hrange Hr w. subst w.
  unfold calculateAmpStats in Hr. apply calculateStats_result in Hr.
  destruct Hr as (s & n1 & first & now & _ & ->).
  cbn [weekdayActivity totalSessions assembleStats].
  set (summary := collectAmpUsageSummary env threadFiles year).
  destruct (collect_inv env year threadFiles) as [_ Hk Hc _ Hds _].
  fold summary in Hk, Hc, Hds.
  set (counts := fold_left (weekdayStep env) (Collector.dailyActivity summary)
                   [0; 0; 0; 0; 0; 0; 0]).
  destruct (weekdayStep_fold env (Collector.dailyActivity summary)
              [0; 0; 0; 0; 0; 0; 0] eq_refl) as [Hlen Hsum].
  fold counts in Hlen, Hsum.
  assert (Hdated : datedEntries (Collector.dailyActivity summary)
                   = Collector.dailyActivity summary).
  { apply datedEntries_all. intros key Hin.
    apply collect_keys in Hin. destruct Hin as (t & Ht & <-).
    apply matchingThreads_In in Ht. destruct Ht as [_ Hy].
    rewrite formatDateKey_dateKeyOfDay, Date_parse_dateKeyOfDay;
      [discriminate |].
    change (1000 <= getFullYear env (created t) <= 9999). now rewrite Hy. }
  rewrite Hdated, Hds in Hsum. simpl in Hsum.
  assert (Hnn : Forall (fun c => 0 <= c) counts).
  { apply weekdayStep_fold_nonneg; [| repeat constructor; lia].
    apply Forall_forall. intros [key count] Hin.
    pose proof (Map_get_of_In _ _ _ Hk Hin) as Hget. rewrite Hc in Hget.
    pose proof (threadsOnDay_nonneg env key (matchingThreads env year threadFiles)).
    destruct (_ =? 0); [discriminate |]. injection Hget as <-. simpl. lia. }
  rewrite buildWeekdayActivity_eq. cbv zeta.
  cbn [weekday_counts weekday_maxCount].
  pose proof (weekdayMax_fold counts 7) as Hinv.
  destruct (fold_left (weekdayMaxStep counts) (seq 0 7) (0%nat, 0)) as [best mx].
  cbn [fst snd] in *.
  split; [exact Hlen |]. split; [exact Hnn |]. split; [exact Hsum |].
  destruct Hinv as [(H0 & _ & Hall) | (H0 & _ & Hn & _ & _)];
    cbn [fst snd] in *.
  - subst mx. rewrite <- Hlen in Hall.
    pose proof (listSum_zero counts Hall Hnn) as Hz.
    rewrite Hsum in Hz. rewrite Hz. repeat split; lia.
  - pose proof (nth_le_listSum counts best Hnn) as Hb.
    rewrite Hn, Hsum in Hb. repeat split; lia.
Qed.

Lemma calculateAmpStats_weekdays_witness :
  1000 <= 2025 <= 9999
  /\ exists r n',
       calculateAmpStats (frozenEnv 1735948800000 0) 5%nat sampleFiles 2025 0%nat
       = (Some r, n')
       /\ listSum (weekday_counts (weekdayActivity r)) = totalSessions r.
Proof.
  split; [lia |].
  destruct sampleStats_returns as (r & n' & E).
  exists r, n'. split; [exact E |].
  exact (proj1 (proj2 (proj2
           (calculateAmpStats_weekdays (frozenEnv 1735948800000 0) 5%nat
              sampleFiles 2025 0%nat r n' ltac:(lia) E)))).
Defined.

(** X19.  The first session of the program.  When the year has a thread,
    [firstSessionDate] is the earliest creation time among the threads of
    the year; otherwise it is a reading of the clock.  In both cases
    [daysSinceFirstSession] is the number of whole days from it to the
    next reading of the clock, so it is negative exactly when that
    reading is earlier than the first session. *)
Theorem calculateAmpStats_firstSession :
  forall env fuel (threadFiles : list (option AmpThread)) year n r n',
    calculateAmpStats env fuel threadFiles year n = (Some r, n') ->
    let threads := matchingThreads env year threadFiles in
    let now := clock env (pred n') in
    (threads <> [] ->
       (exists t, In t threads /\ created t = firstSessionDate r)
       /\ forall t, In t threads -> firstSessionDate r <= created t)
    /\ (threads = [] -> firstSessionDate r = clock env (pred (pred n')))
    /\ daysSinceFirstSession r * MS_PER_DAY <= now - firstSessionDate r
         < (daysSinceFirstSession r + 1) * MS_PER_DAY
    /\ (daysSinceFirstSession r < 0 <-> now < firstSessionDate r).
Proof.
  intros env fuel threadFiles year n r n' Hr threads now. subst now.
  unfold calculateAmpStats in Hr. rewrite calculateStats_unfold in Hr.
  cbv zeta in Hr.
  set (summary := collectAmpUsageSummary env threadFiles year) in *.
  destruct (collect_inv env year threadFiles) as [_ _ _ _ _ Hf].
  fold summary threads in Hf.
  destruct (calculateStreaks env fuel (Collector.dailyActivity summary) year n)
    as [[s|] n1]; cbn [fst snd] in Hr; [| discriminate].
  assert (Hdays : forall first now' : Z,
             Math_floor_div (now' - first) (1000 * 60 * 60 * 24) * MS_PER_DAY
             <= now' - first
             < (Math_floor_div (now' - first) (1000 * 60 * 60 * 24) + 1) * MS_PER_DAY
             /\ (Math_floor_div (now' - first) (1000 * 60 * 60 * 24) < 0
                 <-> now' < first)).
  { intros first now'. unfold Math_floor_div, MS_PER_DAY.
    change (1000 * 60 * 60 * 24) with 86400000.
    split; [| split; intros H]; Z.div_mod_to_equations; lia. }
  destruct (firstTimestamp summary) as [f|]; cbn [fst snd] in Hr;
    injection Hr as <- <-;
    cbn [firstSessionDate daysSinceFirstSession assembleStats Nat.pred].
  - destruct Hf as [Hex Hmin]. split; [intros _; now split |].
    split; [| apply Hdays].
    intros Hnil. destruct Hex as (t & Ht & _). rewrite Hnil in Ht. destruct Ht.
  - split; [intros Hne; contradiction |].
    split; [reflexivity | apply Hdays].
Qed.

Lemma calculateAmpStats_firstSession_witness :
  exists r n',
    calculateAmpStats (frozenEnv 1735948800000 0) 5%nat sampleFiles 2025 0%nat
    = (Some r, n')
    /\ daysSinceFirstSession r * MS_PER_DAY
       <= clock (frozenEnv 1735948800000 0) (pred n') - firstSessionDate r
       < (daysSinceFirstSession r + 1) * MS_PER_DAY.
Proof.
  destruct sampleStats_returns as (r & n' & E).
  exists r, n'. split; [exact E |].
  exact (proj1 (proj2 (proj2
           (calculateAmpStats_firstSession (frozenEnv 1735948800000 0) 5%nat
              sampleFiles 2025 0%nat r n' E)))).
Defined.

End Report.

(** ** The totals of the collector as sums over the messages *)

Section CollectorMessages.

Local Open Scope list_scope.

(** The messages of the threads counted for the year, in order. *)
Definition countedMessages (env : Env) (year : Z)
  (threadFiles : list (option AmpThread)) : list AmpMessage :=
  flat_map messages (matchingThreads env year threadFiles).

Definition messageTokens (m : AmpMessage) : Z :=
  messageInput m + messageOutput m + messageCacheRead m.

Lemma sumOver_app {A} (f : A -> Z) (l l' : list A) :
  sumOver f (l ++ l') = sumOver f l + sumOver f l'.
Proof. unfold sumOver. induction l as [|x l IH]; simpl; lia. Qed.

Lemma sumOver_snoc {A} (f : A -> Z) (l : list A) (x : A) :
  sumOver f (l ++ [x]) = sumOver f l + f x.
Proof. rewrite sumOver_app. unfold sumOver. simpl. lia. Qed.

Lemma messagesDelta_sums (msgs : list AmpMessage) (sessions : Z) :
  fold_right (fun m acc => addTotals (messageDelta m) acc)
    [0; 0; 0; 0; 0; 0; sessions] msgs
  = [ sumOver messageInput msgs; sumOver messageOutput msgs;
      sumOver messageCacheRead msgs; sumOver messageTokens msgs;
      sumOver messageCredits msgs; sumOver messageIsUser msgs; sessions ].
Proof.
  induction msgs as [|m msgs IH]; [reflexivity |].
  cbn [fold_right]. rewrite IH. unfold addTotals, messageDelta, messageTokens.
  cbn [combine map fst snd sumOver fold_right]. repeat f_equal; lia.
Qed.

Lemma threadDeltas_sums (threads : list AmpThread) :
  fold_right (fun t d => addTotals (threadDelta t) d) [0; 0; 0; 0; 0; 0; 0] threads
  = [ sumOver messageInput (flat_map messages threads);
      sumOver messageOutput (flat_map messages threads);
      sumOver messageCacheRead (flat_map messages threads);
      sumOver messageTokens (flat_map messages threads);
      sumOver messageCredits (flat_map messages threads);
      sumOver messageIsUser (flat_map messages threads);
      Z.of_nat (List.length threads) ].
Proof.
  induction threads as [|t threads IH]; [reflexivity |].
  cbn [fold_right flat_map]. rewrite IH. unfold threadDelta.
  rewrite messagesDelta_sums, !sumOver_app. unfold addTotals.
  cbn [combine map fst snd List.length]. repeat f_equal; lia.
Qed.


(** *** The totals of each model *)

(** The model a message is counted for: the model of the usage of an
    assistant message, unless it is missing, empty or "unknown". *)
Definition messageModel (m : AmpMessage) : option string :=
  match countedUsage m with
  | Some u =>
      match model u with
      | Some x =>
          if String.eqb x EmptyString || String.eqb x "unknown" then None
          else Some x
      | None => None
      end
  | None => None
  end.

Definition countsForModel (id : string) (m : AmpMessage) : bool :=
  match messageModel m with
  | Some x => String.eqb x id
  | None => false
  end.

(** One step of a per-model total. *)
Definition modelTotalStep (amount : AmpMessage -> Z) (totals : Map Z)
  (m : AmpMessage) : Map Z :=
  match messageModel m with
  | Some x => Map_set totals x (orZero (Map_get totals x) + amount m)
  | None => totals
  end.

Lemma processMessage_models (acc : AmpUsageSummary) (m : AmpMessage) :
  modelTokenTotals (processMessage acc m)
  = modelTotalStep messageTokens (modelTokenTotals acc) m
  /\ modelCreditTotals (processMessage acc m)
     = modelTotalStep messageCredits (modelCreditTotals acc) m.
Proof.
  unfold processMessage, modelTotalStep, messageModel, messageTokens,
    messageInput, messageOutput, messageCacheRead, messageCredits, countedUsage.
  destruct (role m); [split; reflexivity |].
  destruct (usage m) as [u|]; [| split; reflexivity].
  cbn [modelTokenTotals modelCreditTotals].
  destruct (model u) as [x|]; [| split; reflexivity].
  destruct (String.eqb_spec x EmptyString) as [->|Hne]; [split; reflexivity |].
  cbn [orb].
  destruct (String.eqb_spec x "unknown") as [->|Hne']; [split; reflexivity |].
  destruct (String.eqb_spec x EmptyString); [contradiction |].
  cbn [negb andb]. split; reflexivity.
Qed.

Lemma processMessages_models (msgs : list AmpMessage) (acc : AmpUsageSummary) :
  modelTokenTotals (fold_left processMessage msgs acc)
  = fold_left (modelTotalStep messageTokens) msgs (modelTokenTotals acc)
  /\ modelCreditTotals (fold_left processMessage msgs acc)
     = fold_left (modelTotalStep messageCredits) msgs (modelCreditTotals acc).
Proof.
  revert acc. induction msgs as [|m msgs IH]; intros acc; [split; reflexivity |].
  cbn [fold_left]. destruct (IH (processMessage acc m)) as [H1 H2].
  destruct (processMessage_models acc m) as [G1 G2].
  now rewrite H1, H2, G1, G2.
Qed.

Lemma collect_models_fold env year (files : list (option AmpThread))
  (acc : AmpUsageSummary) :
  modelTokenTotals (fold_left (processThread env year) files acc)
  = fold_left (modelTotalStep messageTokens) (countedMessages env year files)
      (modelTokenTotals acc)
  /\ modelCreditTotals (fold_left (processThread env year) files acc)
     = fold_left (modelTotalStep messageCredits) (countedMessages env year files)
         (modelCreditTotals acc).
Proof.
  revert acc. induction files as [|f files IH]; intros acc; [split; reflexivity |].
  cbn [fold_left]. destruct (IH (processThread env year acc f)) as [H1 H2].
  rewrite H1, H2. unfold countedMessages.
  rewrite (matchingThreads_cons env year f files), flat_map_app, !fold_left_app.
  destruct (processThread_cases env year acc f)
    as [(t & -> & Hy & Hm) | [Hsame Hm]]; rewrite Hm.
  - cbn [flat_map]. rewrite app_nil_r. unfold processThread.
    apply Z.eqb_eq in Hy. rewrite Hy. cbn [negb].
    match goal with |- context [fold_left processMessage _ ?a] => set (acc1 := a) end.
    destruct (processMessages_models (messages t) acc1) as [G1 G2].
    rewrite G1, G2. split; reflexivity.
  - rewrite Hsame. split; reflexivity.
Qed.

Lemma orZero_Some (v : Z) : orZero (Some v) = v.
Proof. simpl. destruct (Z.eqb_spec v 0); lia. Qed.

(** What a per-model total holds after the messages [seen]. *)
Record ModelInv (amount : AmpMessage -> Z) (seen : list AmpMessage)
  (totals : Map Z) : Prop := {
  model_keys : NoDup (Map_keys totals);
  model_has :
    forall id, In id (Map_keys totals)
               <-> exists m, In m seen /\ messageModel m = Some id;
  model_get :
    forall id,
      orZero (Map_get totals id)
      = sumOver (fun m => if countsForModel id m then amount m else 0) seen
}.

Lemma ModelInv_step amount seen totals m :
  ModelInv amount seen totals ->
  ModelInv amount (seen ++ [m]) (modelTotalStep amount totals m).
Proof.
  intros [Hk Hh Hg]. unfold modelTotalStep.
  destruct (messageModel m) as [x|] eqn:Ex.
  - split.
    + now apply Map_set_NoDup.
    + intros id. rewrite Map_keys_set.
      assert (Hiff : In id (Map_keys totals ++ [x])
                     <-> exists m0, In m0 (seen ++ [m]) /\ messageModel m0 = Some id).
      { rewrite in_app_iff, Hh. split.
        - intros [(m0 & Hin & Hm0) | [<- | []]].
          + exists m0. split; [apply in_or_app; now left | exact Hm0].
          + exists m. split; [apply in_or_app; right; now left | exact Ex].
        - intros (m0 & Hin & Hm0). apply in_app_or in Hin.
          destruct Hin as [Hin | [<- | []]].
          + left. now exists m0.
          + right. left. congruence. }
      destruct (Map_has totals x) eqn:Ehas; [| exact Hiff].
      rewrite <- Hiff, in_app_iff. apply Map_has_In in Ehas.
      split; [now left | intros [H | [<- | []]]; assumption].
    + intros id. rewrite Map_get_set, sumOver_snoc.
      assert (Hm : countsForModel id m = String.eqb x id)
        by (unfold countsForModel; now rewrite Ex).
      rewrite Hm.
      destruct (String.eqb_spec x id) as [->|Hne].
      * rewrite orZero_Some, Hg. lia.
      * rewrite Hg. lia.
  - split; [exact Hk | |].
    + intros id. rewrite Hh. split.
      * intros (m0 & Hin & Hm0). exists m0.
        split; [apply in_or_app; now left | exact Hm0].
      * intros (m0 & Hin & Hm0). apply in_app_or in Hin.
        destruct Hin as [Hin | [<- | []]]; [now exists m0 | congruence].
    + intros id. rewrite sumOver_snoc, Hg.
      assert (Hm : countsForModel id m = false)
        by (unfold countsForModel; now rewrite Ex).
      rewrite Hm. lia.
Qed.

Lemma ModelInv_fold amount msgs seen totals :
  ModelInv amount seen totals ->
  ModelInv amount (seen ++ msgs) (fold_left (modelTotalStep amount) msgs totals).
Proof.
  revert seen totals. induction msgs as [|m msgs IH]; intros seen totals H.
  - now rewrite app_nil_r.
  - cbn [fold_left].
    replace (seen ++ m :: msgs) with ((seen ++ [m]) ++ msgs)
      by (now rewrite <- app_assoc).
    apply IH. now apply ModelInv_step.
Qed.

Lemma ModelInv_empty amount : ModelInv amount [] [].
Proof.
  split; [constructor | | reflexivity].
  intros id. split; [intros [] | intros (m & [] & _)].
Qed.

Lemma modelTotalStep_keys (a b : AmpMessage -> Z) (msgs : list AmpMessage) :
  forall ta tb,
    Map_keys ta = Map_keys tb ->
    Map_keys (fold_left (modelTotalStep a) msgs ta)
    = Map_keys (fold_left (modelTotalStep b) msgs tb).
Proof.
  induction msgs as [|m msgs IH]; intros ta tb H; [exact H |].
  cbn [fold_left]. apply IH. unfold modelTotalStep.
  destruct (messageModel m) as [x|]; [| exact H].
  rewrite !Map_keys_set, H.
  replace (Map_has ta x) with (Map_has tb x); [reflexivity |].
  destruct (Map_has tb x) eqn:Eb; destruct (Map_has ta x) eqn:Ea;
    try reflexivity.
  - apply Map_has_In in Eb. rewrite <- H in Eb. apply Map_has_In in Eb. congruence.
  - apply Map_has_In in Ea. rewrite H in Ea. apply Map_has_In in Ea. congruence.
Qed.

Lemma collect_models_inv env (threadFiles : list (option AmpThread)) year :
  ModelInv messageTokens (countedMessages env year threadFiles)
    (modelTokenTotals (collectAmpUsageSummary env threadFiles year))
  /\ ModelInv messageCredits (countedMessages env year threadFiles)
       (modelCreditTotals (collectAmpUsageSummary env threadFiles year))
  /\ Map_keys (modelTokenTotals (collectAmpUsageSummary env threadFiles year))
     = Map_keys (modelCreditTotals (collectAmpUsageSummary env threadFiles year)).
Proof.
  destruct (collect_models_fold env year threadFiles emptySummary) as [Ht Hc].
  cbn [modelTokenTotals modelCreditTotals emptySummary] in Ht, Hc.
  unfold collectAmpUsageSummary. rewrite Ht, Hc.
  split; [apply (ModelInv_fold _ _ [] []), ModelInv_empty |].
  split; [apply (ModelInv_fold _ _ [] []), ModelInv_empty |].
  now apply modelTotalStep_keys.
Qed.


End CollectorMessages.

(** ** The top models of the program *)

Section TopModels.

Local Open Scope list_scope.








End TopModels.

(** ** The numbers the card draws *)

Section Card.

Import Template.
Local Open Scope list_scope.

Lemma Math_round_le (x : Q) (n : Z) : (x <= inject_Z n)%Q -> Math_round x <= n.
Proof.
  intros H. unfold Math_round.
  assert (Hn : Qfloor (inject_Z n + (1 # 2)) = n).
  { pose proof (Qfloor_le (inject_Z n + (1 # 2))) as H1.
    pose proof (Qlt_floor (inject_Z n + (1 # 2))) as H2.
    revert H1 H2. generalize (Qfloor (inject_Z n + (1 # 2))). intros k H1 H2.
    unfold Qle, Qlt, Qplus, inject_Z in *. simpl in *. lia. }
  rewrite <- Hn. apply Qfloor_resp_le.
  apply Qplus_le_l. exact H.
Qed.

Lemma Math_round_Z (n : Z) (x : Q) : x == inject_Z n -> Math_round x = n.
Proof.
  intros H. unfold Math_round. rewrite (Qfloor_comp _ (inject_Z n + (1 # 2))).
  - pose proof (Qfloor_le (inject_Z n + (1 # 2))) as H1.
    pose proof (Qlt_floor (inject_Z n + (1 # 2))) as H2.
    revert H1 H2. generalize (Qfloor (inject_Z n + (1 # 2))). intros k H1 H2.
    unfold Qle, Qlt, Qplus, inject_Z in *. simpl in *. lia.
  - now rewrite H.
Qed.

Lemma barHeight_bounds (maxCount count : Z) :
  count <= maxCount -> 8 <= barHeight maxCount count <= BAR_HEIGHT.
Proof.
  intros Hle. unfold barHeight. cbv zeta.
  split; [apply Z.le_max_l |]. apply Z.max_lub; [unfold BAR_HEIGHT; lia |].
  apply Math_round_le.
  destruct (Z.ltb_spec 0 maxCount) as [Hpos|Hnp].
  - rewrite <- (Qmult_1_l (inject_Z BAR_HEIGHT)) at 2.
    apply Qmult_le_compat_r; [| unfold BAR_HEIGHT, Qle; simpl; lia].
    apply Qle_shift_div_r; [unfold Qlt; simpl; lia |].
    rewrite Qmult_1_l. unfold Qle. simpl. lia.
  - unfold BAR_HEIGHT, Qle. simpl. lia.
Qed.

Lemma barHeight_full (maxCount : Z) :
  0 < maxCount -> barHeight maxCount maxCount = BAR_HEIGHT.
Proof.
  intros Hpos. unfold barHeight. cbv zeta.
  apply Z.ltb_lt in Hpos. rewrite Hpos. apply Z.ltb_lt in Hpos.
  rewrite (Math_round_Z BAR_HEIGHT); [unfold BAR_HEIGHT; lia |].
  assert (H : inject_Z maxCount / inject_Z maxCount == 1).
  { apply Qmult_inv_r. unfold Qeq. simpl. lia. }
  rewrite H. apply Qmult_1_l.
Qed.

Lemma barHeight_idle (maxCount count : Z) :
  maxCount <= 0 -> barHeight maxCount count = 8.
Proof.
  intros H. unfold barHeight. cbv zeta.
  destruct (Z.ltb_spec 0 maxCount); [lia |].
  rewrite (Math_round_Z 0); [reflexivity |]. apply Qmult_0_l.
Qed.

Lemma nth_combine_seq {A} (l : list A) (d : A) (i a : nat) :
  (i < List.length l)%nat ->
  nth i (combine (seq a (List.length l)) l) (0%nat, d) = ((a + i)%nat, nth i l d).
Proof.
  revert i a. induction l as [|x l IH]; intros i a Hi; [simpl in Hi; lia |].
  destruct i as [|i]; simpl.
  - f_equal. lia.
  - rewrite IH by (simpl in Hi; lia). f_equal. lia.
Qed.

(** X23.  The bars of the weekly chart, drawn from what
    [buildWeekdayActivity] reports for seven counts: there are seven
    bars, each between 8 and [BAR_HEIGHT] high; exactly the bar of the
    reported weekday is highlighted, and it has the full height when
    some count is positive; with no positive count every bar is 8 high. *)
Theorem WeeklyBarChart_bars :
  forall counts : list Z,
    List.length counts = 7%nat ->
    let w := buildWeekdayActivity counts in
    let bars := WeeklyBarChart w in
    List.length bars = 7%nat
    /\ (forall i, (i < 7)%nat ->
          8 <= fst (nth i bars (0, false)) <= BAR_HEIGHT
          /\ (snd (nth i bars (0, false)) = true
              <-> Z.of_nat i = weekday_mostActiveDay w))
    /\ 0 <= weekday_mostActiveDay w < 7
    /\ (0 < weekday_maxCount w ->
          fst (nth (Z.to_nat (weekday_mostActiveDay w)) bars (0, false))
          = BAR_HEIGHT)
    /\ (weekday_maxCount w = 0 ->
          forall i, (i < 7)%nat -> fst (nth i bars (0, false)) = 8).
Proof.
  intros counts Hlen w bars. subst bars w.
  unfold WeeklyBarChart. rewrite buildWeekdayActivity_eq. cbv zeta.
  cbn [weekday_counts weekday_maxCount weekday_mostActiveDay].
  pose proof (weekdayMax_fold counts 7) as Hinv.
  destruct (fold_left (weekdayMaxStep counts) (seq 0 7) (0%nat, 0)) as [best mx].
  cbn [fst snd].
  set (bar := fun '(i, count) => (barHeight mx count, Z.of_nat i =? Z.of_nat best)).
  assert (Hnth : forall i, (i < 7)%nat ->
             nth i (map bar (combine (seq 0 (List.length counts)) counts)) (0, false)
             = (barHeight mx (nth i counts 0), Z.of_nat i =? Z.of_nat best)).
  { intros i Hi.
    rewrite (nth_indep _ (0, false) (bar (0%nat, 0)))
      by (rewrite length_map, length_combine, length_seq; lia).
    rewrite map_nth, nth_combine_seq by lia. reflexivity. }
  assert (Hmax : 0 <= mx /\ (best < 7)%nat
                 /\ (forall i, (i < 7)%nat -> nth i counts 0 <= mx)
                 /\ (0 < mx -> nth best counts 0 = mx)).
  { destruct Hinv as [(H0 & Hb & Hall) | (H0 & Hb & Hn & _ & Hall)];
      cbn [fst snd] in *.
    - subst. repeat split; try lia. exact Hall.
    - repeat split; try lia; assumption. }
  destruct Hmax as (Hmx & Hbest & Hall & Htop).
  split; [rewrite length_map, length_combine, length_seq; lia |].
  split.
  { intros i Hi. rewrite Hnth by exact Hi. cbn [fst snd].
    split; [apply barHeight_bounds; now apply Hall |].
    rewrite Z.eqb_eq. reflexivity. }
  split; [lia |]. split.
  - intros Hpos. rewrite Nat2Z.id, Hnth by exact Hbest. cbn [fst].
    rewrite (Htop Hpos). now apply barHeight_full.
  - intros Hzero i Hi. rewrite Hnth by exact Hi. cbn [fst].
    apply barHeight_idle. lia.
Qed.

Lemma WeeklyBarChart_bars_witness :
  List.length [0; 2; 5; 5; 1; 0; 0] = 7%nat
  /\ List.length (WeeklyBarChart (buildWeekdayActivity [0; 2; 5; 5; 1; 0; 0]))
     = 7%nat.
Proof.
  split; [reflexivity |].
  exact (proj1 (WeeklyBarChart_bars [0; 2; 5; 5; 1; 0; 0] eq_refl)).
Defined.

(** *** The heatmap *)

Lemma fold_max_spec (counts : list Z) (c : Z) :
  let mx := fold_left Z.max counts c in
  (mx = c \/ In mx counts) /\ c <= mx /\ forall x, In x counts -> x <= mx.
Proof.
  revert c. induction counts as [|y counts IH]; intros c; cbn [fold_left].
  - cbv zeta. split; [now left |]. split; [lia | intros x []].
  - specialize (IH (Z.max c y)). cbv zeta in *.
    destruct IH as (Hin & Hle & Hall).
    split; [| split].
    + destruct Hin as [E | Hin]; [| right; now right].
      rewrite E.
      destruct (Z.max_spec c y) as [[_ E'] | [_ E']]; rewrite E';
        [right; now left | now left].
    + lia.
    + intros x [<- | Hx]; [lia | now apply Hall].
Qed.

Lemma heatmapMaxCount_spec (dailyActivity : Map Z) :
  dailyActivity <> [] ->
  (exists key, In (key, heatmapMaxCount dailyActivity) dailyActivity)
  /\ forall e, In e dailyActivity -> snd e <= heatmapMaxCount dailyActivity.
Proof.
  intros Hne. unfold heatmapMaxCount.
  destruct dailyActivity as [|[key count] rest]; [congruence |].
  cbn [map snd].
  destruct (fold_max_spec (map snd rest) count) as (Hin & Hle & Hall).
  cbv zeta in *. split.
  - destruct Hin as [-> | Hin].
    + exists key. now left.
    + apply in_map_iff in Hin. destruct Hin as ([k c] & Hc & Hin).
      cbn [snd] in Hc. subst c. exists k. now right.
  - intros e [<- | He]; [exact Hle |].
    apply Hall. now apply in_map.
Qed.

(** X24.  The heatmap of the program.  Its largest count is the count of the
    most active day, and 0 when there is none; the count of every cell,
    a null cell included, lies between 0 and that largest count, and is
    the number of threads created on the day of the cell. *)
Theorem heatmap_counts :
  forall env fuel (threadFiles : list (option AmpThread)) year n r n',
    calculateAmpStats env fuel threadFiles year n = (Some r, n') ->
    heatmapMaxCount (dailyActivity r)
    = match mostActiveDay r with
      | Some d => day_count d
      | None => 0
      end
    /\ (forall dateStr,
          0 <= cellCount (dailyActivity r) dateStr
            <= heatmapMaxCount (dailyActivity r))
    /\ (forall key,
          key <> EmptyString ->
          cellCount (dailyActivity r) (Some key)
          = threadsOnDay env key (matchingThreads env year threadFiles)).
Proof.
  intros env fuel threadFiles year n r n' Hr.
  unfold calculateAmpStats in Hr. apply calculateStats_result in Hr.
  destruct Hr as (s & n1 & first & now & _ & ->).
  cbn [mostActiveDay dailyActivity assembleStats].
  set (summary := collectAmpUsageSummary env threadFiles year).
  set (threads := matchingThreads env year threadFiles).
  destruct (collect_inv env year threadFiles) as [_ Hk Hc _ _ _].
  fold summary threads in Hk, Hc.
  assert (Hcount : forall key count,
             In (key, count) (Collector.dailyActivity summary) ->
             count = threadsOnDay env key threads /\ 0 < count).
  { intros key count Hin.
    pose proof (Map_get_of_In _ _ _ Hk Hin) as Hget. rewrite Hc in Hget.
    pose proof (threadsOnDay_nonneg env key threads).
    destruct (Z.eqb_spec (threadsOnDay env key threads) 0); [discriminate |].
    injection Hget as <-. split; [reflexivity | lia]. }
  assert (Hget : forall key,
             orZero (Map_get (Collector.dailyActivity summary) key)
             = threadsOnDay env key threads).
  { intros key. rewrite Hc.
    destruct (Z.eqb_spec (threadsOnDay env key threads) 0) as [->|N];
      [reflexivity | now rewrite orZero_Some]. }
  destruct (Collector.dailyActivity summary) as [|[key0 count0] rest] eqn:Eda.
  - cbn. split; [reflexivity |]. split.
    + intros [key|]; cbn; [| lia]. destruct (String.eqb key EmptyString); lia.
    + intros key Hne. unfold cellCount.
      destruct (String.eqb_spec key EmptyString); [contradiction |].
      apply (Hget key).
  - rewrite <- Eda in *.
    assert (Hne : Collector.dailyActivity summary <> [])
      by (rewrite Eda; discriminate).
    assert (Hin0 : In (key0, count0) (Collector.dailyActivity summary))
      by (rewrite Eda; now left).
    clear Eda.
    destruct (heatmapMaxCount_spec _ Hne) as ((kmax & Hkmax) & Hall).
    destruct (findMostActiveDay_found (Collector.dailyActivity summary))
      as (date & count & -> & Hin & Hmax).
    + exists (key0, count0). split; [exact Hin0 |].
      now destruct (Hcount key0 count0 Hin0).
    + intros [key count] Hin. cbn [fst].
      assert (Hkey : In key (Map_keys (Collector.dailyActivity summary)))
        by (apply in_map_iff; now exists (key, count)).
      apply collect_keys in Hkey. destruct Hkey as (t & _ & <-).
      apply formatDateKey_nonempty.
    + cbn [day_count].
      pose proof (Hmax _ Hkmax) as H1. pose proof (Hall _ Hin) as H2.
      cbn [snd] in H1, H2.
      split; [lia |]. split.
      * intros [key|]; unfold cellCount.
        -- destruct (String.eqb key EmptyString);
             [destruct (Hcount _ _ Hkmax); lia |].
           rewrite Hget. pose proof (Hc key) as Hk'.
           destruct (Z.eqb_spec (threadsOnDay env key threads) 0) as [E|N].
           ++ rewrite E. destruct (Hcount _ _ Hkmax). lia.
           ++ apply Map_get_Some_In in Hk'. specialize (Hall _ Hk').
              cbn [snd] in Hall.
              pose proof (threadsOnDay_nonneg env key threads). lia.
        -- destruct (Hcount _ _ Hkmax). lia.
      * intros key Hne'. unfold cellCount.
        destruct (String.eqb_spec key EmptyString); [contradiction |].
        apply Hget.
Qed.

Lemma heatmap_counts_witness :
  exists r n',
    calculateAmpStats (frozenEnv 1735948800000 0) 5%nat sampleFiles 2025 0%nat
    = (Some r, n')
    /\ forall dateStr,
         0 <= cellCount (dailyActivity r) dateStr
           <= heatmapMaxCount (dailyActivity r).
Proof.
  destruct sampleStats_returns as (r & n' & E).
  exists r, n'. split; [exact E |].
  exact (proj1 (proj2 (heatmap_counts (frozenEnv 1735948800000 0) 5%nat
                         sampleFiles 2025 0%nat r n' E))).
Defined.

(** *** The month labels *)

(** What the loop of [getMonthLabels] returns from the week
    [weekIndex] on. *)
Lemma monthLabelsFrom_spec (cellSize gap : Q)
  (weeks : list (list (option string))) :
  forall (weekIndex : Z) (lastMonth : option Z),
    let labels := monthLabelsFrom weekIndex lastMonth weeks cellSize gap in
    (List.length labels <= List.length weeks)%nat
    /\ (forall l, In l labels ->
          exists (i : nat) week dateStr,
            nth_error weeks i = Some week
            /\ firstDate week = Some dateStr
            /\ label_month l = monthOf dateStr
            /\ label_x l = (inject_Z (weekIndex + Z.of_nat i) * (cellSize + gap))%Q)
    /\ match labels with
       | [] => True
       | l :: _ => strictNotEqual (label_month l) lastMonth = true
       end
    /\ (forall k a b,
          nth_error labels k = Some a -> nth_error labels (S k) = Some b ->
          strictNotEqual (label_month b) (label_month a) = true
          /\ exists i j : nat,
               (i < j)%nat
               /\ label_x a = (inject_Z (weekIndex + Z.of_nat i) * (cellSize + gap))%Q
               /\ label_x b = (inject_Z (weekIndex + Z.of_nat j) * (cellSize + gap))%Q).
Proof.
  induction weeks as [|week weeks IH]; intros weekIndex lastMonth.
  - cbn. split; [lia |]. split; [intros l [] |]. split; [exact I |].
    intros [|k] a b H; discriminate.
  - cbn [monthLabelsFrom].
    assert (Hskip : forall last,
               let labels := monthLabelsFrom (weekIndex + 1) last weeks cellSize gap in
               (List.length labels <= List.length (week :: weeks))%nat
               /\ (forall l, In l labels ->
                     exists (i : nat) week0 dateStr,
                       nth_error (week :: weeks) i = Some week0
                       /\ firstDate week0 = Some dateStr
                       /\ label_month l = monthOf dateStr
                       /\ label_x l
                          = (inject_Z (weekIndex + Z.of_nat i) * (cellSize + gap))%Q)
               /\ (forall k a b,
                     nth_error labels k = Some a -> nth_error labels (S k) = Some b ->
                     strictNotEqual (label_month b) (label_month a) = true
                     /\ exists i j : nat,
                          (i < j)%nat
                          /\ label_x a
                             = (inject_Z (weekIndex + Z.of_nat i) * (cellSize + gap))%Q
                          /\ label_x b
                             = (inject_Z (weekIndex + Z.of_nat j)
                                * (cellSize + gap))%Q)).
    { intros last. destruct (IH (weekIndex + 1) last) as (H1 & H2 & _ & H4).
      cbv zeta in *. split; [simpl; lia |]. split.
      - intros l Hl. destruct (H2 l Hl) as (i & w & d & Hn & Hf & Hm & Hx).
        exists (S i), w, d. split; [exact Hn |]. split; [exact Hf |].
        split; [exact Hm |]. rewrite Hx. do 2 f_equal. lia.
      - intros k a b Ha Hb. destruct (H4 k a b Ha Hb) as (Hne & i & j & Hij & Hxa & Hxb).
        split; [exact Hne |]. exists (S i), (S j). split; [lia |].
        rewrite Hxa, Hxb. split; do 2 f_equal; lia. }
    destruct (firstDate week) as [dateStr|] eqn:Efirst.
    + cbv zeta.
      destruct (strictNotEqual (monthOf dateStr) lastMonth) eqn:Eneq.
      * destruct (Hskip (monthOf dateStr)) as (H1 & H2 & H4).
        destruct (IH (weekIndex + 1) (monthOf dateStr)) as (G1 & G2 & G3 & _).
        cbv zeta in *.
        set (rest := monthLabelsFrom (weekIndex + 1) (monthOf dateStr) weeks
                       cellSize gap) in *.
        split; [cbn [List.length]; lia |]. split; [| split; [exact Eneq |]].
        -- intros l [<- | Hl]; [| now apply H2].
           exists 0%nat, week, dateStr. cbn [nth_error label_month label_x].
           split; [reflexivity |]. split; [exact Efirst |].
           split; [reflexivity |]. do 2 f_equal. lia.
        -- intros [|k] a b Ha Hb.
           ++ cbn in Ha. injection Ha as <-. cbn [label_month label_x].
              cbn [nth_error] in Hb.
              destruct rest as [|l rest']; [discriminate |].
              cbn in Hb. injection Hb as ->.
              split; [exact G3 |].
              destruct (G2 b (or_introl eq_refl)) as (i & w & d & _ & _ & _ & Hx).
              exists 0%nat, (S i). split; [lia |].
              split; [do 2 f_equal; lia |].
              rewrite Hx. do 2 f_equal. lia.
           ++ cbn [nth_error] in Ha, Hb. now apply (H4 k).
      * destruct (Hskip lastMonth) as (H1 & H2 & H4).
        destruct (IH (weekIndex + 1) lastMonth) as (_ & _ & G3 & _).
        cbv zeta in *. split; [exact H1 |]. split; [exact H2 |].
        split; [exact G3 | exact H4].
    + destruct (Hskip lastMonth) as (H1 & H2 & H4).
      destruct (IH (weekIndex + 1) lastMonth) as (_ & _ & G3 & _).
      cbv zeta in *. split; [exact H1 |]. split; [exact H2 |].
      split; [exact G3 | exact H4].
Qed.

(** X25.  [getMonthLabels] gives at most one label to a week, for weeks that
    hold a date; a label carries the month read from the first date of
    its week and stands at the position of that week; the labels follow
    the order of the weeks, so with a positive cell pitch their
    positions increase strictly; and two neighbouring labels never carry
    the same month. *)
Theorem getMonthLabels_spec :
  forall (weeks : list (list (option string))) (cellSize gap : Q),
    (0 < cellSize + gap)%Q ->
    let labels := getMonthLabels weeks cellSize gap in
    (List.length labels <= List.length weeks)%nat
    /\ (forall l, In l labels ->
          exists (i : nat) week dateStr,
            nth_error weeks i = Some week
            /\ firstDate week = Some dateStr
            /\ label_month l = monthOf dateStr
            /\ label_x l = (inject_Z (Z.of_nat i) * (cellSize + gap))%Q)
    /\ (forall k a b,
          nth_error labels k = Some a -> nth_error labels (S k) = Some b ->
          strictNotEqual (label_month b) (label_month a) = true
          /\ (label_x a < label_x b)%Q).
Proof.
  intros weeks cellSize gap Hpitch labels. subst labels. unfold getMonthLabels.
  destruct (monthLabelsFrom_spec cellSize gap weeks 0 (Some (-1)))
    as (H1 & H2 & _ & H4).
  cbv zeta in *. split; [exact H1 |]. split; [exact H2 |].
  intros k a b Ha Hb. destruct (H4 k a b Ha Hb) as (Hne & i & j & Hij & Hxa & Hxb).
  split; [exact Hne |]. rewrite Hxa, Hxb.
  apply Qmult_lt_compat_r; [exact Hpitch |].
  rewrite <- Zlt_Qlt. lia.
Qed.

Lemma getMonthLabels_spec_witness :
  (0 < (117 # 5) + 3)%Q
  /\ (List.length
        (getMonthLabels [[None; Some "2025-01-01"%string];
                         [Some "2025-01-05"%string];
                         [Some "2025-02-02"%string]] (117 # 5) 3)
      <= 3)%nat.
Proof.
  assert (H : (0 < (117 # 5) + 3)%Q) by reflexivity.
  split; [exact H |].
  exact (proj1 (getMonthLabels_spec
                  [[None; Some "2025-01-01"%string];
                   [Some "2025-01-05"%string];
                   [Some "2025-02-02"%string]] (117 # 5) 3 H)).
Defined.

End Card.

(** ** The collector in the arithmetic of the engine *)

Section DoubleArithmetic.

Local Open Scope list_scope.

(** Integers of magnitude up to 2^53 are doubles. *)
Lemma roundDouble_exact (z : Z) :
  - 2 ^ 53 <= z <= 2 ^ 53 -> Float64.roundDouble z = z.
Proof.
  intros Hz. unfold Float64.roundDouble. cbv zeta.
  assert (Ha : 0 <= Z.abs z <= 2 ^ 53) by lia.
  destruct (Z.eq_dec (Z.abs z) (2 ^ 53)) as [E|N].
  - rewrite E. change (Z.log2 (2 ^ 53)) with 53.
    change (2 ^ Z.max 0 (53 - 52)) with 2.
    change (2 ^ 53 / 2) with (2 ^ 52). change (2 ^ 53 mod 2) with 0.
    cbn [orb andb Z.ltb Z.eqb Z.mul Z.compare].
    change ((2 <? 2 * 0) || (2 * 0 =? 2) && Z.odd (2 ^ 52)) with false.
    cbv iota. change (2 ^ 52 * 2) with (2 ^ 53). rewrite <- E.
    rewrite Z.mul_comm. apply Z.abs_sgn.
  - assert (Hlog : Z.max 0 (Z.log2 (Z.abs z) - 52) = 0).
    { destruct (Z.eq_dec (Z.abs z) 0) as [E0|N0]; [now rewrite E0 |].
      assert (Z.log2 (Z.abs z) < 53) by (apply Z.log2_lt_pow2; lia). lia. }
    rewrite Hlog. change (2 ^ 0) with 1.
    rewrite Z.div_1_r, Z.mod_1_r.
    change ((1 <? 2 * 0) || (2 * 0 =? 1) && Z.odd (Z.abs z)) with false.
    cbv iota. rewrite Z.mul_1_r, Z.mul_comm. apply Z.abs_sgn.
Qed.

Lemma roundDouble_nonneg (z : Z) : 0 <= z -> 0 <= Float64.roundDouble z.
Proof.
  intros Hz. unfold Float64.roundDouble. cbv zeta.
  set (ulp := 2 ^ Z.max 0 (Z.log2 (Z.abs z) - 52)).
  assert (Hulp : 0 < ulp) by (apply Z.pow_pos_nonneg; lia).
  assert (Hq : 0 <= Z.abs z / ulp) by (apply Z.div_pos; lia).
  pose proof (Z.sgn_nonneg z) as [_ Hs]. specialize (Hs Hz).
  apply Z.mul_nonneg_nonneg; [exact Hs |].
  destruct (_ || _); nia.
Qed.

Lemma Number_add_exact (a b : Z) :
  0 <= a -> 0 <= b -> a + b <= 2 ^ 53 -> Float64.Number_add a b = a + b.
Proof.
  intros Ha Hb Hs. unfold Float64.Number_add. apply roundDouble_exact.
  assert (0 < 2 ^ 53) by reflexivity. lia.
Qed.

Lemma Number_add_nonneg (a b : Z) :
  0 <= a -> 0 <= b -> 0 <= Float64.Number_add a b.
Proof. intros Ha Hb. apply roundDouble_nonneg. lia. Qed.

End DoubleArithmetic.

Section DoubleCollector.

Local Open Scope list_scope.

(** What of a summary no rounding can touch, and what holds tokens. *)
Definition exactPart (s : AmpUsageSummary) :=
  (Collector.totalMessages s, Collector.totalSessions s,
   Collector.dailyActivity s, firstTimestamp s, projects s,
   Map_keys (modelTokenTotals s), Map_keys (modelCreditTotals s)).

Definition tokenPart (s : AmpUsageSummary) :=
  (Collector.totalInputTokens s, Collector.totalOutputTokens s,
   Collector.totalCacheReadTokens s, Collector.totalTokens s,
   modelTokenTotals s).

Lemma Map_has_keys {V W} (m : Map V) (m' : Map W) (k : string) :
  Map_keys m = Map_keys m' -> Map_has m k = Map_has m' k.
Proof.
  intros H. destruct (Map_has m' k) eqn:E.
  - apply Map_has_In. rewrite H. now apply Map_has_In.
  - destruct (Map_has m k) eqn:E'; [| reflexivity].
    apply Map_has_In in E'. rewrite H in E'. apply Map_has_In in E'. congruence.
Qed.

Lemma Map_keys_set_eq {V W} (m : Map V) (m' : Map W) (k : string) (v : V) (w : W) :
  Map_keys m = Map_keys m' ->
  Map_keys (Map_set m k v) = Map_keys (Map_set m' k w).
Proof.
  intros H. rewrite !Map_keys_set, (Map_has_keys m m' k H), H. reflexivity.
Qed.

Lemma processMessage_exactPart (fa za : AmpUsageSummary) (m : AmpMessage) :
  exactPart fa = exactPart za ->
  exactPart (Float64.processMessage fa m) = exactPart (processMessage za m).
Proof.
  unfold exactPart. intros H. injection H as H1 H2 H3 H4 H5 H6 H7.
  unfold Float64.processMessage, processMessage.
  destruct (role m); destruct (usage m) as [u|];
    cbn [Collector.totalMessages Collector.totalSessions Collector.dailyActivity
         firstTimestamp projects modelTokenTotals modelCreditTotals];
    rewrite ?H1, ?H2, ?H3, ?H4, ?H5, ?H6, ?H7; try reflexivity.
  destruct (_ && _); [| now rewrite H6, H7].
  f_equal; [f_equal |]; now apply Map_keys_set_eq.
Qed.

Lemma processMessages_exactPart (msgs : list AmpMessage) :
  forall fa za,
    exactPart fa = exactPart za ->
    exactPart (fold_left Float64.processMessage msgs fa)
    = exactPart (fold_left processMessage msgs za).
Proof.
  induction msgs as [|m msgs IH]; intros fa za H; [exact H |].
  cbn [fold_left]. apply IH. now apply processMessage_exactPart.
Qed.

Lemma processThread_exactPart env year (fa za : AmpUsageSummary)
  (file : option AmpThread) :
  exactPart fa = exactPart za ->
  exactPart (Float64.processThread env year fa file)
  = exactPart (processThread env year za file).
Proof.
  intros H. unfold Float64.processThread, processThread.
  destruct file as [thread|]; [| exact H].
  destruct (negb _); [exact H |].
  apply processMessages_exactPart.
  unfold exactPart in *. injection H as H1 H2 H3 H4 H5 H6 H7.
  cbn [Collector.totalMessages Collector.totalSessions Collector.dailyActivity
       firstTimestamp projects modelTokenTotals modelCreditTotals].
  now rewrite H1, H2, H3, H4, H5, H6, H7.
Qed.

(** The counters, the days, the first timestamp, the projects and the
    models named are the same in both readings, whatever the amounts. *)
Lemma collect_exactPart env (threadFiles : list (option AmpThread)) year :
  exactPart (Float64.collectAmpUsageSummary env threadFiles year)
  = exactPart (collectAmpUsageSummary env threadFiles year).
Proof.
  unfold Float64.collectAmpUsageSummary, collectAmpUsageSummary.
  generalize (eq_refl (exactPart emptySummary)).
  generalize emptySummary at 1 3. generalize emptySummary.
  induction threadFiles as [|f fs IH]; intros za fa H; [exact H |].
  cbn [fold_left]. apply IH. now apply processThread_exactPart.
Qed.

End DoubleCollector.

Section DoubleTokens.

Local Open Scope list_scope.

Lemma messageTokens_nonneg (m : AmpMessage) :
  messageNonNegative m ->
  0 <= messageInput m /\ 0 <= messageOutput m /\ 0 <= messageCacheRead m
  /\ 0 <= messageCredits m.
Proof.
  unfold messageNonNegative, messageInput, messageOutput, messageCacheRead,
    messageCredits, countedUsage.
  destruct (role m); [intros _; lia |].
  destruct (usage m) as [u|]; [| intros _; lia].
  intros (Hi & Ho & Hc & Hcr).
  apply orZero_nonNegative in Hi, Ho, Hc, Hcr. lia.
Qed.

Lemma sumOver_nonneg {A} (f : A -> Z) (l : list A) :
  Forall (fun x => 0 <= f x) l -> 0 <= sumOver f l.
Proof. intros H. unfold sumOver. induction H; simpl; lia. Qed.

Lemma messageTokens_sum_nonneg (msgs : list AmpMessage) :
  Forall messageNonNegative msgs -> 0 <= sumOver messageTokens msgs.
Proof.
  intros H. apply sumOver_nonneg. eapply Forall_impl; [| exact H].
  intros m Hm. apply messageTokens_nonneg in Hm. unfold messageTokens. lia.
Qed.

Lemma orZero_get_le_mapSum (m : Map Z) (k : string) :
  Forall (fun e => 0 <= snd e) m -> 0 <= orZero (Map_get m k) <= mapSum m.
Proof.
  intros H. rewrite orZero_get.
  assert (Hs : 0 <= mapSum m) by (clear -H; induction H; simpl; lia).
  destruct (Map_get m k) as [v|] eqn:E; [| lia].
  pose proof (Map_get_Forall (fun v => 0 <= v) m k v H E) as Hv. cbv beta in Hv.
  apply Map_get_Some_In in E.
  pose proof (In_le_mapSum m (k, v) H E) as Hle. cbn [snd] in Hle. lia.
Qed.

Lemma processMessage_totalTokens (acc : AmpUsageSummary) (m : AmpMessage) :
  Collector.totalTokens (processMessage acc m)
  = Collector.totalTokens acc + messageTokens m.
Proof.
  unfold processMessage, messageTokens, messageInput, messageOutput,
    messageCacheRead, countedUsage.
  destruct (role m); destruct (usage m) as [u|]; simpl; lia.
Qed.

(** One message: while the running total stays within 2^53 no addition
    of tokens is rounded. *)
Lemma processMessage_tokenPart (fa za : AmpUsageSummary) (m : AmpMessage) :
  Balanced za -> messageNonNegative m ->
  tokenPart fa = tokenPart za ->
  Collector.totalTokens za + messageTokens m <= 2 ^ 53 ->
  tokenPart (Float64.processMessage fa m) = tokenPart (processMessage za m).
Proof.
  intros [Ht Hi Ho Hc _ _ _ Hmod Hsum] Hm H Hbound.
  unfold tokenPart in *. injection H as H1 H2 H3 H4 H5.
  pose proof (messageTokens_nonneg m Hm) as (Gi & Go & Gc & _).
  unfold messageTokens, messageInput, messageOutput, messageCacheRead,
    countedUsage in *.
  unfold Float64.processMessage, processMessage.
  destruct (role m);
    [cbn [Collector.totalInputTokens Collector.totalOutputTokens
          Collector.totalCacheReadTokens Collector.totalTokens modelTokenTotals];
     now rewrite H1, H2, H3, H4, H5 |].
  destruct (usage m) as [u|];
    [| cbn [Collector.totalInputTokens Collector.totalOutputTokens
            Collector.totalCacheReadTokens Collector.totalTokens modelTokenTotals];
       now rewrite H1, H2, H3, H4, H5].
  cbv zeta.
  cbn [Collector.totalInputTokens Collector.totalOutputTokens
       Collector.totalCacheReadTokens Collector.totalTokens modelTokenTotals].
  rewrite H1, H2, H3, H4, H5.
  set (i := orZero (inputTokens u)) in *.
  set (o := orZero (outputTokens u)) in *.
  set (c := orZero (cacheReadInputTokens u)) in *.
  assert (Eio : Float64.Number_add i o = i + o)
    by (apply Number_add_exact; lia).
  assert (Eioc : Float64.Number_add (Float64.Number_add i o) c = i + o + c)
    by (rewrite Eio; apply Number_add_exact; lia).
  rewrite Eioc.
  rewrite !Number_add_exact by lia.
  destruct (_ && _); [| reflexivity].
  match goal with
  | |- context [orZero (Map_get (modelTokenTotals za) ?k)] =>
      pose proof (orZero_get_le_mapSum (modelTokenTotals za) k Hmod) as Hk
  end.
  rewrite Number_add_exact by lia. reflexivity.
Qed.

Lemma processMessages_tokenPart (msgs : list AmpMessage) :
  forall fa za,
    Balanced za -> Forall messageNonNegative msgs ->
    tokenPart fa = tokenPart za ->
    Collector.totalTokens za + sumOver messageTokens msgs <= 2 ^ 53 ->
    tokenPart (fold_left Float64.processMessage msgs fa)
    = tokenPart (fold_left processMessage msgs za).
Proof.
  induction msgs as [|m msgs IH]; intros fa za Hb Hnn H Hbound; [exact H |].
  inversion Hnn as [|? ? Hm Hnn']; subst.
  cbn [fold_left]. unfold sumOver in Hbound. cbn [fold_right] in Hbound.
  fold (sumOver messageTokens msgs) in Hbound.
  pose proof (messageTokens_sum_nonneg msgs Hnn') as Hrest.
  apply IH.
  - now apply processMessage_balanced.
  - exact Hnn'.
  - apply processMessage_tokenPart; try assumption. lia.
  - rewrite processMessage_totalTokens. lia.
Qed.

End DoubleTokens.

Section DoubleFiles.

Local Open Scope list_scope.

Lemma processMessages_totalTokens (msgs : list AmpMessage) (acc : AmpUsageSummary) :
  Collector.totalTokens (fold_left processMessage msgs acc)
  = Collector.totalTokens acc + sumOver messageTokens msgs.
Proof.
  revert acc. induction msgs as [|m msgs IH]; intros acc.
  - unfold sumOver. simpl. lia.
  - cbn [fold_left]. rewrite IH, processMessage_totalTokens.
    unfold sumOver. cbn [fold_right]. lia.
Qed.

Lemma countedMessages_cons env year (file : option AmpThread)
  (files : list (option AmpThread)) :
  countedMessages env year (file :: files)
  = countedMessages env year [file] ++ countedMessages env year files.
Proof.
  unfold countedMessages.
  now rewrite (matchingThreads_cons env year file files), flat_map_app.
Qed.

Lemma countedMessages_one env year (file : option AmpThread) :
  countedMessages env year [file]
  = match file with
    | Some thread =>
        if getFullYear env (created thread) =? year then messages thread else []
    | None => []
    end.
Proof.
  unfold countedMessages, matchingThreads.
  destruct file as [thread|]; [| reflexivity].
  cbn [flat_map]. rewrite app_nil_r.
  destruct (_ =? _); cbn [flat_map]; [apply app_nil_r | reflexivity].
Qed.

Lemma countedMessages_nonneg env year (files : list (option AmpThread)) :
  Forall fileNonNegative files ->
  Forall messageNonNegative (countedMessages env year files).
Proof.
  intros H. induction H as [|f fs Hf Hfs IH]; [constructor |].
  rewrite countedMessages_cons. apply Forall_app. split; [| exact IH].
  rewrite countedMessages_one. destruct f as [thread|]; [| constructor].
  destruct (_ =? _); [exact Hf | constructor].
Qed.

Lemma processThread_totalTokens env year (acc : AmpUsageSummary)
  (file : option AmpThread) :
  Collector.totalTokens (processThread env year acc file)
  = Collector.totalTokens acc
    + sumOver messageTokens (countedMessages env year [file]).
Proof.
  rewrite countedMessages_one. unfold processThread.
  destruct file as [thread|]; [| unfold sumOver; simpl; lia].
  destruct (_ =? _); cbn [negb]; [| unfold sumOver; simpl; lia].
  now rewrite processMessages_totalTokens.
Qed.

Lemma processThread_tokenPart env year (fa za : AmpUsageSummary)
  (file : option AmpThread) :
  Balanced za -> fileNonNegative file ->
  tokenPart fa = tokenPart za ->
  Collector.totalTokens za
  + sumOver messageTokens (countedMessages env year [file]) <= 2 ^ 53 ->
  tokenPart (Float64.processThread env year fa file)
  = tokenPart (processThread env year za file).
Proof.
  intros Hb Hnn H Hbound. rewrite countedMessages_one in Hbound.
  unfold Float64.processThread, processThread.
  destruct file as [thread|]; [| exact H].
  destruct (_ =? _); cbn [negb]; [| exact H].
  apply processMessages_tokenPart.
  - destruct Hb. constructor; simpl; (assumption || lia).
  - exact Hnn.
  - unfold tokenPart in *. exact H.
  - exact Hbound.
Qed.

(** Within 2^53 the token totals of both readings are the same. *)
Lemma collect_tokenPart env (threadFiles : list (option AmpThread)) year :
  Forall fileNonNegative threadFiles ->
  sumOver messageTokens (countedMessages env year threadFiles) <= 2 ^ 53 ->
  tokenPart (Float64.collectAmpUsageSummary env threadFiles year)
  = tokenPart (collectAmpUsageSummary env threadFiles year).
Proof.
  intros Hnn Hbound.
  unfold Float64.collectAmpUsageSummary, collectAmpUsageSummary.
  assert (G : forall files fa za,
             Forall fileNonNegative files -> Balanced za ->
             tokenPart fa = tokenPart za ->
             Collector.totalTokens za
             + sumOver messageTokens (countedMessages env year files) <= 2 ^ 53 ->
             tokenPart (fold_left (Float64.processThread env year) files fa)
             = tokenPart (fold_left (processThread env year) files za)).
  { induction files as [|f fs IH]; intros fa za Hf Hb H Hle; [exact H |].
    inversion Hf as [|? ? Hf1 Hf2]; subst.
    rewrite countedMessages_cons, sumOver_app in Hle.
    pose proof (messageTokens_sum_nonneg _ (countedMessages_nonneg env year fs Hf2))
      as Hrest.
    cbn [fold_left]. apply IH.
    - exact Hf2.
    - now apply processThread_balanced.
    - apply processThread_tokenPart; try assumption. lia.
    - rewrite processThread_totalTokens. lia. }
  apply G; try assumption.
  - constructor; simpl; try lia; constructor.
  - reflexivity.
Qed.

(** *** Credits are never negative *)

Lemma Float64_processMessage_credits (acc : AmpUsageSummary) (m : AmpMessage) :
  messageNonNegative m -> 0 <= Collector.totalCredits acc ->
  0 <= Collector.totalCredits (Float64.processMessage acc m).
Proof.
  intros Hm H. unfold Float64.processMessage, messageNonNegative in *.
  destruct (role m); destruct (usage m) as [u|]; try exact H.
  cbn [Collector.totalCredits]. destruct Hm as (_ & _ & _ & Hcr).
  apply Number_add_nonneg; [exact H | now apply orZero_nonNegative].
Qed.

Lemma Float64_collect_credits env (threadFiles : list (option AmpThread)) year :
  Forall fileNonNegative threadFiles ->
  0 <= Collector.totalCredits (Float64.collectAmpUsageSummary env threadFiles year).
Proof.
  intros Hnn. unfold Float64.collectAmpUsageSummary.
  assert (H0 : 0 <= Collector.totalCredits emptySummary) by (simpl; lia).
  revert H0. generalize emptySummary.
  induction Hnn as [|f fs Hf Hfs IH]; intros acc Hacc; [exact Hacc |].
  cbn [fold_left]. apply IH. unfold Float64.processThread.
  destruct f as [thread|]; [| exact Hacc].
  destruct (negb _); [exact Hacc |].
  simpl in Hf.
  match goal with
  | |- 0 <= Collector.totalCredits (fold_left _ _ ?a) =>
      assert (Ha : 0 <= Collector.totalCredits a) by exact Hacc;
      revert Ha; generalize a
  end.
  induction Hf as [|m ms Hm Hms IHm]; intros a Ha; [exact Ha |].
  cbn [fold_left]. apply IHm. now apply Float64_processMessage_credits.
Qed.

End DoubleFiles.

Section DoubleClaims.

Local Open Scope list_scope.

(** The scalar totals of the exact reading, as sums over the messages. *)
Lemma collect_scalarTotals env (threadFiles : list (option AmpThread)) year :
  scalarTotals (collectAmpUsageSummary env threadFiles year)
  = [ sumOver messageInput (countedMessages env year threadFiles);
      sumOver messageOutput (countedMessages env year threadFiles);
      sumOver messageCacheRead (countedMessages env year threadFiles);
      sumOver messageTokens (countedMessages env year threadFiles);
      sumOver messageCredits (countedMessages env year threadFiles);
      sumOver messageIsUser (countedMessages env year threadFiles);
      Z.of_nat (List.length (matchingThreads env year threadFiles)) ].
Proof.
  destruct (collect_inv env year threadFiles) as [Hsc _ _ _ _ _].
  rewrite Hsc. apply threadDeltas_sums.
Qed.

(** The value of a double that holds an integer, in the Standard
    Library's specification of IEEE 754 arithmetic. *)
Definition integerOf (x : spec_float) : option Z :=
  match x with
  | S754_zero _ => Some 0
  | S754_finite s m e =>
      if 0 <=? e then Some ((if s then -1 else 1) * (Z.pos m * 2 ^ e))
      else if Z.pos m mod 2 ^ (- e) =? 0
           then Some ((if s then -1 else 1) * (Z.pos m / 2 ^ (- e)))
           else None
  | _ => None
  end.

Definition toDouble (z : Z) : spec_float := binary_normalize 53 1024 z 0 false.

(** [Number_add] against the binary64 addition of the specification. *)
Definition agreesWithIEEE (p : Z * Z) : bool :=
  match integerOf (SFadd 53 1024 (toDouble (fst p)) (toDouble (snd p))) with
  | Some v => v =? Float64.Number_add (fst p) (snd p)
  | None => false
  end.

(** The sums that occur in the scenarios below, and sums on both sides
    of a tie, are what binary64 addition gives. *)
Lemma Number_add_agreesWithIEEE :
  forallb agreesWithIEEE
    [ (0, 2 ^ 53); (2 ^ 53, 1); (2 ^ 53, 0); (0, 1); (1, 1); (2 ^ 53, 2);
      (2 ^ 53 + 2, 1); (2 ^ 53 + 2, 2); (2 ^ 53 + 4, 3); (2 ^ 53 + 4, 1);
      (2 ^ 54, 1); (2 ^ 54, 2); (2 ^ 54, 3); (2 ^ 54 + 4, 2); (2 ^ 54 + 4, 6);
      (2 ^ 60, 127); (2 ^ 60, 128); (2 ^ 60, 129); (2 ^ 60 + 256, 128);
      (50, 10); (60, 50); (123456789, 987654321);
      (2 ^ 52 + 1, 2 ^ 52 + 1); (2 ^ 53 - 1, 1); (2 ^ 53 - 1, 2) ]
  = true.
Proof. vm_compute. reflexivity. Qed.

(** A thread whose first assistant message reports 2^53 input tokens
    and 1 output token, and whose second reports 1 output token. *)
Definition largeThread : AmpThread :=
  {| id := "T-4"%string;
     created := 1735948800000;
     messages :=
       [ {| role := assistant;
            usage := Some {| model := Some "gpt-4o"%string;
                             inputTokens := Some (2 ^ 53);
                             outputTokens := Some 1;
                             cacheReadInputTokens := None;
                             credits := None |};
            fileMentionFiles := None |};
         {| role := assistant;
            usage := Some {| model := Some "gpt-4o"%string;
                             inputTokens := None;
                             outputTokens := Some 1;
                             cacheReadInputTokens := None;
                             credits := None |};
            fileMentionFiles := None |} ] |}.

(** C4, as stated, fails beyond 2^53.  All usage fields of
    [largeThread] are non-negative integers, yet the collector ends with
    totalTokens = 2^53 while totalInputTokens + totalOutputTokens +
    totalCacheReadTokens is 2^53 + 2, in the engine's arithmetic as in
    exact arithmetic: both entry totals are rounded away. *)
Lemma totalTokens_differs_beyond_2_53 :
  let s := Float64.collectAmpUsageSummary (frozenEnv 1735948800000 0)
             [Some largeThread] 2025 in
  Forall fileNonNegative [Some largeThread]
  /\ Collector.totalTokens s = 9007199254740992
  /\ Collector.totalInputTokens s = 9007199254740992
  /\ Collector.totalOutputTokens s = 2
  /\ Collector.totalCacheReadTokens s = 0
  /\ Float64.Number_add
       (Float64.Number_add (Collector.totalInputTokens s)
          (Collector.totalOutputTokens s))
       (Collector.totalCacheReadTokens s)
     = 9007199254740994
  /\ Collector.totalTokens s
     <> Collector.totalInputTokens s + Collector.totalOutputTokens s
        + Collector.totalCacheReadTokens s.
Proof.
  cbv zeta. split.
  - repeat constructor; simpl; unfold messageNonNegative, usageNonNegative;
      simpl; repeat split; try lia; try exact I.
  - repeat split; try (vm_compute; reflexivity).
    vm_compute. discriminate.
Qed.

(** C4, amended.  For every stream of records whose usage fields are
    non-negative integers and whose tokens sum to at most 2^53, the
    summary the collector computes in the engine's arithmetic satisfies
    totalTokens = totalInputTokens + totalOutputTokens +
    totalCacheReadTokens; each total is the sum, over the assistant
    messages with usage of the threads of the year, of the field it is
    named after, a missing field counting 0, and totalTokens is the sum
    of their entry totals input + output + cache-read; every scalar
    total is non-negative; and no sum is rounded, the exact reading
    giving the same token totals. *)
Theorem collect_totals_invariant :
  forall env (threadFiles : list (option AmpThread)) year,
    Forall fileNonNegative threadFiles ->
    let msgs := countedMessages env year threadFiles in
    sumOver messageTokens msgs <= 2 ^ 53 ->
    let s := Float64.collectAmpUsageSummary env threadFiles year in
    Collector.totalTokens s
    = Collector.totalInputTokens s + Collector.totalOutputTokens s
      + Collector.totalCacheReadTokens s
    /\ Collector.totalInputTokens s = sumOver messageInput msgs
    /\ Collector.totalOutputTokens s = sumOver messageOutput msgs
    /\ Collector.totalCacheReadTokens s = sumOver messageCacheRead msgs
    /\ Collector.totalTokens s = sumOver messageTokens msgs
    /\ (forall m,
          messageTokens m
          = match role m, usage m with
            | assistant, Some u =>
                orZero (inputTokens u) + orZero (outputTokens u)
                + orZero (cacheReadInputTokens u)
            | _, _ => 0
            end)
    /\ 0 <= Collector.totalInputTokens s
    /\ 0 <= Collector.totalOutputTokens s
    /\ 0 <= Collector.totalCacheReadTokens s
    /\ 0 <= Collector.totalTokens s
    /\ 0 <= Collector.totalCredits s
    /\ 0 <= Collector.totalMessages s
    /\ 0 <= Collector.totalSessions s
    /\ tokenPart s = tokenPart (collectAmpUsageSummary env threadFiles year).
Proof.
  intros env threadFiles year Hnn msgs Hbound s.
  pose proof (collect_tokenPart env threadFiles year Hnn Hbound) as Htok.
  pose proof (collect_exactPart env threadFiles year) as Hex.
  pose proof (Float64_collect_credits env threadFiles year Hnn) as Hcr.
  fold s in Htok, Hex, Hcr.
  set (z := collectAmpUsageSummary env threadFiles year) in *.
  pose proof (collect_scalarTotals env threadFiles year) as Hsc.
  fold z msgs in Hsc. unfold scalarTotals in Hsc.
  injection Hsc as S1 S2 S3 S4 S5 S6 S7.
  unfold tokenPart in Htok. injection Htok as T1 T2 T3 T4 T5.
  unfold exactPart in Hex. injection Hex as E1 E2 _ _ _ _ _.
  pose proof (countedMessages_nonneg env year threadFiles Hnn) as Hmsgs.
  fold msgs in Hmsgs.
  assert (Hparts : 0 <= sumOver messageInput msgs
                   /\ 0 <= sumOver messageOutput msgs
                   /\ 0 <= sumOver messageCacheRead msgs
                   /\ sumOver messageTokens msgs
                      = sumOver messageInput msgs + sumOver messageOutput msgs
                        + sumOver messageCacheRead msgs
                   /\ 0 <= sumOver messageIsUser msgs).
  { clear -Hmsgs. unfold sumOver.
    induction Hmsgs as [|m ms Hm Hms IH]; [simpl; lia |].
    cbn [fold_right]. apply messageTokens_nonneg in Hm.
    unfold messageTokens at 1. unfold messageIsUser at 1.
    destruct (role m); lia. }
  destruct Hparts as (P1 & P2 & P3 & P4 & P5).
  rewrite T1, T2, T3, T4, E1, E2, S1, S2, S3, S4, S6, S7.
  split; [exact P4 |].
  do 4 (split; [reflexivity |]).
  split.
  { intros m. unfold messageTokens, messageInput, messageOutput,
      messageCacheRead, countedUsage.
    destruct (role m); [lia |]. destruct (usage m); lia. }
  do 7 (split; [lia |]).
  unfold tokenPart. now rewrite T1, T2, T3, T4, T5.
Qed.

Lemma collect_totals_invariant_witness :
  Forall fileNonNegative sampleFiles
  /\ sumOver messageTokens
       (countedMessages (frozenEnv 1735948800000 0) 2025 sampleFiles) <= 2 ^ 53
  /\ let s := Float64.collectAmpUsageSummary (frozenEnv 1735948800000 0)
                sampleFiles 2025 in
     Collector.totalTokens s
     = Collector.totalInputTokens s + Collector.totalOutputTokens s
       + Collector.totalCacheReadTokens s.
Proof.
  assert (H : sumOver messageTokens
                (countedMessages (frozenEnv 1735948800000 0) 2025 sampleFiles)
              <= 2 ^ 53) by (vm_compute; discriminate).
  split; [exact sampleFiles_nonNegative |]. split; [exact H |].
  exact (proj1 (collect_totals_invariant (frozenEnv 1735948800000 0) sampleFiles
                  2025 sampleFiles_nonNegative H)).
Defined.

End DoubleClaims.

Section DoubleRanking.

Local Open Scope list_scope.

(** C6, amended.  Model ranking excludes every model whose token total
    is not positive; each remaining model's percentage is tokens /
    totalTokens * 100, and 0 when totalTokens is not positive; models are
    sorted descending by token count with ties in their original order;
    at most the top 3 are kept.  The percentages of topModels and
    topProviders are never negative and all 0 when totalTokens = 0; they
    are at most 100 whenever the positive model totals sum to at most
    totalTokens and, for a provider, totalTokens is at most 2^53, so
    that the sum of its models is exact.  Both hold of every summary the
    collector computes, in the engine's arithmetic, from records whose
    usage fields are non-negative integers and whose tokens sum to at
    most 2^53. *)
Theorem modelRanking_spec :
  forall usageSummary : AmpUsageSummary,
    let total := Collector.totalTokens usageSummary in
    let modelStats := fst (buildModelStats usageSummary) in
    let providerCounts := snd (buildModelStats usageSummary) in
    let sorted := Array_sort (fun a b => model_count b - model_count a) modelStats in
    let topModels := rankModels modelStats in
    let topProviders := rankProviders total providerCounts in
    modelStats
    = map (modelStatOf usageSummary)
        (filter positiveEntry (modelTokenTotals usageSummary))
    /\ topModels = firstn 3 sorted
    /\ Permutation sorted modelStats
    /\ StronglySorted (fun a b => model_count b <= model_count a) sorted
    /\ (forall c, filter (fun a => model_count a =? c) sorted
                  = filter (fun a => model_count a =? c) modelStats)
    /\ (List.length topModels <= 3)%nat
    /\ (List.length topProviders <= 3)%nat
    /\ (forall m, In m topModels ->
          0 < model_count m
          /\ model_percentage m = percentageOf (model_count m) total
          /\ (0 < total ->
                model_percentage m
                = (inject_Z (model_count m) / inject_Z total * 100)%Q)
          /\ (total <= 0 -> model_percentage m = 0%Q)
          /\ (0 <= model_percentage m)%Q
          /\ (positiveTotal (modelTokenTotals usageSummary) <= total ->
                (model_percentage m <= 100)%Q))
    /\ (forall p, In p topProviders ->
          provider_percentage p = percentageOf (provider_count p) total
          /\ (total <= 0 -> provider_percentage p = 0%Q)
          /\ (0 <= provider_percentage p)%Q
          /\ (positiveTotal (modelTokenTotals usageSummary) <= total ->
              total <= 2 ^ 53 ->
                (provider_percentage p <= 100)%Q))
    /\ (forall env (threadFiles : list (option AmpThread)) year,
          usageSummary = Float64.collectAmpUsageSummary env threadFiles year ->
          Forall fileNonNegative threadFiles ->
          sumOver messageTokens (countedMessages env year threadFiles) <= 2 ^ 53 ->
          positiveTotal (modelTokenTotals usageSummary) <= total
          /\ total <= 2 ^ 53)
    /\ (forall env fuel year n r n',
          calculateStats env fuel usageSummary year n = (Some r, n') ->
          Stats.topModels r = topModels /\ Stats.topProviders r = topProviders).
Proof.
  intros usageSummary total modelStats providerCounts sorted topModels topProviders.
  assert (Hms : modelStats
                = map (modelStatOf usageSummary)
                    (filter positiveEntry (modelTokenTotals usageSummary))).
  { subst modelStats. unfold buildModelStats. now rewrite modelStep_fold. }
  destruct (modelStep_providers usageSummary (modelTokenTotals usageSummary) [] []
              (Forall_nil _)) as [Hpc Hsum].
  change (Forall (fun e => 0 <= snd e) providerCounts) in Hpc.
  change (mapSum providerCounts
          = mapSum [] + positiveTotal (modelTokenTotals usageSummary)) in Hsum.
  change (mapSum []) with 0 in Hsum.
  assert (Hmodel : forall m, In m topModels ->
             exists e, In e (modelTokenTotals usageSummary)
                       /\ 0 < snd e /\ m = modelStatOf usageSummary e).
  { intros m Hm. subst topModels. unfold rankModels in Hm.
    apply firstn_incl in Hm.
    apply (Permutation_in _ (Array_sort_perm _ _)) in Hm.
    rewrite Hms in Hm. apply in_map_iff in Hm. destruct Hm as [e [<- He]].
    apply filter_In in He. destruct He as [He Hp].
    exists e. split; [exact He |]. split; [| reflexivity].
    unfold positiveEntry in Hp. now apply Z.ltb_lt in Hp. }
  assert (Hprov : forall p, In p topProviders ->
             exists e, In e providerCounts
                       /\ provider_count p = snd e
                       /\ provider_percentage p = percentageOf (snd e) total).
  { intros p Hp. subst topProviders. unfold rankProviders in Hp.
    apply in_map_iff in Hp. destruct Hp as [[pid cnt] [<- He]].
    apply firstn_incl in He.
    apply (Permutation_in _ (Array_sort_perm _ _)) in He.
    exists (pid, cnt). now repeat split. }
  split; [exact Hms |]. split; [reflexivity |].
  split; [apply Array_sort_perm |].
  split; [apply Array_sort_descending |].
  split; [intros c; apply Array_sort_stable |].
  split; [apply firstn_le_length |].
  split; [unfold topProviders, rankProviders; rewrite length_map;
          apply firstn_le_length |].
  split; [| split; [| split]].
  - intros m Hm. destruct (Hmodel m Hm) as (e & He & Hpos & ->). simpl.
    split; [exact Hpos |]. split; [reflexivity |].
    split; [apply percentageOf_positive |].
    split; [apply percentageOf_zero |].
    split; [apply percentageOf_nonneg; lia |].
    intros Hle. apply percentageOf_le_100.
    assert (Hin : In e (filter positiveEntry (modelTokenTotals usageSummary))).
    { apply filter_In. split; [exact He |]. unfold positiveEntry.
      now apply Z.ltb_lt. }
    apply In_le_mapSum in Hin; [unfold positiveTotal in Hle; subst total; lia |].
    apply Forall_forall. intros x Hx. apply filter_In in Hx.
    destruct Hx as [_ Hx]. unfold positiveEntry in Hx. apply Z.ltb_lt in Hx. lia.
  - intros p Hp. destruct (Hprov p Hp) as (e & He & Hc & Hpct).
    pose proof (Forall_forall (fun e => 0 <= snd e) providerCounts) as [Hf _].
    specialize (Hf Hpc e He). simpl in Hf.
    rewrite Hpct, Hc.
    split; [reflexivity |].
    split; [apply percentageOf_zero |].
    split; [now apply percentageOf_nonneg |].
    intros Hle _. apply percentageOf_le_100.
    pose proof (In_le_mapSum providerCounts e Hpc He). subst total. lia.
  - intros env threadFiles year -> Hnn Hbound.
    pose proof (collect_tokenPart env threadFiles year Hnn Hbound) as Htok.
    unfold tokenPart in Htok. injection Htok as _ _ _ T4 T5.
    destruct (collect_balanced env threadFiles year Hnn)
      as [_ _ _ _ _ _ _ Hmod Hsum'].
    pose proof (collect_scalarTotals env threadFiles year) as Hsc.
    unfold scalarTotals in Hsc. injection Hsc as _ _ _ S4 _ _ _.
    subst total. rewrite T4, T5. split; [| rewrite S4; exact Hbound].
    eapply Z.le_trans; [| exact Hsum'].
    unfold positiveTotal. clear -Hmod.
    induction Hmod as [|e m He Hm IH]; [simpl; lia |].
    simpl. destruct (positiveEntry e); simpl; lia.
  - intros env fuel year n r n' H. apply calculateStats_result in H.
    destruct H as (s & n1 & first & now & _ & ->). now split.
Qed.

Lemma modelRanking_spec_witness :
  let s := Float64.collectAmpUsageSummary (frozenEnv 1735948800000 0)
             sampleFiles 2025 in
  Forall fileNonNegative sampleFiles
  /\ sumOver messageTokens
       (countedMessages (frozenEnv 1735948800000 0) 2025 sampleFiles) <= 2 ^ 53
  /\ positiveTotal (modelTokenTotals s) <= Collector.totalTokens s
  /\ (forall m, In m (rankModels (fst (buildModelStats s))) ->
        (model_percentage m <= 100)%Q)
  /\ (forall p, In p (rankProviders (Collector.totalTokens s)
                        (snd (buildModelStats s))) ->
        (provider_percentage p <= 100)%Q).
Proof.
  intros s.
  assert (Hb : sumOver messageTokens
                 (countedMessages (frozenEnv 1735948800000 0) 2025 sampleFiles)
               <= 2 ^ 53) by (vm_compute; discriminate).
  destruct (modelRanking_spec s)
    as (_ & _ & _ & _ & _ & _ & _ & Hm & Hp & Hcollect & _).
  destruct (Hcollect (frozenEnv 1735948800000 0) sampleFiles 2025 eq_refl
              sampleFiles_nonNegative Hb) as [Hle Hmax].
  split; [exact sampleFiles_nonNegative |]. split; [exact Hb |].
  split; [exact Hle |]. split.
  - intros m Hin. destruct (Hm m Hin) as (_ & _ & _ & _ & _ & H100).
    exact (H100 Hle).
  - intros p Hin. destruct (Hp p Hin) as (_ & _ & _ & H100).
    exact (H100 Hle Hmax).
Defined.

End DoubleRanking.

Section DoubleOrder.

Local Open Scope list_scope.

Lemma sumOver_perm {A} (f : A -> Z) (l l' : list A) :
  Permutation l l' -> sumOver f l = sumOver f l'.
Proof.
  intros H. unfold sumOver.
  induction H as [| x l l' H IH | x y l | l l' l'' H1 IH1 H2 IH2]; simpl; lia.
Qed.

Lemma countedMessages_perm env year (files files' : list (option AmpThread)) :
  Permutation files files' ->
  Permutation (countedMessages env year files) (countedMessages env year files').
Proof.
  intros H. unfold countedMessages. apply Permutation_flat_map.
  now apply matchingThreads_perm.
Qed.

(** A second thread of the year, of 6 January 2025. *)
Definition laterThread : AmpThread :=
  {| id := "T-5"%string;
     created := 1736121600000;
     messages :=
       [ {| role := user; usage := None;
            fileMentionFiles := Some ["file:///home/u/other/lib/util.ts"%string] |};
         {| role := assistant;
            usage := Some {| model := Some "claude-sonnet-4-20250514"%string;
                             inputTokens := Some 7;
                             outputTokens := Some 5;
                             cacheReadInputTokens := None;
                             credits := Some 1 |};
            fileMentionFiles := None |} ] |}.

(** X10.  What the order of the thread files cannot change, in the
    engine's arithmetic.  For every rearrangement of the files the
    collector gives the same totalSessions and totalMessages, the same
    count for every day, the same first timestamp, the same projects and
    the same models; and, when the usage fields are non-negative integers
    whose tokens sum to at most 2^53, the same four token totals and the
    same token total for every model.  (Credits are sums of fractions in
    the program and are not claimed.) *)
Theorem collect_order_independent :
  forall env (threadFiles threadFiles' : list (option AmpThread)) year,
    Permutation threadFiles threadFiles' ->
    let s := Float64.collectAmpUsageSummary env threadFiles year in
    let s' := Float64.collectAmpUsageSummary env threadFiles' year in
    Collector.totalSessions s = Collector.totalSessions s'
    /\ Collector.totalMessages s = Collector.totalMessages s'
    /\ (forall key,
          Map_get (Collector.dailyActivity s) key
          = Map_get (Collector.dailyActivity s') key)
    /\ firstTimestamp s = firstTimestamp s'
    /\ (forall project, In project (projects s) <-> In project (projects s'))
    /\ (forall id,
          In id (Map_keys (modelTokenTotals s))
          <-> In id (Map_keys (modelTokenTotals s')))
    /\ (Forall fileNonNegative threadFiles ->
        sumOver messageTokens (countedMessages env year threadFiles) <= 2 ^ 53 ->
        Collector.totalInputTokens s = Collector.totalInputTokens s'
        /\ Collector.totalOutputTokens s = Collector.totalOutputTokens s'
        /\ Collector.totalCacheReadTokens s = Collector.totalCacheReadTokens s'
        /\ Collector.totalTokens s = Collector.totalTokens s'
        /\ forall id,
             orZero (Map_get (modelTokenTotals s) id)
             = orZero (Map_get (modelTokenTotals s') id)).
Proof.
  intros env files files' year Hperm s s'.
  pose proof (collect_exactPart env files year) as Hex.
  pose proof (collect_exactPart env files' year) as Hex'.
  fold s in Hex. fold s' in Hex'.
  set (z := collectAmpUsageSummary env files year) in *.
  set (z' := collectAmpUsageSummary env files' year) in *.
  unfold exactPart in Hex, Hex'.
  injection Hex as E1 E2 E3 E4 E5 E6 _.
  injection Hex' as E1' E2' E3' E4' E5' E6' _.
  destruct (collect_inv env year files) as [_ _ Hc _ _ Hf].
  destruct (collect_inv env year files') as [_ _ Hc' _ _ Hf'].
  fold z in Hc, Hf. fold z' in Hc', Hf'.
  pose proof (collect_scalarTotals env files year) as Hsc.
  pose proof (collect_scalarTotals env files' year) as Hsc'.
  fold z in Hsc. fold z' in Hsc'. unfold scalarTotals in Hsc, Hsc'.
  injection Hsc as S1 S2 S3 S4 _ S6 S7.
  injection Hsc' as S1' S2' S3' S4' _ S6' S7'.
  pose proof (matchingThreads_perm env year files files' Hperm) as Hm.
  pose proof (countedMessages_perm env year files files' Hperm) as Hmsgs.
  destruct (collect_models_inv env files year) as ([_ Hhas Hget] & _ & _).
  destruct (collect_models_inv env files' year) as ([_ Hhas' Hget'] & _ & _).
  fold z in Hhas, Hget. fold z' in Hhas', Hget'.
  split; [rewrite E2, E2', S7, S7'; f_equal; now apply Permutation_length |].
  split; [rewrite E1, E1', S6, S6'; now apply sumOver_perm |].
  split.
  { intros key. rewrite E3, E3', Hc, Hc'.
    now rewrite (threadsOnDay_perm env key _ _ Hm). }
  split.
  { rewrite E4, E4'.
    destruct (firstTimestamp z) as [f|]; destruct (firstTimestamp z') as [f'|].
    - destruct Hf as [[t [Ht Hcr]] Hmin]. destruct Hf' as [[t' [Ht' Hcr']] Hmin'].
      f_equal.
      apply (Permutation_in _ Hm) in Ht.
      apply (Permutation_in _ (Permutation_sym Hm)) in Ht'.
      specialize (Hmin t' Ht'). specialize (Hmin' t Ht). lia.
    - destruct Hf as [[t [Ht _]] _]. rewrite Hf' in Hm.
      apply Permutation_sym, Permutation_nil in Hm. rewrite Hm in Ht. destruct Ht.
    - destruct Hf' as [[t [Ht _]] _]. rewrite Hf in Hm.
      apply Permutation_nil in Hm. rewrite Hm in Ht. destruct Ht.
    - reflexivity. }
  split.
  { intros project. rewrite E5, E5'. unfold z, z', collectAmpUsageSummary.
    rewrite !collect_projects_fold, !fold_Set_add_In.
    assert (Hp : Permutation
                   (flat_map threadProjects (matchingThreads env year files))
                   (flat_map threadProjects (matchingThreads env year files')))
      by now apply Permutation_flat_map.
    split; (intros [H | H]; [now left | right]).
    - now apply (Permutation_in _ Hp).
    - now apply (Permutation_in _ (Permutation_sym Hp)). }
  split.
  { intros id. rewrite E6, E6', Hhas, Hhas'.
    split; intros (m & Hin & Hmodel); exists m; (split; [| exact Hmodel]).
    - now apply (Permutation_in _ Hmsgs).
    - now apply (Permutation_in _ (Permutation_sym Hmsgs)). }
  intros Hnn Hbound.
  assert (Hnn' : Forall fileNonNegative files')
    by (eapply Permutation_Forall; eassumption).
  assert (Hbound' : sumOver messageTokens (countedMessages env year files')
                    <= 2 ^ 53)
    by now rewrite <- (sumOver_perm messageTokens _ _ Hmsgs).
  pose proof (collect_tokenPart env files year Hnn Hbound) as Htok.
  pose proof (collect_tokenPart env files' year Hnn' Hbound') as Htok'.
  fold s z in Htok. fold s' z' in Htok'. unfold tokenPart in Htok, Htok'.
  injection Htok as T1 T2 T3 T4 T5. injection Htok' as T1' T2' T3' T4' T5'.
  rewrite T1, T2, T3, T4, T1', T2', T3', T4', S1, S2, S3, S4, S1', S2', S3', S4'.
  repeat (split; [now apply sumOver_perm |]).
  intros id. rewrite T5, T5', Hget, Hget'. now apply sumOver_perm.
Qed.

Lemma collect_order_independent_witness :
  Permutation [Some sampleThread; Some laterThread; None]
    [Some laterThread; None; Some sampleThread]
  /\ Forall fileNonNegative [Some sampleThread; Some laterThread; None]
  /\ sumOver messageTokens
       (countedMessages (frozenEnv 0 0) 2025
          [Some sampleThread; Some laterThread; None]) <= 2 ^ 53
  /\ Collector.totalSessions
       (Float64.collectAmpUsageSummary (frozenEnv 0 0)
          [Some sampleThread; Some laterThread; None] 2025) = 2
  /\ Collector.totalTokens
       (Float64.collectAmpUsageSummary (frozenEnv 0 0)
          [Some sampleThread; Some laterThread; None] 2025)
     = Collector.totalTokens
         (Float64.collectAmpUsageSummary (frozenEnv 0 0)
            [Some laterThread; None; Some sampleThread] 2025).
Proof.
  assert (H : Permutation [Some sampleThread; Some laterThread; None]
                [Some laterThread; None; Some sampleThread]).
  { apply (perm_trans (l' := [Some laterThread; Some sampleThread; None])).
    - apply perm_swap.
    - apply perm_skip. apply perm_swap. }
  assert (Hnn : Forall fileNonNegative [Some sampleThread; Some laterThread; None]).
  { repeat constructor; simpl; unfold messageNonNegative, usageNonNegative;
      simpl; repeat split; try lia; exact I. }
  assert (Hb : sumOver messageTokens
                 (countedMessages (frozenEnv 0 0) 2025
                    [Some sampleThread; Some laterThread; None]) <= 2 ^ 53)
    by (vm_compute; discriminate).
  split; [exact H |]. split; [exact Hnn |]. split; [exact Hb |].
  split; [vm_compute; reflexivity |].
  destruct (collect_order_independent (frozenEnv 0 0) _ _ 2025 H)
    as (_ & _ & _ & _ & _ & _ & Htok).
  exact (proj1 (proj2 (proj2 (proj2 (Htok Hnn Hb))))).
Defined.

End DoubleOrder.
